(** * Market-data server: normalizers, ranking and classification fallback

    A shallow embedding of [server.ts] (the two row normalizers
    [processTwseData] and [processTpexData] and the [GET /api/market-data]
    handler), of the AI service ([formatBillions], the prompt texts,
    [classifyStocks] and [generateSummary]) and of the client component
    ([runAnalysis], the panels and [renderCategoryList]).

    The program is JavaScript: its numbers are IEEE-754 binary64 values, its
    payloads are untyped JSON values ([any]) and every property access or
    method call may raise a [TypeError].  The embedding keeps all three:

    - numbers are Rocq's primitive [float]s (binary64, round to nearest even,
      one NaN), specified by [SpecFloat];
    - payloads are values of the inductive type [JS.value];
    - a computation that may raise returns a [JS.completion].

    Strings are Rocq [string]s read as sequences of code units; the model
    therefore ranges over the code units 0..255.  Every character the program
    inspects (digits, signs, [,], [<], [>], [.], [e], white space) is in that
    range. *)

From Stdlib Require Import ZArith String Ascii List Floats Lia Bool.
From Stdlib Require Import DecimalString DecimalN Sorted Permutation.
From stdpp Require Import gmap strings list.

Open Scope string_scope.
Set Warnings "-inexact-float".

(** ** The fragment of ECMAScript the program runs on *)

Module JS.

(** *** Completions: a value, or a thrown exception with its message *)

Inductive completion (A : Type) : Type :=
| Normal (a : A)
| Throw (message : string).

Arguments Normal {A} a.
Arguments Throw {A} message.

Definition bind {A B : Type} (c : completion A) (k : A -> completion B) : completion B :=
  match c with
  | Normal a => k a
  | Throw e => Throw e
  end.

Notation "'do' x <- c ; k" := (bind c (fun x => k))
  (at level 10, x name, c at level 100, k at level 200).

(** [xs.map(f)] where [f] may throw: the first exception aborts the loop. *)
Fixpoint mapM {A B : Type} (f : A -> completion B) (l : list A) : completion (list B) :=
  match l with
  | [] => Normal []
  | x :: l' => do y <- f x; do ys <- mapM f l'; Normal (y :: ys)
  end.

(** *** Characters and strings *)

Definition codeUnit (c : ascii) : N := N_of_ascii c.

Definition isDigit (c : ascii) : bool := ((48 <=? codeUnit c) && (codeUnit c <=? 57))%N.

Definition digitVal (c : ascii) : Z := Z.of_N (codeUnit c) - 48.

(** White space and line terminators of [StrWhiteSpaceChar] below code unit
    256: TAB, LF, VT, FF, CR, SP and NBSP. *)
Definition isWhiteSpace (c : ascii) : bool :=
  existsb (N.eqb (codeUnit c)) [9; 10; 11; 12; 13; 32; 160]%N.

Fixpoint trimStart (s : string) : string :=
  match s with
  | String c s' => if isWhiteSpace c then trimStart s' else s
  | EmptyString => EmptyString
  end.

Definition reverse (s : string) : string :=
  string_of_list_ascii (rev (list_ascii_of_string s)).

Definition trim (s : string) : string :=
  reverse (trimStart (reverse (trimStart s))).

(** The longest prefix of decimal digits, and what follows it. *)
Fixpoint spanDigits (s : string) : string * string :=
  match s with
  | String c s' =>
    if isDigit c then let '(d, r) := spanDigits s' in (String c d, r) else (EmptyString, s)
  | EmptyString => (EmptyString, EmptyString)
  end.

Fixpoint digitsValue (acc : Z) (s : string) : Z :=
  match s with
  | String c s' => digitsValue (10 * acc + digitVal c) s'
  | EmptyString => acc
  end.

(** [s.replace(/,/g, "")] *)
Fixpoint removeCommas (s : string) : string :=
  match s with
  | String c s' => if Ascii.eqb c "," then removeCommas s' else String c (removeCommas s')
  | EmptyString => EmptyString
  end.

(** [s.replace(/<[^>]*>?/gm, '')]: a match starts at ["<"], takes every
    following character other than [">"] and then one [">"] if there is one;
    [inTag] records that the scan is inside a match. *)
Fixpoint stripTagsFrom (inTag : bool) (s : string) : string :=
  match s with
  | String c s' =>
    if inTag then stripTagsFrom (negb (Ascii.eqb c ">")) s'
    else if Ascii.eqb c "<" then stripTagsFrom true s'
    else String c (stripTagsFrom false s')
  | EmptyString => EmptyString
  end.

Definition stripTags (s : string) : string := stripTagsFrom false s.

(** [s.includes("+")] *)
Fixpoint includesPlus (s : string) : bool :=
  match s with
  | String c s' => Ascii.eqb c "+" || includesPlus s'
  | EmptyString => false
  end.

(** [s.replace("+", "")]: a string pattern replaces the first occurrence only. *)
Fixpoint removeFirstPlus (s : string) : string :=
  match s with
  | String c s' => if Ascii.eqb c "+" then s' else String c (removeFirstPlus s')
  | EmptyString => EmptyString
  end.

(** *** Numbers *)

Abbreviation number := float.

(** The Number value for the mathematical value [m * 10^e] with [0 <= m]:
    rounded to the nearest binary64, ties to even, overflowing to infinity. *)
Definition decimalToSF (m e : Z) : spec_float :=
  match m with
  | Zpos p =>
    if (0 <=? e)%Z then binary_normalize prec emax (m * 10 ^ e) 0 false
    else SFdiv prec emax (S754_finite false p 0)
                         (S754_finite false (Z.to_pos (10 ^ (- e))) 0)
  | _ => S754_zero false
  end.

Definition decimalToNumber (m e : Z) : number := SF2Prim (decimalToSF m e).

(** [ExponentPart_opt]: an exponent indicator counts only when a signed
    integer follows it. *)
Definition scanExponent (s : string) : Z * string :=
  match s with
  | String c s1 =>
    if Ascii.eqb c "e" || Ascii.eqb c "E" then
      let '(neg, s2) :=
        match s1 with
        | String "+" t => (false, t)
        | String "-" t => (true, t)
        | _ => (false, s1)
        end in
      let '(ds, s3) := spanDigits s2 in
      match ds with
      | EmptyString => (0%Z, s)
      | _ => ((if neg then - digitsValue 0 ds else digitsValue 0 ds)%Z, s3)
      end
    else (0%Z, s)
  | EmptyString => (0%Z, s)
  end.

(** The longest prefix that is a [StrUnsignedDecimalLiteral], as its Number
    value, with the rest of the string. *)
Definition scanUnsignedDecimal (s : string) : option (number * string) :=
  if String.prefix "Infinity" s then
    Some (infinity, substring 8 (String.length s - 8) s)
  else
    let '(ip, s1) := spanDigits s in
    let '(fp, s2) :=
      match s1 with
      | String "." t => spanDigits t
      | _ => (EmptyString, s1)
      end in
    match ip, fp with
    | EmptyString, EmptyString => None
    | _, _ =>
      let '(ex, s3) := scanExponent s2 in
      Some (decimalToNumber (digitsValue 0 (ip ++ fp)) (ex - Z.of_nat (String.length fp)), s3)
    end.

(** The longest prefix that is a [StrDecimalLiteral]. *)
Definition scanDecimal (s : string) : option (number * string) :=
  match s with
  | String "+" t => scanUnsignedDecimal t
  | String "-" t =>
    match scanUnsignedDecimal t with
    | Some (x, r) => Some ((- x)%float, r)
    | None => None
    end
  | _ => scanUnsignedDecimal s
  end.

(** [parseFloat(s)] for a string argument. *)
Definition parseFloat (s : string) : number :=
  match scanDecimal (trimStart s) with
  | Some (x, _) => x
  | None => nan
  end.

(** [isNaN(x)] for a number argument. *)
Definition isNaN (x : number) : bool := is_nan x.

(** [StringToNumber]: the whole trimmed string must be a numeric literal; the
    empty string is [+0]; binary, octal and hexadecimal integer literals are
    accepted here (and not by [parseFloat]). *)
Definition radixDigit (c : ascii) : option Z :=
  let n := Z.of_N (codeUnit c) in
  if isDigit c then Some (n - 48)%Z
  else if ((97 <=? n) && (n <=? 102))%Z then Some (n - 87)%Z
  else if ((65 <=? n) && (n <=? 70))%Z then Some (n - 55)%Z
  else None.

Fixpoint radixValue (radix acc : Z) (s : string) : option Z :=
  match s with
  | String c s' =>
    match radixDigit c with
    | Some d => if (d <? radix)%Z then radixValue radix (radix * acc + d)%Z s' else None
    | None => None
    end
  | EmptyString => Some acc
  end.

Definition radixOf (c : ascii) : option Z :=
  if Ascii.eqb c "x" || Ascii.eqb c "X" then Some 16%Z
  else if Ascii.eqb c "o" || Ascii.eqb c "O" then Some 8%Z
  else if Ascii.eqb c "b" || Ascii.eqb c "B" then Some 2%Z
  else None.

Definition scanNonDecimal (s : string) : option number :=
  match s with
  | String "0" (String c (String d t)) =>
    match radixOf c with
    | Some radix =>
      match radixValue radix 0 (String d t) with
      | Some v => Some (decimalToNumber v 0)
      | None => None
      end
    | None => None
    end
  | _ => None
  end.

Definition stringToNumber (s : string) : number :=
  let t := trim s in
  match t with
  | EmptyString => zero
  | _ =>
    match scanNonDecimal t with
    | Some x => x
    | None =>
      match scanDecimal t with
      | Some (x, EmptyString) => x
      | _ => nan
      end
    end
  end.

(** *** Number to string *)

(** The decimal digits of a non-negative integer. *)
Definition digitsOf (n : Z) : string := NilZero.string_of_uint (N.to_uint (Z.to_N n)).

Fixpoint zeros (n : nat) : string :=
  match n with
  | O => EmptyString
  | S n' => String "0" (zeros n')
  end.

(** The exact value [m * 2^e] of a finite number as a fraction. *)
Definition exactFraction (m : positive) (e : Z) : Z * Z :=
  if (0 <=? e)%Z then (Zpos m * 2 ^ e, 1)%Z else (Zpos m, 2 ^ (- e))%Z.

(** [(p/q) * 10^n] as a fraction. *)
Definition scale10 (p q n : Z) : Z * Z :=
  if (0 <=? n)%Z then (p * 10 ^ n, q)%Z else (p, q * 10 ^ (- n))%Z.

(** The least [n] from [n0] upwards with [p/q < 10^n]. *)
Fixpoint decimalExponentFrom (fuel : nat) (n p q : Z) : Z :=
  match fuel with
  | O => n
  | S fuel' =>
    let '(a, b) := scale10 p q (- n) in
    if (a <? b)%Z then n else decimalExponentFrom fuel' (n + 1)%Z p q
  end.

(** Every positive binary64 value lies between [10^-324] and [10^309]. *)
Definition decimalExponent (p q : Z) : Z := decimalExponentFrom 700 (-330)%Z p q.

(** The [k]-digit decimals next to [p/q], which lies in [10^(n0-1), 10^n0):
    the one that reads back as [x] and, of two, the closer one (the even one
    on a tie), with its decimal exponent. *)
Definition candidate (x : number) (p q n0 k : Z) : option (Z * Z) :=
  let '(a, b) := scale10 p q (k - n0) in
  let lo := (a / b)%Z in
  let hi := (lo + 1)%Z in
  let okLo := (decimalToNumber lo (n0 - k) =? x)%float in
  let okHi := (decimalToNumber hi (n0 - k) =? x)%float in
  let norm (s : Z) := if (s =? 10 ^ k)%Z then (10 ^ (k - 1), n0 + 1)%Z else (s, n0) in
  if okLo && okHi then
    match (2 * (a mod b) ?= b)%Z with
    | Lt => Some (norm lo)
    | Gt => Some (norm hi)
    | Eq => Some (norm (if Z.even lo then lo else hi))
    end
  else if okLo then Some (norm lo)
  else if okHi then Some (norm hi)
  else None.

(** The shortest decimal that reads back as [x], trying 1, 2, ... digits:
    seventeen digits always do. *)
Fixpoint shortestFrom (fuel : nat) (x : number) (p q n0 k : Z) : Z * Z :=
  match fuel with
  | O => (fst (scale10 p q (k - n0)) / snd (scale10 p q (k - n0)), n0)%Z
  | S fuel' =>
    match candidate x p q n0 k with
    | Some r => r
    | None => shortestFrom fuel' x p q n0 (k + 1)%Z
    end
  end.

(** [Number::toString] for the positive finite number [x = m * 2^e]. *)
Definition positiveToString (x : number) (m : positive) (e : Z) : string :=
  let '(p, q) := exactFraction m e in
  let '(s, n) := shortestFrom 17 x p q (decimalExponent p q) 1 in
  let ds := digitsOf s in
  let k := Z.of_nat (String.length ds) in
  if ((k <=? n) && (n <=? 21))%Z then ds ++ zeros (Z.to_nat (n - k))
  else if ((0 <? n) && (n <=? 21))%Z then
    substring 0 (Z.to_nat n) ds ++ "." ++ substring (Z.to_nat n) (Z.to_nat (k - n)) ds
  else if ((-6 <? n) && (n <=? 0))%Z then "0." ++ zeros (Z.to_nat (- n)) ++ ds
  else
    let ex := (if (n - 1 <? 0)%Z then "-" else "+") ++ digitsOf (Z.abs (n - 1)) in
    if (k =? 1)%Z then ds ++ "e" ++ ex
    else substring 0 1 ds ++ "." ++ substring 1 (Z.to_nat (k - 1)) ds ++ "e" ++ ex.

(** [Number::toString(x)] in radix 10. *)
Definition numberToString (x : number) : string :=
  match Prim2SF x with
  | S754_nan => "NaN"
  | S754_zero _ => "0"
  | S754_infinity sg => if sg then "-Infinity" else "Infinity"
  | S754_finite sg m e => (if sg then "-" else "") ++ positiveToString (abs x) m e
  end.

(** The decimal digits of [n] with a point before the last [f] of them,
    padded on the left with zeros to [f + 1] digits. *)
Definition fixedDigits (f : nat) (n : Z) : string :=
  let m := digitsOf n in
  let m := if (String.length m <=? f)%nat then zeros (f + 1 - String.length m) ++ m else m in
  let k := String.length m in
  match f with
  | O => m
  | _ => substring 0 (k - f) m ++ "." ++ substring (k - f) f m
  end.

(** [x.toFixed(f)] for [0 <= f <= 100] (the program calls it with [f = 2]):
    a value that is not finite, or at least [10^21], prints as
    [Number::toString]; otherwise the integer [n] with [n / 10^f] nearest to
    the exact value of [|x|] (the larger [n] on a tie) is printed with [f]
    decimals.  [-0] prints without sign. *)
Definition toFixed (f : nat) (x : number) : string :=
  match Prim2SF x with
  | S754_nan | S754_infinity _ => numberToString x
  | S754_zero _ => fixedDigits f 0
  | S754_finite sg m e =>
    let '(p, q) := exactFraction m e in
    (if sg then "-" else "") ++
    (if (10 ^ 21 * q <=? p)%Z then numberToString (abs x)
     else fixedDigits f ((2 * p * 10 ^ Z.of_nat f + q) / (2 * q))%Z)
  end.

(** *** Values

    What [JSON.parse] can return, and [undefined], which property reads
    produce.  The fields of an object are in the order of the text; a parsed
    object has each key once. *)

#[warnings="-register-all"]
Inductive value : Type :=
| Undefined
| Null
| Bool (b : bool)
| Num (x : number)
| Str (s : string)
| Arr (elems : list value)
| Obj (fields : list (string * value)).

Definition typeError (what : string) : string := "TypeError: " ++ what.

Fixpoint lookupField (name : string) (fields : list (string * value)) : option value :=
  match fields with
  | (k, v) :: fields' => if String.eqb k name then Some v else lookupField name fields'
  | [] => None
  end.

Definition numberOfNat (n : nat) : number := decimalToNumber (Z.of_nat n) 0.

(** [!!v] *)
Definition truthy (v : value) : bool :=
  match v with
  | Undefined | Null => false
  | Bool b => b
  | Num x => negb (x =? 0)%float && negb (is_nan x)
  | Str s => negb (String.eqb s "")
  | Arr _ | Obj _ => true
  end.

(** [a || b] *)
Definition or (a b : value) : value := if truthy a then a else b.

(** [v.name] for a [name] that no prototype defines ([data], [tables],
    [aaData]): the own property of an object, [undefined] on any other value
    that can be read from, a [TypeError] on [undefined] and [null]. *)
Definition getField (v : value) (name : string) : completion value :=
  match v with
  | Undefined => Throw (typeError ("Cannot read properties of undefined (reading '" ++ name ++ "')"))
  | Null => Throw (typeError ("Cannot read properties of null (reading '" ++ name ++ "')"))
  | Obj fields => Normal (default Undefined (lookupField name fields))
  | _ => Normal Undefined
  end.

(** [v[i]] for an index literal [i]. *)
Definition getIndex (v : value) (i : nat) : completion value :=
  match v with
  | Arr elems => Normal (nth i elems Undefined)
  | Str s =>
    Normal match String.get i s with
           | Some c => Str (String c EmptyString)
           | None => Undefined
           end
  | _ => getField v (digitsOf (Z.of_nat i))
  end.

(** [v.length] *)
Definition getLength (v : value) : completion value :=
  match v with
  | Arr elems => Normal (Num (numberOfNat (length elems)))
  | Str s => Normal (Num (numberOfNat (String.length s)))
  | _ => getField v "length"
  end.

(** [ToString(v)], which is also what [v.toString()] returns for a [v] that
    is neither [undefined] nor [null].  An array joins its elements with
    commas, [null] and [undefined] elements as empty strings.  A parsed object
    prints as [[object Object]]; when it has a [toString] property of its own,
    that property is not a function and the conversion (or the call) throws. *)
Fixpoint toString (v : value) : completion string :=
  match v with
  | Undefined => Normal "undefined"
  | Null => Normal "null"
  | Bool b => Normal (if b then "true" else "false")
  | Num x => Normal (numberToString x)
  | Str s => Normal s
  | Arr elems =>
    (fix join (l : list value) : completion string :=
       let element (x : value) :=
         match x with
         | Undefined | Null => Normal EmptyString
         | _ => toString x
         end in
       match l with
       | [] => Normal EmptyString
       | [x] => element x
       | x :: l' => do a <- element x; do b <- join l'; Normal (a ++ "," ++ b)
       end) elems
  | Obj fields =>
    match lookupField "toString" fields with
    | Some _ => Throw (typeError "toString is not a function")
    | None => Normal "[object Object]"
    end
  end.

(** [ToNumber(v)] *)
Definition toNumber (v : value) : completion number :=
  match v with
  | Undefined => Normal nan
  | Null => Normal zero
  | Bool b => Normal (if b then one else zero)
  | Num x => Normal x
  | Str s => Normal (stringToNumber s)
  | Arr _ | Obj _ => do s <- toString v; Normal (stringToNumber s)
  end.

(** [v > c] and [v >= c] for a number literal [c]. *)
Definition greaterThan (v : value) (c : number) : completion bool :=
  do x <- toNumber v; Normal (c <? x)%float.

Definition greaterEqual (v : value) (c : number) : completion bool :=
  do x <- toNumber v; Normal (c <=? x)%float.

(** [v === c] for a number literal [c]: no conversion. *)
Definition strictEqualsNumber (v : value) (c : number) : bool :=
  match v with
  | Num x => (x =? c)%float
  | _ => false
  end.

(** [v.replace(...)]: only a string has the method; it is [undefined] on
    another primitive or an array, and not a function on a parsed object. *)
Definition asReplaceable (v : value) : completion string :=
  match v with
  | Str s => Normal s
  | Undefined => Throw (typeError "Cannot read properties of undefined (reading 'replace')")
  | Null => Throw (typeError "Cannot read properties of null (reading 'replace')")
  | _ => Throw (typeError "replace is not a function")
  end.

(** [v.map(...)]: only an array has the method. *)
Definition asMappable (v : value) : completion (list value) :=
  match v with
  | Arr elems => Normal elems
  | Undefined => Throw (typeError "Cannot read properties of undefined (reading 'map')")
  | Null => Throw (typeError "Cannot read properties of null (reading 'map')")
  | _ => Throw (typeError "map is not a function")
  end.

(** *** The order of numbers

    An integer that orders the numbers other than NaN as [<] does: the value
    scaled by [2^1074], with the infinities beyond every finite one.  Both
    zeros have rank 0. *)

Definition SFrank (x : spec_float) : Z :=
  match x with
  | S754_zero _ => 0
  | S754_infinity s => if s then - 2 ^ 2200 else 2 ^ 2200
  | S754_nan => 0
  | S754_finite s m e => if s then - (Zpos m * 2 ^ (e + 1074)) else Zpos m * 2 ^ (e + 1074)
  end%Z.

Definition rank (x : number) : Z := SFrank (Prim2SF x).

(** The canonical exponent of binary64 for a number of magnitude [k]. *)
Definition fexp64 (k : Z) : Z := Z.max (k - 53) (-1074).

(** A number that rounding produces: finite or infinite, with sign [s]. *)
Definition signed (s : bool) (x : spec_float) : Prop :=
  (exists m e, x = S754_finite s m e) \/ x = S754_infinity s.

Fixpoint allDigits (s : string) : bool :=
  match s with
  | String c s' => isDigit c && allDigits s'
  | EmptyString => true
  end.

(** *** Sorting

    [Array.prototype.sort] with a comparison function.  ECMAScript fixes the
    result when the function is a consistent comparator: the sorted
    permutation in which elements that compare equal keep their order.  The
    model is the insertion sort that yields it; a comparator result of NaN
    counts as [+0].  With an inconsistent comparator the order is
    implementation-defined, and the model is one such implementation. *)

Section Sort.
Context {A : Type} (comparefn : A -> A -> number).

(** [SortCompare(x, y) < 0]: [x] has to come before [y]. *)
Definition before (x y : A) : bool := (comparefn x y <? 0)%float.

Fixpoint insert (x : A) (l : list A) : list A :=
  match l with
  | y :: l' => if before y x then y :: insert x l' else x :: l
  | [] => [x]
  end.

Fixpoint sort (l : list A) : list A :=
  match l with
  | x :: l' => insert x (sort l')
  | [] => []
  end.

End Sort.

(** [xs.slice(0, n)] *)
Definition slice0 {A : Type} (n : nat) (l : list A) : list A := firstn n l.

End JS.

(** ** [server.ts] *)

Module Server.
Import JS.

(** The object literal [{ code, name, pct, close, amount }] the normalizers
    return.  [code] and [name] are copied from the row unchecked, so they are
    values; the interface [Stock] of the AI service declares them strings. *)
Record Stock : Type := {
  code : value;
  name : value;
  pct : number;
  close : number;
  amount : string
}.

(** *** [processTwseData] *)

(** The close and the change that the callback parses from [row[7]] and
    [row[8]]. *)
Definition twseClose (row : value) : completion number :=
  do r7 <- getIndex row 7;
  do s7 <- asReplaceable r7;
  Normal (parseFloat (removeCommas s7)).

Definition twseChange (row : value) : completion number :=
  do r8 <- getIndex row 8;
  do s8 <- asReplaceable r8;
  let changeStr := removeCommas (stripTags s8) in
  Normal (if includesPlus changeStr then parseFloat (removeFirstPlus changeStr)
          else parseFloat changeStr).

(** The callback of [json.data.map]: [None] is its [null]. *)
Definition twseRow (row : value) : completion (option Stock) :=
  do code <- getIndex row 0;
  do name <- getIndex row 1;
  do r3 <- getIndex row 3;
  do s3 <- asReplaceable r3;
  let amountRaw := removeCommas s3 in
  do close <- twseClose row;
  do change <- twseChange row;
  if isNaN close || isNaN change || (close =? 0)%float then Normal None
  else
    let prevClose := (close - change)%float in
    let pct := if negb (prevClose =? 0)%float then (change / prevClose * 100)%float else 0%float in
    Normal (Some {| code := code; name := name; pct := pct; close := close; amount := amountRaw |}).

(** [.filter(s => s !== null)] *)
Definition filterNotNull {A : Type} (l : list (option A)) : list A := omap id l.

Definition processTwseData (json : value) : completion (list Stock) :=
  do data <- getField json "data";
  if negb (truthy data) then Normal []
  else
    do rows <- asMappable data;
    do mapped <- mapM twseRow rows;
    Normal (filterNotNull mapped).

(** *** [processTpexData] *)

(** [(cell || "0").toString().replace(/,/g, "")] *)
Definition tpexCell (cell : value) : completion string :=
  do s <- toString (or cell (Str "0"));
  Normal (removeCommas s).

(** The close and the change that the callback parses from [row[2]] and
    [row[3]]. *)
Definition tpexClose (row : value) : completion number :=
  do r2 <- getIndex row 2;
  do closeStr <- tpexCell r2;
  Normal (parseFloat closeStr).

Definition tpexChange (row : value) : completion number :=
  do r3 <- getIndex row 3;
  do changeStr <- tpexCell r3;
  Normal (parseFloat changeStr).

Definition tpexRow (row : value) : completion (option Stock) :=
  do code <- getIndex row 0;
  do name <- getIndex row 1;
  do len <- getLength code;
  do long <- greaterEqual len 6;
  if long then Normal None
  else
    do close <- tpexClose row;
    do change <- tpexChange row;
    do r8 <- getIndex row 8;
    do amountStr <- tpexCell r8;
    if isNaN close || isNaN change || (close =? 0)%float then Normal None
    else
      let prevClose := (close - change)%float in
      let pct := if negb (prevClose =? 0)%float then (change / prevClose * 100)%float else 0%float in
      Normal (Some {| code := code; name := name; pct := pct; close := close; amount := amountStr |}).

(** The value of [data] after the three-way choice; it starts as [[]]. *)
Definition tpexData (json : value) : completion value :=
  do tables <- getField json "tables";
  do useTables <-
    (if truthy tables then do len <- getLength tables; greaterThan len 0
     else Normal false);
  if useTables then do first <- getIndex tables 0; getField first "data"
  else
    do data <- getField json "data";
    if truthy data then Normal data
    else
      do aaData <- getField json "aaData";
      if truthy aaData then Normal aaData else Normal (Arr []).

Definition processTpexData (json : value) : completion (list Stock) :=
  do data <- tpexData json;
  do empty <-
    (if negb (truthy data) then Normal true
     else do len <- getLength data; Normal (strictEqualsNumber len 0));
  if empty then Normal []
  else
    do rows <- asMappable data;
    do mapped <- mapM tpexRow rows;
    Normal (filterNotNull mapped).

(** *** [GET /api/market-data] *)

(** The template [`${sign}${s.pct.toFixed(2)}%`]. *)
Definition formatPct (pct : number) : string :=
  (if (0 <? pct)%float then "+" else "") ++ toFixed 2 pct ++ "%".

(** [stockMap[key] = text] on the object literal [{}]: the own properties
    form a finite map.  [__proto__] is not one of them: the assignment runs
    the setter inherited from [Object.prototype], which ignores a string. *)
Definition setProperty (stockMap : gmap string string) (key text : string) : gmap string string :=
  if String.eqb key "__proto__" then stockMap else <[key := text]> stockMap.

(** [allStocks.forEach(s => ...)]: the property key is [ToString(s.code)]. *)
Fixpoint buildStockMap (stockMap : gmap string string) (stocks : list Stock)
  : completion (gmap string string) :=
  match stocks with
  | s :: stocks' =>
    do key <- toString (code s);
    buildStockMap (setProperty stockMap key (formatPct (pct s))) stocks'
  | [] => Normal stockMap
  end.

Definition byPctDescending (a b : Stock) : number := (pct b - pct a)%float.
Definition byPctAscending (a b : Stock) : number := (pct a - pct b)%float.

Definition gainersOf (allStocks : list Stock) : list Stock :=
  slice0 100 (sort byPctDescending allStocks).

Definition losersOf (allStocks : list Stock) : list Stock :=
  slice0 100 (sort byPctAscending allStocks).

Inductive body : Type :=
| ErrorBody (error : string)
| Snapshot (gainers losers : list Stock) (stockMap : gmap string string) (timestamp : string).

Record response : Type := { status : nat; payload : body }.

(** One upstream request: the promise of [fetch] rejects, or it resolves to a
    response whose [json()] yields the parsed body or throws. *)
Inductive fetched : Type :=
| Rejected (reason : string)
| Resolved (json : completion value).

(** [await Promise.all([...])]: rejected as soon as one promise is, with that
    promise's reason; [twseFirst] says which one settles first. *)
Definition promiseAll (twse tpex : fetched) (twseFirst : bool)
  : completion (completion value * completion value) :=
  match twse, tpex with
  | Resolved a, Resolved b => Normal (a, b)
  | Rejected r, Resolved _ => Throw r
  | Resolved _, Rejected r => Throw r
  | Rejected r1, Rejected r2 => Throw (if twseFirst then r1 else r2)
  end.

(** The [try] block; [now] is the string [new Date().toLocaleString(...)]
    returns. *)
Definition marketData (twse tpex : fetched) (twseFirst : bool) (now : string)
  : completion response :=
  do responses <- promiseAll twse tpex twseFirst;
  do twseData <- fst responses;
  do tpexData <- snd responses;
  do twseStocks <- processTwseData twseData;
  do tpexStocks <- processTpexData tpexData;
  let allStocks := (twseStocks ++ tpexStocks)%list in
  if (length allStocks =? 0)%nat then
    Normal {| status := 404; payload := ErrorBody "No market data available today." |}
  else
    do stockMap <- buildStockMap ∅ allStocks;
    Normal {| status := 200;
              payload := Snapshot (gainersOf allStocks) (losersOf allStocks) stockMap now |}.

(** The handler with its [catch]: what [console.error] received, and the
    response sent. *)
Definition handler (twse tpex : fetched) (twseFirst : bool) (now : string)
  : list (string * string) * response :=
  match marketData twse tpex twseFirst now with
  | Normal r => ([], r)
  | Throw e =>
    ([("Error fetching market data:", e)],
     {| status := 500; payload := ErrorBody "Failed to fetch market data" |})
  end.

(** *** The two normalizers side by side *)

Inductive exchange : Type := TWSE | TPEX.

Definition normalize (x : exchange) : value -> completion (list Stock) :=
  match x with
  | TWSE => processTwseData
  | TPEX => processTpexData
  end.

(** The value whose elements the normalizer maps over. *)
Definition container (x : exchange) (json : value) : completion value :=
  match x with
  | TWSE => getField json "data"
  | TPEX => tpexData json
  end.

Definition normalizeRow (x : exchange) : value -> completion (option Stock) :=
  match x with
  | TWSE => twseRow
  | TPEX => tpexRow
  end.

Definition parsedClose (x : exchange) : value -> completion number :=
  match x with
  | TWSE => twseClose
  | TPEX => tpexClose
  end.

Definition parsedChange (x : exchange) : value -> completion number :=
  match x with
  | TWSE => twseChange
  | TPEX => tpexChange
  end.







(** *** What the specification says of the two rankings *)

Definition descending (l : list Stock) : Prop :=
  StronglySorted (fun a b => (pct b <=? pct a)%float = true) l.

Definition ascending (l : list Stock) : Prop :=
  StronglySorted (fun a b => (pct a <=? pct b)%float = true) l.

(** Ties keep the input order: the stocks with any one percentage come in
    the same order in both lists. *)
Definition tiesKeepOrder (sorted input : list Stock) : Prop :=
  forall p : number,
    List.filter (fun s => (pct s =? p)%float) sorted =
    List.filter (fun s => (pct s =? p)%float) input.

(** What can go wrong inside the [try] block. *)
Inductive failed (twse tpex : fetched) (twseFirst : bool) (now : string) : Prop :=
| TwseFetchRejected (reason : string) : twse = Rejected reason -> failed twse tpex twseFirst now
| TpexFetchRejected (reason : string) : tpex = Rejected reason -> failed twse tpex twseFirst now
| TwseBodyNotJson (e : string) : twse = Resolved (Throw e) -> failed twse tpex twseFirst now
| TpexBodyNotJson (e : string) : tpex = Resolved (Throw e) -> failed twse tpex twseFirst now
| TwseNormalizerThrew (json : value) (e : string) :
    twse = Resolved (Normal json) -> processTwseData json = Throw e ->
    failed twse tpex twseFirst now
| TpexNormalizerThrew (json : value) (e : string) :
    tpex = Resolved (Normal json) -> processTpexData json = Throw e ->
    failed twse tpex twseFirst now
| ThrownElsewhere (e : string) :
    marketData twse tpex twseFirst now = Throw e -> failed twse tpex twseFirst now.

(** The failure response of the [catch] block. *)
Definition failure : response :=
  {| status := 500; payload := ErrorBody "Failed to fetch market data" |}.

Definition noData : response :=
  {| status := 404; payload := ErrorBody "No market data available today." |}.

End Server.

(** ** [classifyStocks] of the AI service, after the model has answered *)

Module AiService.
Import JS.

Section Classify.

(** [JSON.parse]: the parsed value, or a [SyntaxError]. *)
Variable JSON_parse : string -> completion value.

(** From [if (response.text)] to the end of the function; [text] is
    [response.text], [None] when it is [undefined].  The result is what
    [console.error] received and the value returned. *)
Definition classifyStocks (text : option string) : list (string * string) * completion value :=
  match text with
  | Some t =>
    if truthy (Str t) then
      match JSON_parse t with
      | Normal v => ([], Normal v)
      | Throw e => ([("Failed to parse JSON", e)], Normal (Arr []))
      end
    else ([], Normal (Arr []))
  | None => ([], Normal (Arr []))
  end.

End Classify.

End AiService.

(** ** Sample payloads *)

Module Samples.
Import JS Server.

(** A row of the exchange-1 feed: code, name, volume, value, open, high, low,
    close, change, transactions. *)
Definition twseRecord (code name traded close change : string) : value :=
  Arr [Str code; Str name; Str "1,000"; Str traded; Str close; Str close; Str close;
       Str close; Str change; Str "10"].

(** A row of the exchange-2 feed: code, name, close, change, then five more
    columns, the traded value at position 8. *)
Definition tpexRecord (code name close change traded : string) : value :=
  Arr [Str code; Str name; Str close; Str change; Str ""; Str ""; Str ""; Str ""; Str traded].

(** The end-to-end scenario of the specification. *)
Definition twseSample : value :=
  Obj [("data", Arr [twseRecord "2330" "TSMC" "1,000" "600.00" "+10.00<b></b>"])].

Definition tpexSample : value :=
  Obj [("tables", Arr [Obj [("data", Arr [tpexRecord "5678" "SmallCo" "50" "-2" "1000"])]])].

Definition tsmc : Stock :=
  {| code := Str "2330"; name := Str "TSMC"; pct := 1.6949152542372881%float;
     close := 600%float; amount := "1000" |}.

Definition smallCo : Stock :=
  {| code := Str "5678"; name := Str "SmallCo"; pct := (-3.8461538461538463)%float;
     close := 50%float; amount := "1000" |}.

(** A close of 10.35 after a rise of 0.15. *)
Definition twseCents : value :=
  Obj [("data", Arr [twseRecord "1101" "Cement" "2,000" "10.35" "+0.15"])].




(** A change column that reads [Infinity], next to an ordinary row. *)
Definition twseInfinity : value :=
  Obj [("data", Arr [twseRecord "1101" "Cement" "2,000" "10.00" "Infinity";
                     twseRecord "2330" "TSMC" "1,000" "600.00" "+10.00"])].

(** The code 2330 on the second exchange as well. *)
Definition tpexSameCode : value :=
  Obj [("tables", Arr [Obj [("data", Arr [tpexRecord "2330" "Other" "50" "-2" "1000"])]])].

Definition other2330 : Stock :=
  {| code := Str "2330"; name := Str "Other"; pct := (-3.8461538461538463)%float;
     close := 50%float; amount := "1000" |}.

(** No [tables]; the rows are under [data]. *)
Definition tpexDataOnly : value :=
  Obj [("data", Arr [tpexRecord "5678" "SmallCo" "50" "-2" "1000"])].

(** Neither [tables] nor [data] nor [aaData]. *)
Definition emptyPayload : value := Obj [("stat", Str "OK")].

End Samples.

(** ** Predicates the properties are stated with *)

Module Facts.
Import JS.

(** The character [c] occurs in [s]; [s.includes(c)] for a one-character
    [c]. *)
Fixpoint occurs (c : ascii) (s : string) : bool :=
  match s with
  | String d s' => Ascii.eqb d c || occurs c s'
  | EmptyString => false
  end.

(** [x] is a zero, a finite number or an infinity of sign [s]. *)
Definition hasSign (s : bool) (x : spec_float) : Prop :=
  match x with
  | S754_zero s' | S754_infinity s' | S754_finite s' _ _ => s' = s
  | S754_nan => False
  end.

Definition finiteSF (x : spec_float) : bool :=
  match x with
  | S754_zero _ | S754_finite _ _ _ => true
  | _ => false
  end.

(** [n / 10] is the decimal with one place nearest to the size of the finite
    number [x], the larger one when two are as near. *)
Definition nearestTenths (x : spec_float) (n : Z) : Prop :=
  match x with
  | S754_zero _ => n = 0%Z
  | S754_finite _ m e =>
    if (0 <=? e)%Z then n = (10 * Zpos m * 2 ^ e)%Z
    else (- 2 ^ (- e) <= 2 * (10 * Zpos m - n * 2 ^ (- e)) < 2 ^ (- e))%Z
  | _ => False
  end.

End Facts.

(** ** [aiService.ts]: the texts sent to the model, and the summary

    The records arrive as parsed JSON, so the functions are modelled on
    [JS.value]s, with the conversions a template literal applies.  Text that
    the program only copies (the unit and the labels of the prompt) is held
    as its UTF-8 bytes. *)

Module AiPrompt.
Import JS.

(** [xs.join(sep)] for an array of strings. *)
Fixpoint join (sep : string) (xs : list string) : string :=
  match xs with
  | [] => ""
  | x :: xs' =>
    match xs' with
    | [] => x
    | _ => x ++ sep ++ join sep xs'
    end
  end.

Definition formatBillions (rawAmount : value) : completion string :=
  if negb (truthy rawAmount) then Normal "0"
  else
    do text <- toString rawAmount;
    let num := parseFloat text in
    if isNaN num then Normal "0"
    else Normal (toFixed 1 (num / 100000000)%float ++ "億").

(** The template literal converts each substitution as soon as it is
    evaluated. *)
Definition buildStockString (s : value) : completion string :=
  do amount <- getField s "amount";
  do money <- formatBillions amount;
  do name <- getField s "name";
  do nameText <- toString name;
  do code <- getField s "code";
  do codeText <- toString code;
  Normal (nameText ++ "(" ++ codeText ++ ")[成交" ++ money ++ "]").

(** [stocks.map(buildStockString).join(", ")] *)
Definition stocksStr (stocks : value) : completion string :=
  do elems <- asMappable stocks;
  do parts <- mapM buildStockString elems;
  Normal (join ", " parts).

(** The [type] argument: ['強勢股'] or ['弱勢股']. *)
Inductive kind : Type := Strong | Weak.

(** [`[${g.category}]: ${g.stocks.length}檔`] *)
Definition summarizeGroup (g : value) : completion string :=
  do category <- getField g "category";
  do categoryText <- toString category;
  do stocks <- getField g "stocks";
  do len <- getLength stocks;
  do lenText <- toString len;
  Normal ("[" ++ categoryText ++ "]: " ++ lenText ++ "檔").

Definition summarizeGroups (groups : value) : completion string :=
  do elems <- asMappable groups;
  do parts <- mapM summarizeGroup elems;
  Normal (join ", " parts).

(** [text || fallback] for a [text] that is a string or [undefined]. *)
Definition textOr (text : option string) (fallback : string) : string :=
  match text with
  | Some t => if truthy (Str t) then t else fallback
  | None => fallback
  end.

Section Model.

(** [JSON.parse]: the parsed value, or a [SyntaxError]. *)
Variable JSON_parse : string -> completion value.

(** [ai.models.generateContent]: the promise is rejected, or fulfilled with
    a response whose [text] is a string or [undefined].  The prompt of a
    classification is fixed text around the type and the list of stocks, the
    prompt of the summary fixed text around the two summaries. *)
Variable classifyModel : kind -> string -> completion (option string).
Variable summaryModel : string -> string -> completion (option string).

(** What the promise of [classifyStocks(stocks, type)] settles to. *)
Definition classifyStocksAsync (stocks : value) (type : kind) : completion value :=
  do list <- stocksStr stocks;
  do text <- classifyModel type list;
  snd (AiService.classifyStocks JSON_parse text).

(** What the promise of [generateSummary(gainers, losers)] settles to. *)
Definition generateSummary (gainers losers : value) : completion string :=
  do gainerSummary <- summarizeGroups gainers;
  do loserSummary <- summarizeGroups losers;
  do text <- summaryModel gainerSummary loserSummary;
  Normal (textOr text "無法生成總結。").

End Model.

End AiPrompt.

(** ** [App.tsx]: the analysis run and the category lists *)

Module App.
Import JS AiPrompt Facts.

(** *** The component state and its setters *)

Record State : Type := {
  loading : bool;
  phase : string;
  error : value;
  marketData : value;
  gainersStructure : value;
  losersStructure : value;
  summary : value
}.

Definition initial : State :=
  {| loading := false; phase := ""; error := Null; marketData := Null;
     gainersStructure := Null; losersStructure := Null; summary := Null |}.

Inductive update : Type :=
| SetLoading (b : bool)
| SetPhase (p : string)
| SetError (e : value)
| SetMarketData (d : value)
| SetGainersStructure (g : value)
| SetLosersStructure (l : value)
| SetSummary (s : value).

Definition set (st : State) (u : update) : State :=
  match u with
  | SetLoading b =>
    {| loading := b; phase := phase st; error := error st; marketData := marketData st;
       gainersStructure := gainersStructure st; losersStructure := losersStructure st;
       summary := summary st |}
  | SetPhase p =>
    {| loading := loading st; phase := p; error := error st; marketData := marketData st;
       gainersStructure := gainersStructure st; losersStructure := losersStructure st;
       summary := summary st |}
  | SetError e =>
    {| loading := loading st; phase := phase st; error := e; marketData := marketData st;
       gainersStructure := gainersStructure st; losersStructure := losersStructure st;
       summary := summary st |}
  | SetMarketData d =>
    {| loading := loading st; phase := phase st; error := error st; marketData := d;
       gainersStructure := gainersStructure st; losersStructure := losersStructure st;
       summary := summary st |}
  | SetGainersStructure g =>
    {| loading := loading st; phase := phase st; error := error st; marketData := marketData st;
       gainersStructure := g; losersStructure := losersStructure st; summary := summary st |}
  | SetLosersStructure l =>
    {| loading := loading st; phase := phase st; error := error st; marketData := marketData st;
       gainersStructure := gainersStructure st; losersStructure := l; summary := summary st |}
  | SetSummary s =>
    {| loading := loading st; phase := phase st; error := error st; marketData := marketData st;
       gainersStructure := gainersStructure st; losersStructure := losersStructure st;
       summary := s |}
  end.

Definition setAll (st : State) (us : list update) : State := fold_left set us st.

Definition isSetLoading (u : update) : bool :=
  match u with
  | SetLoading _ => true
  | _ => false
  end.

(** *** An action: the setter calls made, and a result or an exception *)

Definition action (A : Type) : Type := list update * completion A.

Definition call {A : Type} (c : completion A) : action A := ([], c).

Definition put (u : update) : action unit := ([u], Normal tt).

Definition andThen {A B : Type} (m : action A) (k : A -> action B) : action B :=
  match m with
  | (us, Normal a) => let (us', r) := k a in ((us ++ us')%list, r)
  | (us, Throw e) => (us, Throw e)
  end.

Notation "'run' x <- m ; k" := (andThen m (fun x => k))
  (at level 10, x name, m at level 100, k at level 200).
Notation "m ;; k" := (andThen m (fun _ => k)) (at level 100, right associativity).

(** A thrown value is held as the text that prints it: [Name: message] for
    an [Error] object ([Name] alone when the message is empty), [null] and
    [undefined] for these two values.  [err.message] is what follows the
    name of an error, [undefined] on a value that prints with no name, and a
    [TypeError] on [null] and [undefined].  A thrown string that reads like
    an error, or like [null] or [undefined], is not told apart from it. *)
Fixpoint afterColon (s : string) : option string :=
  match s with
  | String c s' =>
    match s' with
    | String d rest => if Ascii.eqb c ":" && Ascii.eqb d " " then Some rest else afterColon s'
    | EmptyString => None
    end
  | EmptyString => None
  end.

Definition message (err : string) : completion value :=
  if String.eqb err "null" then
    Throw (typeError "Cannot read properties of null (reading 'message')")
  else if String.eqb err "undefined" then
    Throw (typeError "Cannot read properties of undefined (reading 'message')")
  else
    Normal match afterColon err with
           | Some m => Str m
           | None => Undefined
           end.

(** [try { body } catch (err) { handler } finally { finalizer }]: the
    finalizer runs in every case, and its exception replaces any other. *)
Definition tryCatchFinally (body : action unit) (handler : string -> action unit)
    (finalizer : action unit) : action unit :=
  let (us, caught) :=
    match body with
    | (us, Normal _) => (us, Normal tt)
    | (us, Throw err) => let (hs, r) := handler err in ((us ++ hs)%list, r)
    end in
  let (fs, r) := finalizer in
  ((us ++ fs)%list,
   match r with
   | Normal _ => caught
   | Throw e => Throw e
   end).

(** The [catch] block: [setError(err.message || '...')]. *)
Definition reportError (err : string) : action unit :=
  run text <- call (message err);
  put (SetError (or text (Str "An error occurred during analysis."))).

(** [await fetch(...)]: rejected, or a response with its [ok] flag and what
    [json()] yields. *)
Inductive fetched : Type :=
| Rejected (reason : string)
| Resolved (ok : bool) (json : completion value).

(** [res.ok] of a response with the given status. *)
Definition okOf (status : nat) : bool := ((200 <=? status) && (status <=? 299))%nat.

(** [await Promise.all([a, b])]: rejected as soon as one promise is;
    [aFirst] says which one settles first. *)
Definition promiseAll {A B : Type} (a : completion A) (b : completion B) (aFirst : bool)
  : completion (A * B) :=
  match a, b with
  | Normal x, Normal y => Normal (x, y)
  | Throw e, Normal _ => Throw e
  | Normal _, Throw e => Throw e
  | Throw e1, Throw e2 => Throw (if aFirst then e1 else e2)
  end.

Section Run.

Variable JSON_parse : string -> completion value.
Variable classifyModel : kind -> string -> completion (option string).
Variable summaryModel : string -> string -> completion (option string).

(** What [fetch('/api/market-data')] settles to, and which classification
    settles first. *)
Variable response : fetched.
Variable gainersFirst : bool.

Definition analysis : action unit :=
  put (SetPhase "Fetching Market Data...") ;;
  run data <-
    call match response with
         | Rejected reason => Throw reason
         | Resolved ok json =>
           if negb ok then Throw "Error: Failed to fetch market data" else json
         end;
  put (SetMarketData data) ;;
  put (SetPhase "AI Classifying Gainers & Losers...") ;;
  run classified <-
    call (do gainers <- getField data "gainers";
          do losers <- getField data "losers";
          promiseAll (classifyStocksAsync JSON_parse classifyModel gainers Strong)
                     (classifyStocksAsync JSON_parse classifyModel losers Weak)
                     gainersFirst);
  put (SetGainersStructure (fst classified)) ;;
  put (SetLosersStructure (snd classified)) ;;
  put (SetPhase "AI Generating Market Summary...") ;;
  run marketSummary <- call (generateSummary summaryModel (fst classified) (snd classified));
  put (SetSummary (Str marketSummary)) ;;
  put (SetPhase "").

(** The setter calls of one run, in order. *)
Definition runAnalysis : list update :=
  fst (put (SetLoading true) ;;
       put (SetError Null) ;;
       put (SetMarketData Null) ;;
       put (SetGainersStructure Null) ;;
       put (SetLosersStructure Null) ;;
       put (SetSummary Null) ;;
       tryCatchFinally analysis reportError (put (SetLoading false))).

End Run.

(** *** The conditions under which the component shows its panels *)

(** Each is the condition of the JSX for its panel; what the results panel
    renders when its condition holds is [render], further down. *)
Definition showsProgress (st : State) : bool := loading st.
Definition showsError (st : State) : bool := truthy (error st).
Definition showsResults (st : State) : bool :=
  negb (loading st) && truthy (summary st) && truthy (marketData st).
Definition showsReady (st : State) : bool :=
  negb (loading st) && negb (truthy (summary st)) && negb (truthy (error st)).
Definition offersDownload (st : State) : bool := truthy (marketData st).

(** *** The category lists *)

Record CategoryGroup : Type := { category : string; stocks : list string }.

(** The characters [.] does not match; of the four line terminators, line
    feed and carriage return are code units of the model. *)
Definition isLineTerminator (c : ascii) : bool :=
  (N_of_ascii c =? 10)%N || (N_of_ascii c =? 13)%N.

(** The rest of [/\((.*?)\)/] after the opening parenthesis: the shortest
    run of characters other than line terminators that a [")"] follows; the
    run, and the text after the [")"]. *)
Fixpoint lazyGroup (s : string) : option (string * string) :=
  match s with
  | String c s' =>
    if Ascii.eqb c ")" then Some ("", s')
    else if isLineTerminator c then None
    else
      match lazyGroup s' with
      | Some (g, rest) => Some (String c g, rest)
      | None => None
      end
  | EmptyString => None
  end.

(** [s.match(/\((.*?)\)/)]: the leftmost match; the text before it, the
    group, and the text after it. *)
Fixpoint matchParen (s : string) : option (string * string * string) :=
  match s with
  | String c s' =>
    match (if Ascii.eqb c "(" then lazyGroup s' else None) with
    | Some (g, rest) => Some ("", g, rest)
    | None =>
      match matchParen s' with
      | Some (before, g, rest) => Some (String c before, g, rest)
      | None => None
      end
    end
  | EmptyString => None
  end.

(** [s.replace(/\(.*?\)/, '')] *)
Definition withoutParen (s : string) : string :=
  match matchParen s with
  | Some (before, _, rest) => before ++ rest
  | None => s
  end.

(** The properties every object inherits from [Object.prototype]; their
    values are functions, or the prototype itself for [__proto__]. *)
Definition inherited (name : string) : bool :=
  existsb (String.eqb name)
    ["constructor"; "hasOwnProperty"; "isPrototypeOf"; "propertyIsEnumerable";
     "toLocaleString"; "toString"; "valueOf"; "__proto__";
     "__defineGetter__"; "__defineSetter__"; "__lookupGetter__"; "__lookupSetter__"].

Inductive colour : Type := Red | Green | Gray.

(** One stock of a group: the label, the code and the percentage shown (the
    last two only when not empty), and the colour of the percentage. *)
Record chip : Type := { label : string; code : string; pct : string; pctColor : colour }.

(** [stockMap[code] || ''] followed by [pct.includes('+')]: [stockMap] is
    an object whose own properties are strings; an inherited property is
    truthy and has no [includes]. *)
Definition pctOf (stockMap : gmap string string) (code : string) : completion string :=
  match stockMap !! code with
  | Some text => Normal text
  | None =>
    if inherited code then Throw (typeError "pct.includes is not a function")
    else Normal ""
  end.

Definition colourOf (pct : string) : colour :=
  if occurs "+" pct then Red else if occurs "-" pct then Green else Gray.

Definition renderStock (stockMap : gmap string string) (stockStr : string) : completion chip :=
  let found := matchParen stockStr in
  do shown <-
    match found with
    | Some (_, code, _) => do pct <- pctOf stockMap code; Normal (code, pct)
    | None => Normal ("", "")
    end;
  Normal {| label := withoutParen stockStr; code := fst shown; pct := snd shown;
            pctColor := colourOf (snd shown) |}.

(** A rendered group: the count in the badge, the category and the chips. *)
Record card : Type := { count : nat; title : string; chips : list chip }.

Inductive view : Type :=
| NoData
| Cards (cards : list card).

Definition renderGroup (stockMap : gmap string string) (group : CategoryGroup) : completion card :=
  do chips <- mapM (renderStock stockMap) (stocks group);
  Normal {| count := length (stocks group); title := category group; chips := chips |}.

Definition renderCategoryList (categories : option (list CategoryGroup))
    (stockMap : gmap string string) : completion view :=
  match categories with
  | None | Some [] => Normal NoData
  | Some groups => do cards <- mapM (renderGroup stockMap) groups; Normal (Cards cards)
  end.

(** *** What is rendered

    The state holds parsed JSON; the lists are rendered from it as the
    declared types [CategoryGroup[] | null] and [Record<string, string>]
    read it. *)

Fixpoint each {A B : Type} (f : A -> option B) (l : list A) : option (list B) :=
  match l with
  | [] => Some []
  | x :: l' =>
    match f x, each f l' with
    | Some y, Some ys => Some (y :: ys)
    | _, _ => None
    end
  end.

Definition asString (v : value) : option string :=
  match v with
  | Str s => Some s
  | _ => None
  end.

Definition asGroup (v : value) : option CategoryGroup :=
  match v with
  | Obj fields =>
    match lookupField "category" fields, lookupField "stocks" fields with
    | Some (Str c), Some (Arr elems) =>
      option_map (fun names => {| category := c; stocks := names |}) (each asString elems)
    | _, _ => None
    end
  | _ => None
  end.

Definition asGroups (v : value) : option (option (list CategoryGroup)) :=
  match v with
  | Null => Some None
  | Arr elems => option_map Some (each asGroup elems)
  | _ => None
  end.

Definition asEntry (entry : string * value) : option (string * string) :=
  match entry with
  | (k, Str text) => Some (k, text)
  | _ => None
  end.

Definition asStockMap (v : value) : option (gmap string string) :=
  match v with
  | Obj fields =>
    option_map (fun entries => list_to_map entries : gmap string string) (each asEntry fields)
  | _ => None
  end.

(** The panels of the main area, in the order of the JSX. *)
Inductive panel : Type :=
| Progress (phase : string)
| ErrorBox (text : value)
| Results (summary : value) (gainers losers : view)
| Ready.

(** The main area in a state: the panels whose conditions hold.  The
    results panel renders the two category lists; an exception there is an
    exception of the whole rendering, after which nothing is shown.  [None]:
    the results panel is due and the state does not have the declared
    types. *)
Definition render (st : State) : option (completion (list panel)) :=
  let before :=
    ((if showsProgress st then [Progress (phase st)] else []) ++
     (if showsError st then [ErrorBox (error st)] else []))%list in
  let after := if showsReady st then [Ready] else [] in
  if showsResults st then
    match getField (marketData st) "stockMap" with
    | Normal stockMap =>
      match asGroups (gainersStructure st), asGroups (losersStructure st),
            asStockMap stockMap with
      | Some gainers, Some losers, Some entries =>
        Some (do gainerList <- renderCategoryList gainers entries;
              do loserList <- renderCategoryList losers entries;
              Normal (before ++ [Results (summary st) gainerList loserList] ++ after)%list)
      | _, _, _ => None
      end
    | Throw e => Some (Throw e)
    end
  else Some (Normal (before ++ after)%list).

End App.

(** * Properties *)

Import JS Server AiService Samples.

(** ** Worked examples *)

Section Examples.
Local Open Scope float_scope.

Example parseFloat_price : parseFloat "600.00" = 600.
Proof. vm_compute. reflexivity. Qed.

Example parseFloat_prefix : parseFloat " -1.5e2px" = -150.
Proof. vm_compute. reflexivity. Qed.

Example parseFloat_not_a_number : isNaN (parseFloat "--") = true.
Proof. vm_compute. reflexivity. Qed.

Example parseFloat_infinity : parseFloat "Infinity" = infinity.
Proof. vm_compute. reflexivity. Qed.

Example change_markup :
  twseChange (twseRecord "2330" "TSMC" "1,000" "600.00" "<p style='color:red'>+</p>10.00")
    = Normal 10.
Proof. vm_compute. reflexivity. Qed.

Example toFixed_rounds_the_exact_value :
  toFixed 2 1.005 = "1.00" /\ toFixed 2 8.345 = "8.35" /\ toFixed 2 (-0.001) = "-0.00".
Proof. repeat split; vm_compute; reflexivity. Qed.

Example numberToString_examples :
  numberToString 0.1 = "0.1" /\ numberToString 1e21 = "1e+21" /\
  numberToString 123456789012345680000 = "123456789012345680000" /\
  numberToString 1.5e-7 = "1.5e-7".
Proof. repeat split; vm_compute; reflexivity. Qed.

Example numeric_cells :
  normalize TPEX (Obj [("aaData", Arr [Arr [Num 5678; Str "SmallCo"; Num 50; Num (-2)]])])
    = Normal [ {| code := Num 5678; name := Str "SmallCo"; pct := -3.8461538461538463;
                  close := 50; amount := "0" |} ].
Proof. vm_compute. reflexivity. Qed.

Example long_code_excluded :
  normalize TPEX (Obj [("data", Arr [tpexRecord "123456" "Warrant" "50" "-2" "1000"])])
    = Normal [].
Proof. vm_compute. reflexivity. Qed.

(** The end-to-end scenario of the specification. *)
Example end_to_end_scenario :
  handler (Resolved (Normal twseSample)) (Resolved (Normal tpexSample)) true "2026/1/5 14:30:00"
    = ([], {| status := 200;
              payload := Snapshot [tsmc; smallCo] [smallCo; tsmc]
                           (<["5678" := "-3.85%"]> (<["2330" := "+1.69%"]> ∅))
                           "2026/1/5 14:30:00" |}).
Proof. vm_compute. reflexivity. Qed.

End Examples.

(** ** Numbers: comparison and rounding *)

Section NumberFacts.
Local Open Scope Z_scope.

Lemma digits2_size (m : positive) : digits2_pos m = Pos.size m.
Proof. induction m; simpl; congruence. Qed.

Lemma size_bounds (m : positive) :
  2 ^ (Zpos (Pos.size m) - 1) <= Zpos m < 2 ^ Zpos (Pos.size m).
Proof.
  pose proof (Pos.size_gt m) as Hgt. pose proof (Pos.size_le m) as Hle.
  apply Pos2Z.pos_lt_pos in Hgt. apply Pos2Z.pos_le_pos in Hle.
  rewrite Pos2Z.inj_pow in Hgt, Hle.
  split; [|exact Hgt].
  replace (Zpos (Pos.size m)) with (Z.succ (Zpos (Pos.size m) - 1)) in Hle by lia.
  rewrite Z.pow_succ_r in Hle by lia. lia.
Qed.

Lemma bounded_inv (m : positive) (e : Z) :
  bounded prec emax m e = true ->
  -1074 <= e <= 971 /\ Zpos m < 2 ^ 53 /\ (e = -1074 \/ 2 ^ 52 <= Zpos m).
Proof.
  unfold bounded, canonical_mantissa, fexp, SpecFloat.emin, prec, emax.
  rewrite digits2_size. intros H.
  apply andb_prop in H as [H1 H2].
  apply Z.eqb_eq in H1. apply Z.leb_le in H2.
  pose proof (size_bounds m) as [Hlo Hhi].
  destruct (Z.max_spec (Zpos (Pos.size m) + e - 53) (3 - 1024 - 53)) as [[Hlt Hmax]|[Hge Hmax]];
    rewrite Hmax in H1.
  - assert (Hd : Zpos (Pos.size m) <= 53) by lia.
    split; [lia|]. split; [|left; lia].
    eapply Z.lt_le_trans; [exact Hhi|]. apply Z.pow_le_mono_r; lia.
  - replace (Zpos (Pos.size m)) with 53 in * by lia. simpl in Hlo. lia.
Qed.

Lemma pow2_pos (n : Z) : 0 <= n -> 0 < 2 ^ n.
Proof. intros. apply Z.pow_pos_nonneg; lia. Qed.

(** A canonical mantissa with the smaller exponent is the smaller number. *)
Lemma bounded_exponent_lt (m1 m2 : positive) (e1 e2 : Z) :
  bounded prec emax m1 e1 = true -> bounded prec emax m2 e2 = true ->
  e1 < e2 -> Zpos m1 * 2 ^ (e1 + 1074) < Zpos m2 * 2 ^ (e2 + 1074).
Proof.
  intros B1 B2 Hlt.
  apply bounded_inv in B1 as (R1 & U1 & _). apply bounded_inv in B2 as (R2 & _ & [L2|L2]); [lia|].
  pose proof (pow2_pos (e1 + 1074) ltac:(lia)) as P1.
  apply Z.lt_le_trans with (2 ^ 53 * 2 ^ (e1 + 1074)).
  - apply Z.mul_lt_mono_pos_r; assumption.
  - apply Z.le_trans with (2 ^ 52 * 2 ^ (e2 + 1074)).
    + rewrite <- !Z.pow_add_r by lia. apply Z.pow_le_mono_r; lia.
    + apply Z.mul_le_mono_nonneg_r; [|assumption]. apply Z.lt_le_incl, pow2_pos; lia.
Qed.

Lemma finite_rank_bounds (m : positive) (e : Z) :
  bounded prec emax m e = true -> 0 < Zpos m * 2 ^ (e + 1074) < 2 ^ 2200.
Proof.
  intros B. apply bounded_inv in B as (R & U & _).
  pose proof (pow2_pos (e + 1074) ltac:(lia)) as P.
  split; [lia|].
  apply Z.lt_le_trans with (2 ^ 53 * 2 ^ (e + 1074)).
  - apply Z.mul_lt_mono_pos_r; assumption.
  - rewrite <- Z.pow_add_r by lia. apply Z.pow_le_mono_r; lia.
Qed.

Lemma compare_opp (a b : Z) : (- a ?= - b) = CompOpp (a ?= b).
Proof. rewrite Z.compare_opp. apply Z.compare_antisym. Qed.

(** On valid numbers other than NaN, [SFcompare] is the order of the ranks. *)
Lemma SFcompare_rank (x y : spec_float) :
  valid_binary x = true -> valid_binary y = true ->
  x <> S754_nan -> y <> S754_nan ->
  SFcompare x y = Some (SFrank x ?= SFrank y).
Proof.
  intros Vx Vy Nx Ny.
  assert (H0 : 0 < 2 ^ 2200) by (apply pow2_pos; lia).
  destruct x as [sx|sx| |sx mx ex], y as [sy|sy| |sy my ey]; try congruence;
    cbn [SFcompare SFrank valid_binary] in *;
    try (pose proof (finite_rank_bounds _ _ Vx) as Bx);
    try (pose proof (finite_rank_bounds _ _ Vy) as By).
  all: try (destruct sx; try destruct sy; f_equal; symmetry;
            first [ reflexivity | apply Z.compare_lt_iff; lia | apply Z.compare_gt_iff; lia ]).
  f_equal. destruct sx, sy.
  - rewrite compare_opp.
    destruct (Z.compare_spec ex ey) as [E|L|G].
    + subst ey. rewrite <- Zmult_compare_compat_r by lia. reflexivity.
    + pose proof (bounded_exponent_lt _ _ _ _ Vx Vy L).
      symmetry. replace Gt with (CompOpp Lt) by reflexivity. f_equal. apply Z.compare_lt_iff; lia.
    + pose proof (bounded_exponent_lt _ _ _ _ Vy Vx G).
      symmetry. replace Lt with (CompOpp Gt) by reflexivity. f_equal. apply Z.compare_gt_iff; lia.
  - symmetry. apply Z.compare_lt_iff; lia.
  - symmetry. apply Z.compare_gt_iff; lia.
  - destruct (Z.compare_spec ex ey) as [E|L|G].
    + subst ey. rewrite <- Zmult_compare_compat_r by lia. reflexivity.
    + pose proof (bounded_exponent_lt _ _ _ _ Vx Vy L).
      symmetry. apply Z.compare_lt_iff; lia.
    + pose proof (bounded_exponent_lt _ _ _ _ Vy Vx G).
      symmetry. apply Z.compare_gt_iff; lia.
Qed.


(** *** Rounding keeps the sign *)

Lemma shr_1_m (mrs : shr_record) :
  0 <= shr_m mrs -> shr_m (shr_1 mrs) = shr_m mrs / 2.
Proof.
  destruct mrs as [m r s]. cbn [shr_m shr_1]. intros H.
  destruct m as [|[p|p|]|p]; cbn [shr_m]; try lia.
  - reflexivity.
  - apply Z.div_unique with 1; lia.
  - apply Z.div_unique with 0; lia.
  - reflexivity.
Qed.

Lemma iter_shr_1_m (p : positive) : forall mrs : shr_record,
  0 <= shr_m mrs -> shr_m (SpecFloat.iter_pos shr_1 p mrs) = shr_m mrs / 2 ^ Zpos p.
Proof.
  induction p as [p IH|p IH|]; intros mrs H; cbn [SpecFloat.iter_pos].
  - assert (H1 : 0 <= shr_m (shr_1 mrs)) by (rewrite shr_1_m by lia; apply Z.div_pos; lia).
    assert (H2 : 0 <= shr_m (SpecFloat.iter_pos shr_1 p (shr_1 mrs)))
      by (rewrite IH by lia; apply Z.div_pos; [lia|apply pow2_pos; lia]).
    rewrite IH, IH, shr_1_m by lia.
    rewrite !Z.div_div by (try apply pow2_pos; lia).
    f_equal. replace (Zpos p~1) with (Zpos p + Zpos p + 1) by lia.
    rewrite !Z.pow_add_r by lia. change (2 ^ 1) with 2. ring.
  - assert (H2 : 0 <= shr_m (SpecFloat.iter_pos shr_1 p mrs))
      by (rewrite IH by lia; apply Z.div_pos; [lia|apply pow2_pos; lia]).
    rewrite IH, IH by lia.
    rewrite !Z.div_div by (try apply pow2_pos; lia).
    f_equal. replace (Zpos p~0) with (Zpos p + Zpos p) by lia.
    rewrite !Z.pow_add_r by lia. ring.
  - rewrite shr_1_m by lia. reflexivity.
Qed.

Lemma shr_record_of_loc_m (m : Z) (l : location) : shr_m (shr_record_of_loc m l) = m.
Proof. destruct l as [|[]]; reflexivity. Qed.

(** Shifting a positive mantissa to its canonical exponent leaves it
    positive, when the exponent is not below the least one. *)
Lemma shr_fexp_pos (m : positive) (e : Z) (l : location) :
  -1074 <= e ->
  0 < shr_m (fst (shr_fexp prec emax (Zpos m) e l)) /\
  -1074 <= snd (shr_fexp prec emax (Zpos m) e l).
Proof.
  intros He. unfold shr_fexp, shr, fexp, SpecFloat.emin, prec, emax.
  cbn [Zdigits2]. rewrite digits2_size.
  pose proof (size_bounds m) as [Hlo Hhi].
  destruct (Z.max (Zpos (Pos.size m) + e - 53) (3 - 1024 - 53) - e) as [|n|n] eqn:En;
    cbn [fst snd]; rewrite ?shr_record_of_loc_m; try lia.
  rewrite iter_shr_1_m by (rewrite shr_record_of_loc_m; lia).
  rewrite shr_record_of_loc_m.
  assert (Hn : Zpos n = Zpos (Pos.size m) - 53) by lia.
  split; [|lia].
  apply Z.div_str_pos. split; [apply pow2_pos; lia|].
  apply Z.le_trans with (2 ^ (Zpos (Pos.size m) - 1)); [|assumption].
  apply Z.pow_le_mono_r; lia.
Qed.

Lemma round_nearest_even_pos (m : Z) (l : location) : 0 < m -> 0 < round_nearest_even m l.
Proof. intros H. destruct l as [|[]]; cbn [round_nearest_even]; try destruct (Z.even m); lia. Qed.

Lemma binary_round_aux_signed (s : bool) (m : positive) (e : Z) (l : location) :
  -1074 <= e -> signed s (binary_round_aux prec emax s (Zpos m) e l).
Proof.
  intros He. unfold binary_round_aux.
  pose proof (shr_fexp_pos m e l He) as [H1 H2].
  destruct (shr_fexp prec emax (Zpos m) e l) as [mrs' e']. cbn [fst snd] in H1, H2.
  pose proof (round_nearest_even_pos _ (loc_of_shr_record mrs') H1) as H3.
  destruct (round_nearest_even (shr_m mrs') (loc_of_shr_record mrs')) as [|m'|m'] eqn:Em; try lia.
  pose proof (shr_fexp_pos m' e' loc_Exact H2) as [H4 H5].
  destruct (shr_fexp prec emax (Zpos m') e' loc_Exact) as [mrs'' e'']. cbn [fst snd] in H4, H5.
  destruct (shr_m mrs'') as [|m''|m'']; try lia.
  destruct (Z.leb e'' (emax - prec)); [left; eauto|right; reflexivity].
Qed.

Lemma binary_round_signed (s : bool) (m : positive) (e : Z) :
  -1074 <= e -> signed s (binary_round prec emax s m e).
Proof.
  intros He. unfold binary_round, shl_align.
  destruct (fexp prec emax (Zpos (digits2_pos m) + e) - e) as [|d|d] eqn:Ed;
    try (apply binary_round_aux_signed; assumption).
  apply binary_round_aux_signed.
  unfold fexp, SpecFloat.emin, prec, emax. lia.
Qed.

Lemma signed_ltb_zero (s : bool) (x : spec_float) :
  signed s x -> SFltb x (S754_zero false) = s.
Proof. intros [(m & e & ->)| ->]; destruct s; reflexivity. Qed.

Lemma binary_normalize_ltb_zero (m e : Z) :
  -1074 <= e ->
  SFltb (binary_normalize prec emax m e false) (S754_zero false) = (m <? 0).
Proof.
  intros He. destruct m as [|p|p]; cbn [binary_normalize].
  - reflexivity.
  - rewrite (signed_ltb_zero false) by (apply binary_round_signed; assumption). reflexivity.
  - rewrite (signed_ltb_zero true) by (apply binary_round_signed; assumption). reflexivity.
Qed.

Lemma iter_xO (d m : positive) : Zpos (Pos.iter xO m d) = Zpos m * 2 ^ Zpos d.
Proof.
  revert m. induction d as [d IH|d IH|]; intros m; cbn [Pos.iter].
  - rewrite Pos2Z.inj_xO, IH, IH.
    replace (Zpos d~1) with (Zpos d + Zpos d + 1) by lia.
    rewrite !Z.pow_add_r by lia. change (2 ^ 1) with 2. ring.
  - rewrite IH, IH. replace (Zpos d~0) with (Zpos d + Zpos d) by lia.
    rewrite !Z.pow_add_r by lia. ring.
  - rewrite Pos2Z.inj_xO. change (2 ^ 1) with 2. lia.
Qed.

Lemma shl_align_fst (m : positive) (e e' : Z) :
  e' <= e -> Zpos (fst (shl_align m e e')) = Zpos m * 2 ^ (e - e').
Proof.
  intros H. unfold shl_align.
  destruct (e' - e) as [|d|d] eqn:Ed; cbn [fst].
  - replace (e - e') with 0 by lia. lia.
  - lia.
  - rewrite iter_xO. f_equal. f_equal. lia.
Qed.

Lemma SFltb_rank (x y : spec_float) :
  valid_binary x = true -> valid_binary y = true ->
  x <> S754_nan -> y <> S754_nan ->
  SFltb x y = (SFrank x <? SFrank y).
Proof.
  intros. unfold SFltb. rewrite SFcompare_rank by assumption.
  unfold Z.ltb. destruct (SFrank x ?= SFrank y); reflexivity.
Qed.

Lemma SFleb_rank (x y : spec_float) :
  valid_binary x = true -> valid_binary y = true ->
  x <> S754_nan -> y <> S754_nan ->
  SFleb x y = (SFrank x <=? SFrank y).
Proof.
  intros. unfold SFleb. rewrite SFcompare_rank by assumption.
  unfold Z.leb. destruct (SFrank x ?= SFrank y); reflexivity.
Qed.

Lemma SFeqb_rank (x y : spec_float) :
  valid_binary x = true -> valid_binary y = true ->
  x <> S754_nan -> y <> S754_nan ->
  SFeqb x y = (SFrank x =? SFrank y).
Proof.
  intros. unfold SFeqb. rewrite SFcompare_rank by assumption.
  rewrite Z.eqb_compare. destruct (SFrank x ?= SFrank y); reflexivity.
Qed.

Lemma aligned_rank (s : bool) (m : positive) (e ez : Z) :
  -1074 <= ez <= e ->
  cond_Zopp s (Zpos (fst (shl_align m e ez))) * 2 ^ (ez + 1074) = SFrank (S754_finite s m e).
Proof.
  intros H. rewrite shl_align_fst by lia. cbn [SFrank].
  replace (e + 1074) with ((e - ez) + (ez + 1074)) by lia.
  rewrite (Z.pow_add_r 2 (e - ez) (ez + 1074)) by lia. destruct s; cbn [cond_Zopp]; ring.
Qed.

(** The difference of two numbers is negative exactly when the first is the
    smaller: rounding never turns a non-zero difference into zero. *)
Lemma SFsub_ltb_zero (x y : spec_float) :
  valid_binary x = true -> valid_binary y = true ->
  SFltb (SFsub prec emax x y) (S754_zero false) = SFltb x y.
Proof.
  intros Vx Vy.
  destruct x as [sx|sx| |sx mx ex], y as [sy|sy| |sy my ey];
    try reflexivity;
    try (destruct sx; try destruct sy; reflexivity);
    try (destruct sy; reflexivity).
  rewrite (SFltb_rank _ _ Vx Vy) by discriminate.
  cbn [SFsub valid_binary] in *.
  pose proof (bounded_inv _ _ Vx) as (Rx & _). pose proof (bounded_inv _ _ Vy) as (Ry & _).
  rewrite binary_normalize_ltb_zero by lia.
  rewrite <- (aligned_rank sx mx ex (Z.min ex ey)), <- (aligned_rank sy my ey (Z.min ex ey)) by lia.
  pose proof (pow2_pos (Z.min ex ey + 1074) ltac:(lia)) as P.
  set (a := cond_Zopp sx _). set (b := cond_Zopp sy _).
  destruct (Z.ltb_spec (a - b) 0), (Z.ltb_spec (a * 2 ^ (Z.min ex ey + 1074)) (b * 2 ^ (Z.min ex ey + 1074)));
    try reflexivity; nia.
Qed.


(** *** The same on primitive numbers *)

Lemma Prim2SF_not_nan (x : number) : is_nan x = false -> Prim2SF x <> S754_nan.
Proof.
  intros H. unfold Prim2SF. rewrite H.
  destruct (is_zero x); [discriminate|].
  destruct (is_infinity x); [discriminate|].
  destruct (Z.frexp x) as [r ex].
  destruct (shr_fexp prec emax _ _ _) as [mrs e'].
  destruct (shr_m mrs); discriminate.
Qed.

Lemma Prim2SF_nan (x : number) : is_nan x = true -> Prim2SF x = S754_nan.
Proof. intros H. unfold Prim2SF. rewrite H. reflexivity. Qed.

Lemma sub_ltb_zero (a b : number) : ((a - b <? 0) = (a <? b))%float.
Proof.
  rewrite !FloatAxioms.ltb_spec, FloatAxioms.sub_spec.
  change (Prim2SF 0) with (S754_zero false).
  apply SFsub_ltb_zero; apply Prim2SF_valid.
Qed.

Lemma ltb_rank (a b : number) :
  is_nan a = false -> is_nan b = false -> (a <? b)%float = (rank a <? rank b).
Proof.
  intros Ha Hb. rewrite FloatAxioms.ltb_spec.
  apply SFltb_rank; auto using Prim2SF_valid, Prim2SF_not_nan.
Qed.

Lemma leb_rank (a b : number) :
  is_nan a = false -> is_nan b = false -> (a <=? b)%float = (rank a <=? rank b).
Proof.
  intros Ha Hb. rewrite FloatAxioms.leb_spec.
  apply SFleb_rank; auto using Prim2SF_valid, Prim2SF_not_nan.
Qed.

Lemma eqb_rank (a b : number) :
  is_nan a = false -> is_nan b = false -> (a =? b)%float = (rank a =? rank b).
Proof.
  intros Ha Hb. rewrite FloatAxioms.eqb_spec.
  apply SFeqb_rank; auto using Prim2SF_valid, Prim2SF_not_nan.
Qed.


(** *** Rounding yields a valid number *)

Lemma Zdigits2_log2 (m : Z) : 0 < m -> Zdigits2 m = Z.log2 m + 1.
Proof.
  destruct m as [|p|p]; try lia. intros _. cbn [Zdigits2]. rewrite digits2_size.
  destruct p; cbn [Z.log2 Pos.size]; lia.
Qed.

Lemma Zdigits2_nonneg (m : Z) : 0 <= Zdigits2 m.
Proof. destruct m; cbn [Zdigits2]; lia. Qed.

Lemma Zdigits2_mono (a b : Z) : 0 <= a <= b -> Zdigits2 a <= Zdigits2 b.
Proof.
  intros [Ha Hab]. destruct (Z.eq_dec a 0) as [->|Na]; [apply Zdigits2_nonneg|].
  rewrite !Zdigits2_log2 by lia. pose proof (Z.log2_le_mono a b Hab). lia.
Qed.

Lemma Zdigits2_shift (m n : Z) :
  0 < m -> 0 <= n -> Zdigits2 (m / 2 ^ n) = Z.max 0 (Zdigits2 m - n).
Proof.
  intros Hm Hn. rewrite <- Z.shiftr_div_pow2 by assumption.
  pose proof (Z.log2_shiftr m n Hm) as L.
  pose proof (Z.log2_nonneg m) as L0.
  rewrite (Zdigits2_log2 m Hm).
  destruct (Z.eq_dec (Z.shiftr m n) 0) as [E|E].
  - rewrite E. cbn [Zdigits2].
    apply Z.shiftr_eq_0_iff in E as [E|[_ E]]; lia.
  - assert (0 < Z.shiftr m n).
    { pose proof (Z.shiftr_nonneg m n). lia. }
    rewrite Zdigits2_log2 by assumption.
    assert (n <= Z.log2 m).
    { destruct (Z_le_gt_dec n (Z.log2 m)); [assumption|].
      exfalso. apply E. apply Z.shiftr_eq_0; lia. }
    lia.
Qed.

Lemma fexp_is_fexp64 (k : Z) : fexp prec emax k = fexp64 k.
Proof. reflexivity. Qed.

(** A mantissa at an exponent not above its canonical one is shifted to the
    canonical exponent. *)
Lemma shr_fexp_canonical (m e : Z) (l : location) :
  0 <= m -> e <= fexp64 (Zdigits2 m + e) ->
  0 <= shr_m (fst (shr_fexp prec emax m e l)) /\
  fexp64 (Zdigits2 (shr_m (fst (shr_fexp prec emax m e l))) + snd (shr_fexp prec emax m e l))
    = snd (shr_fexp prec emax m e l).
Proof.
  intros Hm He. unfold shr_fexp, shr. rewrite fexp_is_fexp64.
  destruct (fexp64 (Zdigits2 m + e) - e) as [|n|n] eqn:En; cbn [fst snd];
    rewrite ?shr_record_of_loc_m; try lia.
  rewrite iter_shr_1_m by (rewrite shr_record_of_loc_m; assumption).
  rewrite shr_record_of_loc_m.
  split; [apply Z.div_pos; [assumption|apply pow2_pos; lia]|].
  destruct (Z.eq_dec m 0) as [->|Nm].
  - rewrite Z.div_0_l by (pose proof (pow2_pos (Zpos n)); lia).
    cbn [Zdigits2] in *. unfold fexp64 in *. lia.
  - rewrite Zdigits2_shift by lia.
    pose proof (Zdigits2_log2 m ltac:(lia)). pose proof (Z.log2_nonneg m).
    unfold fexp64 in *. lia.
Qed.

Lemma round_nearest_even_bounds (m : Z) (l : location) :
  m <= round_nearest_even m l <= m + 1.
Proof. destruct l as [|[]]; cbn [round_nearest_even]; try destruct (Z.even m); lia. Qed.

Lemma binary_round_aux_valid (s : bool) (m e : Z) (l : location) :
  0 <= m -> e <= fexp64 (Zdigits2 m + e) ->
  valid_binary (binary_round_aux prec emax s m e l) = true.
Proof.
  intros Hm He. unfold binary_round_aux.
  pose proof (shr_fexp_canonical m e l Hm He) as [H1 C1].
  destruct (shr_fexp prec emax m e l) as [mrs' e']. cbn [fst snd] in H1, C1.
  pose proof (round_nearest_even_bounds (shr_m mrs') (loc_of_shr_record mrs')) as R.
  set (m2 := round_nearest_even (shr_m mrs') (loc_of_shr_record mrs')) in *.
  assert (He' : e' <= fexp64 (Zdigits2 m2 + e')).
  { pose proof (Zdigits2_mono (shr_m mrs') m2 ltac:(lia)). unfold fexp64 in *. lia. }
  pose proof (shr_fexp_canonical m2 e' loc_Exact ltac:(lia) He') as [H2 C2].
  destruct (shr_fexp prec emax m2 e' loc_Exact) as [mrs'' e'']. cbn [fst snd] in H2, C2.
  destruct (shr_m mrs'') as [|m3|m3] eqn:E3; try reflexivity.
  destruct (Z.leb e'' (emax - prec)) eqn:Le; [|reflexivity].
  cbn [valid_binary]. unfold bounded, canonical_mantissa.
  rewrite Le, fexp_is_fexp64. cbn [Zdigits2] in C2. rewrite C2, Z.eqb_refl. reflexivity.
Qed.

Lemma size_iter_xO (k m : positive) :
  Zpos (Pos.size (PosDef.Pos.iter xO m k)) = Zpos (Pos.size m) + Zpos k.
Proof.
  pose proof (iter_xO k m) as E.
  pose proof (Zdigits2_log2 (Zpos (PosDef.Pos.iter xO m k)) ltac:(lia)) as D1.
  pose proof (Zdigits2_log2 (Zpos m) ltac:(lia)) as D2.
  cbn [Zdigits2] in D1, D2. rewrite digits2_size in D1, D2.
  rewrite D1, D2, E. rewrite Z.log2_mul_pow2 by lia. lia.
Qed.

Lemma binary_round_valid (s : bool) (m : positive) (e : Z) :
  valid_binary (binary_round prec emax s m e) = true.
Proof.
  unfold binary_round, shl_align. rewrite fexp_is_fexp64, digits2_size.
  destruct (fexp64 (Zpos (Pos.size m) + e) - e) as [|d|d] eqn:Ed.
  - apply binary_round_aux_valid; [lia|]. cbn [Zdigits2]. rewrite digits2_size. lia.
  - apply binary_round_aux_valid; [lia|]. cbn [Zdigits2]. rewrite digits2_size. lia.
  - apply binary_round_aux_valid; [lia|]. cbn [Zdigits2].
    rewrite (digits2_size (PosDef.Pos.iter xO m d)), size_iter_xO.
    replace (Zpos (Pos.size m) + Zpos d + fexp64 (Zpos (Pos.size m) + e))
      with (Zpos (Pos.size m) + e) by lia.
    lia.
Qed.

Lemma binary_normalize_valid (m e : Z) :
  valid_binary (binary_normalize prec emax m e false) = true.
Proof. destruct m; cbn [binary_normalize]; [reflexivity|apply binary_round_valid..]. Qed.

(** The number of a natural is the rounded integer, and not zero unless the
    natural is. *)
Lemma Prim2SF_numberOfNat (n : nat) :
  Prim2SF (numberOfNat n) = binary_normalize prec emax (Z.of_nat n) 0 false.
Proof.
  unfold numberOfNat, decimalToNumber, decimalToSF.
  destruct (Z.of_nat n) as [|p|p] eqn:E; try lia; [reflexivity|].
  change (0 <=? 0) with true. cbn match.
  rewrite Z.pow_0_r, Z.mul_1_r.
  apply Prim2SF_SF2Prim, binary_normalize_valid.
Qed.


End NumberFacts.

(** ** Sorting *)

Section SortFacts.
Context {A : Type} (comparefn : A -> A -> number).

Lemma insert_perm (x : A) (l : list A) : Permutation (JS.insert comparefn x l) (x :: l).
Proof.
  induction l as [|y l IH]; cbn [JS.insert]; [reflexivity|].
  destruct (before comparefn y x); [|reflexivity].
  rewrite IH. apply perm_swap.
Qed.

Lemma sort_perm (l : list A) : Permutation (JS.sort comparefn l) l.
Proof.
  induction l as [|x l IH]; cbn [JS.sort]; [reflexivity|].
  rewrite insert_perm. apply perm_skip, IH.
Qed.

Lemma sort_length (l : list A) : length (JS.sort comparefn l) = length l.
Proof. apply Permutation_length, sort_perm. Qed.

(** An element is inserted after the elements that come before it only:
    within a class [c] that no such element shares with it, the order of
    arrival is kept. *)
Lemma insert_filter (c : A -> bool) (x : A) (l : list A) :
  (forall y, In y l -> before comparefn y x = true -> c y = true -> c x = false) ->
  List.filter c (JS.insert comparefn x l) = List.filter c (x :: l).
Proof.
  induction l as [|y l IH]; intros H; cbn [JS.insert]; [reflexivity|].
  destruct (before comparefn y x) eqn:B; [|reflexivity].
  cbn [List.filter]. rewrite IH by (intros z Hz; apply H; right; exact Hz).
  cbn [List.filter].
  destruct (c y) eqn:Cy; [|reflexivity].
  rewrite (H y (or_introl eq_refl) B Cy). reflexivity.
Qed.

(** The comparator as the strict order of an integer key, on the elements
    that satisfy [P]. *)
Context (key : A -> Z) (P : A -> Prop).
Hypothesis before_key : forall x y, P x -> P y -> before comparefn x y = (key x <? key y)%Z.

Lemma insert_sorted (x : A) (l : list A) :
  P x -> Forall P l ->
  StronglySorted (fun a b => (key a <= key b)%Z) l ->
  StronglySorted (fun a b => (key a <= key b)%Z) (JS.insert comparefn x l).
Proof.
  intros Px. induction l as [|y l IH]; intros Pl S; cbn [JS.insert].
  - repeat constructor.
  - apply Forall_cons_iff in Pl as [Py Pl]. apply StronglySorted_inv in S as [S Hy].
    rewrite (before_key y x Py Px).
    destruct (Z.ltb_spec (key y) (key x)) as [Hlt|Hge].
    + constructor; [apply IH; assumption|].
      eapply Permutation_Forall; [symmetry; apply insert_perm|].
      constructor; [lia|assumption].
    + constructor; [constructor; assumption|].
      constructor; [assumption|].
      eapply List.Forall_impl; [|exact Hy]. cbn beta. intros; lia.
Qed.

Lemma sort_sorted (l : list A) :
  Forall P l -> StronglySorted (fun a b => (key a <= key b)%Z) (JS.sort comparefn l).
Proof.
  induction l as [|x l IH]; intros Pl; cbn [JS.sort]; [constructor|].
  apply Forall_cons_iff in Pl as [Px Pl].
  apply insert_sorted; [assumption| |apply IH; assumption].
  eapply Permutation_Forall; [symmetry; apply sort_perm|assumption].
Qed.

Lemma sort_stable (c : A -> bool) (l : list A) :
  Forall P l ->
  (forall x y, P x -> P y -> (key y < key x)%Z -> c y = true -> c x = false) ->
  List.filter c (JS.sort comparefn l) = List.filter c l.
Proof.
  intros Pl Hc. induction l as [|x l IH]; cbn [JS.sort]; [reflexivity|].
  apply Forall_cons_iff in Pl as [Px Pl].
  assert (Ps : Forall P (JS.sort comparefn l))
    by (eapply Permutation_Forall; [symmetry; apply sort_perm|assumption]).
  rewrite insert_filter.
  - cbn [List.filter]. rewrite IH by assumption. reflexivity.
  - intros y Hy B Cy. rewrite List.Forall_forall in Ps.
    rewrite (before_key y x (Ps y Hy) Px) in B. apply Z.ltb_lt in B.
    apply (Hc x y); auto.
Qed.

End SortFacts.

Lemma StronglySorted_weaken {A : Type} (R R' : A -> A -> Prop) (P : A -> Prop) (l : list A) :
  (forall a b, P a -> P b -> R a b -> R' a b) ->
  Forall P l -> StronglySorted R l -> StronglySorted R' l.
Proof.
  intros HR Pl S. induction S as [|a l S IH Ha]; [constructor|].
  apply Forall_cons_iff in Pl as [Pa Pl].
  constructor; [apply IH; assumption|].
  rewrite List.Forall_forall in *. intros b Hb. apply HR; auto.
Qed.


(** ** The rankings *)

Section Rankings.
Local Open Scope float_scope.

Lemma eqb_true_not_nan (a b : number) :
  (a =? b) = true -> is_nan a = false /\ is_nan b = false.
Proof.
  rewrite FloatAxioms.eqb_spec. intros H.
  split; apply not_true_is_false; intros N; apply Prim2SF_nan in N; rewrite N in H.
  - discriminate.
  - destruct (Prim2SF a); discriminate.
Qed.

Lemma before_descending (x y : Stock) :
  isNaN (pct x) = false -> isNaN (pct y) = false ->
  before byPctDescending x y = (- rank (pct x) <? - rank (pct y))%Z.
Proof.
  intros Hx Hy. unfold before, byPctDescending.
  rewrite sub_ltb_zero, ltb_rank by assumption.
  destruct (Z.ltb_spec (rank (pct y)) (rank (pct x))), (Z.ltb_spec (- rank (pct x)) (- rank (pct y)));
    try reflexivity; lia.
Qed.

Lemma before_ascending (x y : Stock) :
  isNaN (pct x) = false -> isNaN (pct y) = false ->
  before byPctAscending x y = (rank (pct x) <? rank (pct y))%Z.
Proof.
  intros Hx Hy. unfold before, byPctAscending.
  rewrite sub_ltb_zero, ltb_rank by assumption. reflexivity.
Qed.

Lemma tie_class (p : number) (x y : Stock) :
  isNaN (pct x) = false -> isNaN (pct y) = false ->
  rank (pct x) <> rank (pct y) -> (pct y =? p) = true -> (pct x =? p) = false.
Proof.
  intros Hx Hy Hne Hyp.
  destruct (eqb_true_not_nan _ _ Hyp) as [_ Hp].
  rewrite eqb_rank in Hyp |- * by assumption.
  apply Z.eqb_eq in Hyp. apply Z.eqb_neq. congruence.
Qed.


End Rankings.

(** ** Printing a percentage *)

Section Printing.

Lemma allDigits_app (a b : string) : allDigits (a ++ b) = allDigits a && allDigits b.
Proof.
  induction a as [|c a IH]; [reflexivity|].
  change (String c a ++ b) with (String c (a ++ b)). cbn [allDigits].
  rewrite IH. apply andb_assoc.
Qed.

Lemma length_app (a b : string) : String.length (a ++ b) = String.length a + String.length b.
Proof.
  induction a as [|c a IH]; [reflexivity|].
  change (String c a ++ b) with (String c (a ++ b)). cbn [String.length].
  rewrite IH. reflexivity.
Qed.

Lemma app_assoc (a b c : string) : (a ++ b) ++ c = a ++ b ++ c.
Proof.
  induction a as [|x a IH]; [reflexivity|].
  change ((String x a ++ b) ++ c = String x (a ++ b ++ c)).
  change ((String x a ++ b) ++ c) with (String x ((a ++ b) ++ c)).
  rewrite IH. reflexivity.
Qed.

Lemma uint_digits (d : Decimal.uint) : allDigits (NilEmpty.string_of_uint d) = true.
Proof. induction d; cbn; auto. Qed.

Lemma digitsOf_digits (n : Z) : allDigits (digitsOf n) = true /\ 1 <= String.length (digitsOf n).
Proof.
  unfold digitsOf, NilZero.string_of_uint.
  destruct (N.to_uint (Z.to_N n)) eqn:E; cbn [NilEmpty.string_of_uint allDigits String.length];
    rewrite ?uint_digits; split; try reflexivity; cbn; lia.
Qed.

Lemma zeros_digits (n : nat) : allDigits (zeros n) = true /\ String.length (zeros n) = n.
Proof. induction n as [|n [IH1 IH2]]; cbn; [auto|]. rewrite IH1, IH2. auto. Qed.

(** Cutting the last two characters off a string. *)
Lemma split_last_two (s : string) :
  2 <= String.length s ->
  exists a d1 d2,
    s = a ++ String d1 (String d2 EmptyString) /\
    substring 0 (String.length s - 2) s = a /\
    substring (String.length s - 2) 2 s = String d1 (String d2 EmptyString).
Proof.
  induction s as [|c s IH]; cbn [String.length]; intros H; [lia|].
  destruct (le_lt_dec 2 (String.length s)) as [H2|H2].
  - destruct (IH H2) as (a & d1 & d2 & Es & Ea & Eb).
    exists (String c a), d1, d2.
    replace (S (String.length s) - 2) with (S (String.length s - 2)) by lia.
    cbn [substring]. rewrite Ea, Eb. split; [|auto].
    change (String c a ++ String d1 (String d2 EmptyString))
      with (String c (a ++ String d1 (String d2 EmptyString))).
    rewrite <- Es. reflexivity.
  - destruct s as [|d [|e s]]; cbn [String.length] in *; try lia.
    exists EmptyString, c, d. auto.
Qed.

Lemma fixedDigits_shape (n : Z) :
  exists int d1 d2,
    fixedDigits 2 n = int ++ "." ++ String d1 (String d2 EmptyString) /\
    int <> EmptyString /\ allDigits int = true /\ isDigit d1 = true /\ isDigit d2 = true.
Proof.
  unfold fixedDigits.
  destruct (digitsOf_digits n) as [D L].
  set (m := if (String.length (digitsOf n) <=? 2)%nat
            then zeros (2 + 1 - String.length (digitsOf n)) ++ digitsOf n else digitsOf n).
  assert (Dm : allDigits m = true /\ 3 <= String.length m).
  { subst m. destruct (Nat.leb_spec (String.length (digitsOf n)) 2) as [H|H].
    - destruct (zeros_digits (2 + 1 - String.length (digitsOf n))) as [Z1 Z2].
      rewrite allDigits_app, length_app, Z1, Z2, D. split; [reflexivity|lia].
    - split; [assumption|lia]. }
  destruct Dm as [Dm Lm].
  destruct (split_last_two m ltac:(lia)) as (a & d1 & d2 & Em & Ea & Eb).
  exists a, d1, d2. rewrite Ea, Eb.
  rewrite Em, allDigits_app in Dm. cbn [allDigits] in Dm.
  apply andb_prop in Dm as [Da Dd]. apply andb_prop in Dd as [Dd1 Dd2].
  apply andb_prop in Dd2 as [Dd2 _].
  repeat split; try assumption.
  intros ->. assert (String.length m = 2) by (rewrite Em; reflexivity). lia.
Qed.

Lemma formatPct_plus (x : number) :
  (exists rest, formatPct x = String "+" rest) <-> (0 <? x)%float = true.
Proof.
  unfold formatPct. split.
  - intros [rest H]. destruct (0 <? x)%float eqn:Hpos; [reflexivity|exfalso].
    rewrite FloatAxioms.ltb_spec in Hpos. change (Prim2SF 0) with (S754_zero false) in Hpos.
    unfold toFixed, numberToString in H.
    destruct (Prim2SF x) as [s|s| |s m e] eqn:E.
    + discriminate H.
    + destruct s; discriminate H.
    + discriminate H.
    + destruct s; [|discriminate Hpos].
      destruct (exactFraction m e) as [p q]. discriminate H.
  - intros ->. eexists. reflexivity.
Qed.

Lemma below_1e21 (m : positive) (e : Z) :
  bounded prec emax m e = true ->
  SFltb (S754_finite false m e) (Prim2SF 1e21) = true ->
  (let '(p, q) := exactFraction m e in (10 ^ 21 * q <=? p)%Z) = false.
Proof.
  intros B H.
  rewrite SFltb_rank in H; [|exact B|apply Prim2SF_valid|discriminate|vm_compute; discriminate].
  apply Z.ltb_lt in H. cbn [SFrank] in H.
  assert (E21 : SFrank (Prim2SF 1e21) = (10 ^ 21 * 2 ^ 1074)%Z) by (vm_compute; reflexivity).
  rewrite E21 in H. clear E21.
  apply bounded_inv in B as (R & _).
  unfold exactFraction. destruct (Z.leb_spec 0 e) as [He|He]; apply Z.leb_gt.
  - rewrite Z.pow_add_r in H by lia.
    pose proof (pow2_pos 1074 ltac:(lia)). pose proof (pow2_pos e He). nia.
  - replace 1074%Z with (- e + (e + 1074))%Z in H at 2 by lia.
    rewrite (Z.pow_add_r 2 (- e) (e + 1074)) in H by lia.
    pose proof (pow2_pos (e + 1074) ltac:(lia)). pose proof (pow2_pos (- e) ltac:(lia)). nia.
Qed.

Lemma formatPct_two_decimals (x : number) :
  (abs x <? 1e21)%float = true ->
  exists neg int d1 d2,
    formatPct x =
      (if (0 <? x)%float then "+" else "") ++ neg ++ int ++ "." ++ String d1 (String d2 "%") /\
    (neg = "" \/ neg = "-") /\
    int <> "" /\ allDigits int = true /\ isDigit d1 = true /\ isDigit d2 = true.
Proof.
  intros H. rewrite FloatAxioms.ltb_spec, abs_spec in H.
  pose proof (Prim2SF_valid x) as V.
  unfold formatPct, toFixed.
  destruct (Prim2SF x) as [s|s| |s m e] eqn:E; try discriminate H.
  - destruct (fixedDigits_shape 0) as (int & d1 & d2 & F & Hi & Di & D1 & D2).
    exists "", int, d1, d2. rewrite F. repeat split; auto.
    f_equal. cbn [append]. rewrite !app_assoc. reflexivity.
  - cbn [SFabs valid_binary] in H, V.
    pose proof (below_1e21 m e V H) as Hb.
    destruct (exactFraction m e) as [p q]. rewrite Hb.
    destruct (fixedDigits_shape ((2 * p * 10 ^ Z.of_nat 2 + q) / (2 * q))) as (int & d1 & d2 & F & Hi & Di & D1 & D2).
    exists (if s then "-" else ""), int, d1, d2. rewrite F.
    repeat split; auto; [|destruct s; auto].
    f_equal. rewrite !app_assoc. reflexivity.
Qed.

End Printing.

(** ** The code-to-percentage map *)

Section StockMap.

Lemma buildStockMap_app (m : gmap string string) (l1 l2 : list Stock) :
  buildStockMap m (l1 ++ l2)%list = bind (buildStockMap m l1) (fun m1 => buildStockMap m1 l2).
Proof.
  revert m. induction l1 as [|s l1 IH]; intros m; cbn [buildStockMap app bind]; [reflexivity|].
  destruct (toString (code s)) as [k|e]; cbn [bind]; [apply IH|reflexivity].
Qed.

(** A key that no stock of the list has keeps its entry. *)
Lemma buildStockMap_other (k : string) (l : list Stock) : forall m m' : gmap string string,
  buildStockMap m l = Normal m' ->
  Forall (fun s => toString (code s) <> Normal k) l ->
  m' !! k = m !! k.
Proof.
  induction l as [|s l IH]; intros m m' H F; cbn [buildStockMap] in H.
  - congruence.
  - apply Forall_cons_iff in F as [Hs F].
    destruct (toString (code s)) as [k'|e] eqn:Ek; cbn [bind] in H; [|discriminate].
    rewrite (IH _ _ H F). unfold setProperty.
    destruct (String.eqb k' "__proto__"); [reflexivity|].
    apply lookup_insert_ne. congruence.
Qed.

(** The last stock with a key decides the entry. *)
Lemma buildStockMap_last (k : string) (earlier later : list Stock) (s : Stock)
    (m0 m : gmap string string) :
  buildStockMap m0 (earlier ++ s :: later)%list = Normal m ->
  toString (code s) = Normal k -> k <> "__proto__" ->
  Forall (fun s' => toString (code s') <> Normal k) later ->
  m !! k = Some (formatPct (pct s)).
Proof.
  intros H Hk Hp F. rewrite buildStockMap_app in H.
  destruct (buildStockMap m0 earlier) as [m1|e]; cbn [bind buildStockMap] in H; [|discriminate].
  rewrite Hk in H. cbn [bind] in H.
  rewrite (buildStockMap_other k later _ _ H F). unfold setProperty.
  apply String.eqb_neq in Hp. rewrite Hp. apply lookup_insert_eq.
Qed.

End StockMap.

(** ** The normalizers *)

Section Normalizers.

Lemma bind_Normal {A B : Type} (c : completion A) (k : A -> completion B) (b : B) :
  bind c k = Normal b -> exists a, c = Normal a /\ k a = Normal b.
Proof. destruct c as [a|e]; cbn [bind]; [eauto|discriminate]. Qed.

Lemma mapM_Normal {A B : Type} (f : A -> completion B) (l : list A) : forall ys : list B,
  mapM f l = Normal ys <-> Forall2 (fun x y => f x = Normal y) l ys.
Proof.
  induction l as [|x l IH]; intros ys; cbn [mapM]; split.
  - intros [= <-]. constructor.
  - intros H. inversion H. reflexivity.
  - intros H. apply bind_Normal in H as (y & Hy & H).
    apply bind_Normal in H as (ys' & Hys & [= <-]).
    constructor; [assumption|]. apply IH, Hys.
  - intros H. inversion H as [|? y ? ys' Hy Hys]; subst.
    rewrite Hy. cbn [bind]. apply IH in Hys. rewrite Hys. reflexivity.
Qed.

Lemma In_filterNotNull {A : Type} (a : A) (l : list (option A)) :
  In a (filterNotNull l) <-> In (Some a) l.
Proof.
  unfold filterNotNull. rewrite <- !list_elem_of_In, list_elem_of_omap.
  split.
  - intros (o & Ho & E). destruct o; cbn in E; congruence.
  - intros H. exists (Some a). auto.
Qed.

(** A record of the output is what the callback returned for a row. *)
Lemma normalize_row (x : exchange) (json : value) (stocks : list Stock) (s : Stock) :
  normalize x json = Normal stocks -> In s stocks ->
  exists rows row,
    container x json = Normal (Arr rows) /\ In row rows /\
    normalizeRow x row = Normal (Some s).
Proof.
  intros H Hs.
  assert (Hgen : forall data rows mapped,
             asMappable data = Normal rows ->
             mapM (normalizeRow x) rows = Normal mapped ->
             In s (filterNotNull mapped) ->
             exists row, data = Arr rows /\ In row rows /\ normalizeRow x row = Normal (Some s)).
  { intros data rows mapped Hd Hm Hin.
    destruct data; try discriminate. injection Hd as ->.
    apply In_filterNotNull in Hin. apply mapM_Normal in Hm.
    induction Hm as [|row r rows mapped Hr Hm IH]; [destruct Hin|].
    destruct Hin as [->|Hin].
    - exists row. repeat split; [left; reflexivity|assumption].
    - destruct (IH Hin) as (row' & _ & Hin' & Hrow').
      exists row'. repeat split; [right; assumption|assumption]. }
  destruct x; cbn [normalize container normalizeRow] in *.
  - unfold processTwseData in H.
    apply bind_Normal in H as (data & Hdata & H).
    destruct (truthy data); cbn [negb] in H; [|injection H as <-; destruct Hs].
    apply bind_Normal in H as (rows & Hrows & H).
    apply bind_Normal in H as (mapped & Hmapped & [= <-]).
    destruct (Hgen data rows mapped Hrows Hmapped Hs) as (row & -> & Hin & Hrow).
    eauto.
  - unfold processTpexData in H.
    apply bind_Normal in H as (data & Hdata & H).
    apply bind_Normal in H as (empty & Hempty & H).
    destruct empty; [injection H as <-; destruct Hs|].
    apply bind_Normal in H as (rows & Hrows & H).
    apply bind_Normal in H as (mapped & Hmapped & [= <-]).
    destruct (Hgen data rows mapped Hrows Hmapped Hs) as (row & -> & Hin & Hrow).
    eauto.
Qed.

(** What the callback checked and computed when it returned a record. *)
Lemma normalizeRow_record (x : exchange) (row : value) (s : Stock) :
  normalizeRow x row = Normal (Some s) ->
  exists change,
    parsedClose x row = Normal (close s) /\ parsedChange x row = Normal change /\
    isNaN (close s) = false /\ isNaN change = false /\ (close s =? 0)%float = false /\
    pct s = (if (close s - change =? 0)%float then 0 else change / (close s - change) * 100)%float.
Proof.
  intros H. destruct x; cbn [normalizeRow parsedClose parsedChange] in *.
  - unfold twseRow in H.
    apply bind_Normal in H as (code & _ & H). apply bind_Normal in H as (name & _ & H).
    apply bind_Normal in H as (r3 & _ & H). apply bind_Normal in H as (s3 & _ & H).
    apply bind_Normal in H as (close & Hclose & H). apply bind_Normal in H as (change & Hchange & H).
    destruct (isNaN close) eqn:N1; [discriminate|].
    destruct (isNaN change) eqn:N2; [discriminate|].
    destruct (close =? 0)%float eqn:Z0; [discriminate|].
    cbn [orb] in H. injection H as <-. cbn [Server.close Server.pct].
    exists change. repeat split; try assumption.
    destruct (close - change =? 0)%float; reflexivity.
  - unfold tpexRow in H.
    apply bind_Normal in H as (code & _ & H). apply bind_Normal in H as (name & _ & H).
    apply bind_Normal in H as (len & _ & H). apply bind_Normal in H as (long & _ & H).
    destruct long; [discriminate|].
    apply bind_Normal in H as (close & Hclose & H). apply bind_Normal in H as (change & Hchange & H).
    apply bind_Normal in H as (r8 & _ & H). apply bind_Normal in H as (amountStr & _ & H).
    destruct (isNaN close) eqn:N1; [discriminate|].
    destruct (isNaN change) eqn:N2; [discriminate|].
    destruct (close =? 0)%float eqn:Z0; [discriminate|].
    cbn [orb] in H. injection H as <-. cbn [Server.close Server.pct].
    exists change. repeat split; try assumption.
    destruct (close - change =? 0)%float; reflexivity.
Qed.

End Normalizers.

(** ** Claims about the normalizers *)

Section NormalizerClaims.
Local Open Scope float_scope.

(** C1 (as amended): every record that either normalizer returns comes from
    a row of the payload, keeps the close parsed from that row, and its [pct]
    is [change / (close - change) * 100] in binary64 arithmetic when
    [close - change] is not zero, and [0] when it is. *)
Theorem stored_pct_formula (x : exchange) (json : value) (stocks : list Stock) (s : Stock) :
  normalize x json = Normal stocks -> In s stocks ->
  exists rows row change,
    container x json = Normal (Arr rows) /\ In row rows /\
    parsedClose x row = Normal (close s) /\ parsedChange x row = Normal change /\
    ((close s - change =? 0) = false -> pct s = change / (close s - change) * 100) /\
    ((close s - change =? 0) = true -> pct s = 0).
Proof.
  intros H Hs.
  destruct (normalize_row x json stocks s H Hs) as (rows & row & Hc & Hin & Hrow).
  destruct (normalizeRow_record x row s Hrow) as (change & Hclose & Hchange & _ & _ & _ & Hpct).
  exists rows, row, change. repeat split; try assumption.
  - intros E. rewrite E in Hpct. exact Hpct.
  - intros E. rewrite E in Hpct. exact Hpct.
Qed.

Lemma stored_pct_formula_witness :
  normalize TWSE twseSample = Normal [tsmc] /\ In tsmc [tsmc] /\
  exists rows row change,
    container TWSE twseSample = Normal (Arr rows) /\ In row rows /\
    parsedClose TWSE row = Normal (close tsmc) /\ parsedChange TWSE row = Normal change /\
    ((close tsmc - change =? 0) = false -> pct tsmc = change / (close tsmc - change) * 100) /\
    ((close tsmc - change =? 0) = true -> pct tsmc = 0).
Proof.
  assert (H : normalize TWSE twseSample = Normal [tsmc]) by (vm_compute; reflexivity).
  assert (Hin : In tsmc [tsmc]) by (left; reflexivity).
  split; [exact H|]. split; [exact Hin|].
  exact (stored_pct_formula TWSE twseSample [tsmc] tsmc H Hin).
Defined.

(** C1 as stated fails: for a close of 10.35 and a change of 0.15 the stored
    [pct] is not [(close - prevClose) / prevClose * 100]; the two expressions
    agree in exact arithmetic only. *)
Lemma spec_formula_differs :
  exists s change,
    normalize TWSE twseCents = Normal [s] /\
    parsedChange TWSE (twseRecord "1101" "Cement" "2,000" "10.35" "+0.15") = Normal change /\
    let prevClose := close s - change in
    (prevClose =? 0) = false /\
    pct s = 1.4705882352941175 /\
    (close s - prevClose) / prevClose * 100 = 1.4705882352941213 /\
    (pct s =? (close s - prevClose) / prevClose * 100) = false.
Proof.
  eexists. eexists. split; [vm_compute; reflexivity|].
  split; [vm_compute; reflexivity|].
  cbv zeta. repeat split; vm_compute; reflexivity.
Qed.

(** C2: a record that either normalizer returns comes from a row whose close
    and change both parsed to numbers and whose close is not zero; a row that
    fails one of the three tests yields no record. *)
Theorem invalid_rows_excluded (x : exchange) (json : value) (stocks : list Stock) (s : Stock) :
  normalize x json = Normal stocks -> In s stocks ->
  exists rows row change,
    container x json = Normal (Arr rows) /\ In row rows /\
    normalizeRow x row = Normal (Some s) /\
    parsedClose x row = Normal (close s) /\ parsedChange x row = Normal change /\
    isNaN (close s) = false /\ isNaN change = false /\ (close s =? 0) = false.
Proof.
  intros H Hs.
  destruct (normalize_row x json stocks s H Hs) as (rows & row & Hc & Hin & Hrow).
  destruct (normalizeRow_record x row s Hrow) as (change & Hclose & Hchange & N1 & N2 & Z0 & _).
  exists rows, row, change. repeat split; assumption.
Qed.

Lemma invalid_rows_excluded_witness :
  normalize TPEX tpexSample = Normal [smallCo] /\ In smallCo [smallCo] /\
  exists rows row change,
    container TPEX tpexSample = Normal (Arr rows) /\ In row rows /\
    normalizeRow TPEX row = Normal (Some smallCo) /\
    parsedClose TPEX row = Normal (close smallCo) /\ parsedChange TPEX row = Normal change /\
    isNaN (close smallCo) = false /\ isNaN change = false /\ (close smallCo =? 0) = false.
Proof.
  assert (H : normalize TPEX tpexSample = Normal [smallCo]) by (vm_compute; reflexivity).
  assert (Hin : In smallCo [smallCo]) by (left; reflexivity).
  split; [exact H|]. split; [exact Hin|].
  exact (invalid_rows_excluded TPEX tpexSample [smallCo] smallCo H Hin).
Defined.

End NormalizerClaims.

(** ** Totality of the normalizers *)

Section Totality.




















(** C8 (as amended): when [tables] is missing or empty the rows are taken
    from [data], or else from [aaData]; the normalizer yields no rows when
    neither of them holds any. *)
Theorem tables_absent_falls_back (json tables data aaData : value) :
  getField json "tables" = Normal tables -> (truthy tables = false \/ tables = Arr []) ->
  getField json "data" = Normal data -> getField json "aaData" = Normal aaData ->
  container TPEX json
    = Normal (if truthy data then data else if truthy aaData then aaData else Arr []) /\
  ((truthy data = false \/ data = Arr []) -> (truthy aaData = false \/ aaData = Arr []) ->
   normalize TPEX json = Normal []).
Proof.
  intros Ht Htables Hd Ha.
  assert (Hc : tpexData json
               = Normal (if truthy data then data else if truthy aaData then aaData else Arr [])).
  { unfold tpexData. rewrite Ht. cbn [bind].
    assert (Hu : (if truthy tables then bind (getLength tables) (fun len => greaterThan len 0)
                  else Normal false) = Normal false).
    { destruct Htables as [F| ->]; [rewrite F; reflexivity|vm_compute; reflexivity]. }
    rewrite Hu. cbn [bind]. rewrite Hd. cbn [bind].
    destruct (truthy data); [reflexivity|].
    rewrite Ha. cbn [bind]. destruct (truthy aaData); reflexivity. }
  split; [exact Hc|].
  intros Hdata HaaData. cbn [normalize]. unfold processTpexData. rewrite Hc. cbn [bind].
  destruct Hdata as [Fd| ->].
  - rewrite Fd. destruct HaaData as [Fa| ->]; [rewrite Fa|]; vm_compute; reflexivity.
  - vm_compute. reflexivity.
Qed.

Lemma tables_absent_falls_back_witness :
  getField emptyPayload "tables" = Normal Undefined /\
  (truthy Undefined = false \/ Undefined = Arr []) /\
  container TPEX emptyPayload = Normal (Arr []) /\
  normalize TPEX emptyPayload = Normal [].
Proof.
  pose proof (tables_absent_falls_back emptyPayload Undefined Undefined Undefined
                eq_refl (or_introl eq_refl) eq_refl eq_refl) as [Hc Hn].
  split; [reflexivity|]. split; [left; reflexivity|]. split; [exact Hc|].
  exact (Hn (or_introl eq_refl) (or_introl eq_refl)).
Defined.

(** C8 as stated fails: a payload without [tables] whose rows are under
    [data] yields those rows. *)
Lemma data_without_tables_yields_rows :
  getField tpexDataOnly "tables" = Normal Undefined /\
  normalize TPEX tpexDataOnly = Normal [smallCo] /\
  normalize TPEX tpexDataOnly <> Normal [].
Proof.
  split; [reflexivity|].
  assert (H : normalize TPEX tpexDataOnly = Normal [smallCo]) by (vm_compute; reflexivity).
  split; [exact H|]. rewrite H. discriminate.
Qed.

End Totality.

(** ** The endpoint *)

Section Endpoint.

Lemma gainersOf_length (allStocks : list Stock) :
  length (gainersOf allStocks) = Nat.min 100 (length allStocks).
Proof. unfold gainersOf, slice0. rewrite length_firstn, sort_length. reflexivity. Qed.

Lemma losersOf_length (allStocks : list Stock) :
  length (losersOf allStocks) = Nat.min 100 (length allStocks).
Proof. unfold losersOf, slice0. rewrite length_firstn, sort_length. reflexivity. Qed.

(** A 200 answer carries the rankings and the map of the concatenated
    records of the two normalizers. *)
Lemma snapshot_of_handler (twse tpex : fetched) (twseFirst : bool) (now : string)
    (log : list (string * string)) (gainers losers : list Stock)
    (stockMap : gmap string string) (timestamp : string) :
  handler twse tpex twseFirst now
    = (log, {| status := 200; payload := Snapshot gainers losers stockMap timestamp |}) ->
  exists twseJson tpexJson twseStocks tpexStocks,
    twse = Resolved (Normal twseJson) /\ tpex = Resolved (Normal tpexJson) /\
    processTwseData twseJson = Normal twseStocks /\
    processTpexData tpexJson = Normal tpexStocks /\
    (twseStocks ++ tpexStocks)%list <> [] /\
    gainers = gainersOf (twseStocks ++ tpexStocks) /\
    losers = losersOf (twseStocks ++ tpexStocks) /\
    buildStockMap ∅ (twseStocks ++ tpexStocks) = Normal stockMap /\
    timestamp = now /\ log = [].
Proof.
  intros H. unfold handler in H.
  destruct (marketData twse tpex twseFirst now) as [r|e] eqn:Em; [|discriminate H].
  injection H as <- ->. unfold marketData in Em.
  apply bind_Normal in Em as ([a b] & Hall & Em). cbn [fst snd] in Em.
  apply bind_Normal in Em as (twseJson & -> & Em).
  apply bind_Normal in Em as (tpexJson & -> & Em).
  apply bind_Normal in Em as (twseStocks & H1 & Em).
  apply bind_Normal in Em as (tpexStocks & H2 & Em).
  cbv zeta in Em.
  destruct (Nat.eqb_spec (length (twseStocks ++ tpexStocks)%list) 0) as [E0|N0];
    [discriminate Em|].
  apply bind_Normal in Em as (m & Hm & Em).
  injection Em as <- <- <- <-.
  exists twseJson, tpexJson, twseStocks, tpexStocks.
  destruct twse as [r1|j1], tpex as [r2|j2]; try discriminate Hall.
  injection Hall as -> ->.
  repeat split; try assumption.
  intros E. apply N0. rewrite E. reflexivity.
Qed.

(** C5: when both normalizers return the empty sequence the endpoint answers
    404 with its message and logs nothing; and a 200 answer never carries an
    empty ranking. *)
Theorem no_data_is_404 (twse tpex : fetched) (twseFirst : bool) (now : string) :
  (forall twseJson tpexJson,
     twse = Resolved (Normal twseJson) -> tpex = Resolved (Normal tpexJson) ->
     processTwseData twseJson = Normal [] -> processTpexData tpexJson = Normal [] ->
     handler twse tpex twseFirst now = ([], noData)) /\
  (forall log gainers losers stockMap timestamp,
     handler twse tpex twseFirst now
       = (log, {| status := 200; payload := Snapshot gainers losers stockMap timestamp |}) ->
     gainers <> [] /\ losers <> []).
Proof.
  split.
  - intros twseJson tpexJson -> -> H1 H2.
    unfold handler, marketData. cbn [promiseAll bind fst snd].
    rewrite H1, H2. reflexivity.
  - intros log gainers losers stockMap timestamp H.
    apply snapshot_of_handler in H
      as (_ & _ & twseStocks & tpexStocks & _ & _ & _ & _ & Hne & -> & -> & _).
    assert (0 < length (twseStocks ++ tpexStocks)%list)
      by (destruct (twseStocks ++ tpexStocks)%list; [congruence|cbn [length]; lia]).
    split; intros E; apply (f_equal (@length Stock)) in E;
      rewrite ?gainersOf_length, ?losersOf_length in E; cbn [length] in E; lia.
Qed.

Lemma no_data_is_404_witness :
  processTwseData emptyPayload = Normal [] /\ processTpexData emptyPayload = Normal [] /\
  handler (Resolved (Normal emptyPayload)) (Resolved (Normal emptyPayload)) true "2026/1/5 14:30:00"
    = ([], noData).
Proof.
  assert (H1 : processTwseData emptyPayload = Normal []) by reflexivity.
  assert (H2 : processTpexData emptyPayload = Normal []) by reflexivity.
  split; [exact H1|]. split; [exact H2|].
  exact (proj1 (no_data_is_404 (Resolved (Normal emptyPayload)) (Resolved (Normal emptyPayload))
                  true "2026/1/5 14:30:00")
           emptyPayload emptyPayload eq_refl eq_refl H1 H2).
Defined.

Lemma failed_throws (twse tpex : fetched) (twseFirst : bool) (now : string) :
  failed twse tpex twseFirst now -> exists e, marketData twse tpex twseFirst now = Throw e.
Proof.
  intros F. unfold marketData.
  destruct F as [r ->|r ->|e ->|e ->|json e -> H|json e -> H|e H].
  - destruct tpex; cbn [promiseAll bind]; eauto.
  - destruct twse; cbn [promiseAll bind]; eauto.
  - destruct tpex; cbn [promiseAll bind fst]; eauto.
  - destruct twse as [r|[j|e']]; cbn [promiseAll bind fst snd]; eauto.
  - destruct tpex as [r|[j|e']]; cbn [promiseAll bind fst snd]; rewrite ?H; cbn [bind]; eauto.
  - destruct twse as [r|[j|e']]; cbn [promiseAll bind fst snd]; eauto.
    destruct (processTwseData j); cbn [bind]; rewrite ?H; cbn [bind]; eauto.
  - eauto.
Qed.

(** C7: when a fetch is rejected, a body is not JSON, a normalizer throws or
    anything else throws in the [try] block, the endpoint answers with the
    fixed 500 response, which holds nothing of the exception, and logs the
    cause. *)
Theorem failure_is_generic_500 (twse tpex : fetched) (twseFirst : bool) (now : string) :
  failed twse tpex twseFirst now ->
  exists cause,
    marketData twse tpex twseFirst now = Throw cause /\
    handler twse tpex twseFirst now = ([("Error fetching market data:", cause)], failure).
Proof.
  intros F. destruct (failed_throws twse tpex twseFirst now F) as [e He].
  exists e. split; [exact He|]. unfold handler. rewrite He. reflexivity.
Qed.

Lemma failure_is_generic_500_witness :
  failed (Rejected "fetch failed") (Resolved (Normal tpexSample)) true "2026/1/5 14:30:00" /\
  exists cause,
    marketData (Rejected "fetch failed") (Resolved (Normal tpexSample)) true "2026/1/5 14:30:00"
      = Throw cause /\
    handler (Rejected "fetch failed") (Resolved (Normal tpexSample)) true "2026/1/5 14:30:00"
      = ([("Error fetching market data:", cause)], failure).
Proof.
  assert (F : failed (Rejected "fetch failed") (Resolved (Normal tpexSample)) true
                "2026/1/5 14:30:00")
    by (apply (TwseFetchRejected _ _ _ _ "fetch failed"); reflexivity).
  split; [exact F|].
  exact (failure_is_generic_500 _ _ _ _ F).
Defined.

End Endpoint.

(** ** The classification call *)

Section Classification.
Variable JSON_parse : string -> completion value.

(** C9: [classifyStocks] returns the empty sequence when the text of the
    response is absent, empty or not JSON, and it returns normally whatever
    the text is. *)
Theorem classify_degrades_to_empty (text : option string) :
  (text = None \/ text = Some "" \/ (exists t e, text = Some t /\ JSON_parse t = Throw e) ->
   snd (classifyStocks JSON_parse text) = Normal (Arr [])) /\
  (exists v, snd (classifyStocks JSON_parse text) = Normal v).
Proof.
  unfold classifyStocks. split.
  - intros [->|[->|(t & e & -> & H)]]; try reflexivity.
    destruct (truthy (Str t)); [|reflexivity]. rewrite H. reflexivity.
  - destruct text as [t|]; [|eauto].
    destruct (truthy (Str t)); [|eauto].
    destruct (JSON_parse t); eauto.
Qed.

End Classification.

(** A parser that rejects every text stands for a model output that is not
    JSON. *)
Lemma classify_degrades_to_empty_witness :
  snd (classifyStocks (fun _ => Throw "SyntaxError: Unexpected token") (Some "not json"))
    = Normal (Arr []).
Proof.
  apply (proj1 (classify_degrades_to_empty (fun _ => Throw "SyntaxError: Unexpected token")
                  (Some "not json"))).
  right. right. exists "not json", "SyntaxError: Unexpected token". split; reflexivity.
Defined.

(** ** The rankings of the endpoint *)

Section RankingClaims.
Local Open Scope float_scope.

(** C4 (as amended): when no [pct] is NaN, the gainers are the first 100 of
    the permutation of the combined list that is sorted descending by [pct]
    with ties in input order, the losers the first 100 of the one sorted
    ascending; each list has as many entries as the combined list, up to
    100. *)
Theorem ranking_sorted_stable_truncated (allStocks : list Stock) :
  Forall (fun s => isNaN (pct s) = false) allStocks ->
  exists byGain byLoss : list Stock,
    gainersOf allStocks = firstn 100 byGain /\
    Permutation byGain allStocks /\ descending byGain /\ tiesKeepOrder byGain allStocks /\
    losersOf allStocks = firstn 100 byLoss /\
    Permutation byLoss allStocks /\ ascending byLoss /\ tiesKeepOrder byLoss allStocks /\
    length (gainersOf allStocks) = Nat.min 100 (length allStocks) /\
    length (losersOf allStocks) = Nat.min 100 (length allStocks).
Proof.
  intros HP.
  assert (HG : Forall (fun s => isNaN (pct s) = false) (JS.sort byPctDescending allStocks))
    by (eapply Permutation_Forall; [symmetry; apply sort_perm|assumption]).
  assert (HL : Forall (fun s => isNaN (pct s) = false) (JS.sort byPctAscending allStocks))
    by (eapply Permutation_Forall; [symmetry; apply sort_perm|assumption]).
  exists (JS.sort byPctDescending allStocks), (JS.sort byPctAscending allStocks).
  repeat split.
  - apply sort_perm.
  - eapply StronglySorted_weaken; [|exact HG|].
    2: { apply (sort_sorted byPctDescending (fun s => (- rank (pct s))%Z)
                  (fun s => isNaN (pct s) = false)); [apply before_descending|assumption]. }
    cbn beta. intros a b Ha Hb Hab. rewrite leb_rank by assumption. apply Z.leb_le. lia.
  - intros p.
    apply (sort_stable byPctDescending (fun s => (- rank (pct s))%Z)
             (fun s => isNaN (pct s) = false)); [apply before_descending|assumption|].
    cbn beta. intros x y Hx Hy Hlt. apply tie_class; [assumption..|lia].
  - apply sort_perm.
  - eapply StronglySorted_weaken; [|exact HL|].
    2: { apply (sort_sorted byPctAscending (fun s => rank (pct s))
                  (fun s => isNaN (pct s) = false)); [apply before_ascending|assumption]. }
    cbn beta. intros a b Ha Hb Hab. rewrite leb_rank by assumption. apply Z.leb_le. lia.
  - intros p.
    apply (sort_stable byPctAscending (fun s => rank (pct s))
             (fun s => isNaN (pct s) = false)); [apply before_ascending|assumption|].
    cbn beta. intros x y Hx Hy Hlt. apply tie_class; [assumption..|lia].
  - unfold gainersOf, slice0. rewrite length_firstn, sort_length. reflexivity.
  - unfold losersOf, slice0. rewrite length_firstn, sort_length. reflexivity.
Qed.

Lemma ranking_sorted_stable_truncated_witness :
  Forall (fun s => isNaN (pct s) = false) [smallCo; tsmc] /\
  exists byGain byLoss : list Stock,
    gainersOf [smallCo; tsmc] = firstn 100 byGain /\
    Permutation byGain [smallCo; tsmc] /\ descending byGain /\
    tiesKeepOrder byGain [smallCo; tsmc] /\
    losersOf [smallCo; tsmc] = firstn 100 byLoss /\
    Permutation byLoss [smallCo; tsmc] /\ ascending byLoss /\
    tiesKeepOrder byLoss [smallCo; tsmc] /\
    length (gainersOf [smallCo; tsmc]) = Nat.min 100 (length [smallCo; tsmc]) /\
    length (losersOf [smallCo; tsmc]) = Nat.min 100 (length [smallCo; tsmc]).
Proof.
  assert (H : Forall (fun s => isNaN (pct s) = false) [smallCo; tsmc])
    by (repeat constructor).
  split; [exact H|].
  exact (ranking_sorted_stable_truncated [smallCo; tsmc] H).
Defined.

(** C4 as stated fails: a change column that reads [Infinity] gives a record
    whose [pct] is NaN, and no order of a list with that record is sorted by
    [pct]. *)
Lemma nan_pct_breaks_ranking :
  exists a b,
    normalize TWSE twseInfinity = Normal [a; b] /\
    isNaN (pct a) = true /\
    ~ descending (gainersOf [a; b]) /\ ~ ascending (losersOf [a; b]) /\
    (forall l, Permutation l [a; b] -> ~ descending l /\ ~ ascending l).
Proof.
  eexists. eexists. split; [vm_compute; reflexivity|].
  split; [vm_compute; reflexivity|].
  assert (P : forall l, Permutation l
      [ {| code := Str "1101"; name := Str "Cement"; pct := nan; close := 10; amount := "2000" |};
        {| code := Str "2330"; name := Str "TSMC"; pct := 1.6949152542372881;
           close := 600; amount := "1000" |} ] -> ~ descending l /\ ~ ascending l).
  { intros l Hl. apply Permutation_sym, Permutation_length_2_inv in Hl.
    unfold descending, ascending.
    destruct Hl as [-> | ->]; split; intros S;
      apply StronglySorted_inv in S as [_ S]; apply Forall_inv in S;
      vm_compute in S; discriminate S. }
  split; [|split]; [| |exact P].
  - apply P. unfold gainersOf, slice0. vm_compute. reflexivity.
  - apply P. unfold losersOf, slice0. vm_compute. reflexivity.
Qed.

End RankingClaims.

(** ** Claims about the map *)

Section StockMapClaims.
Local Open Scope float_scope.

(** C6 (as amended): the entry under the key of a stock that is the last one
    with that key (a key other than [__proto__]) is its [pct] as printed by
    [formatPct]: a leading [+] exactly when [pct > 0], then [pct.toFixed(2)]
    and [%]; when [|pct| < 1e21] that is an optional [-], the integer digits,
    a point and exactly two decimals. *)
Theorem stockMap_entry_format (earlier later : list Stock) (s : Stock) (k : string)
    (stockMap : gmap string string) :
  buildStockMap ∅ (earlier ++ s :: later) = Normal stockMap ->
  toString (code s) = Normal k -> k <> "__proto__" ->
  Forall (fun s' => toString (code s') <> Normal k) later ->
  stockMap !! k = Some (formatPct (pct s)) /\
  ((exists rest, formatPct (pct s) = String "+" rest) <-> (0 <? pct s) = true) /\
  ((abs (pct s) <? 1e21) = true ->
   exists neg int d1 d2,
     formatPct (pct s)
       = ((if (0 <? pct s)%float then "+" else "")
            ++ neg ++ int ++ "." ++ String d1 (String d2 "%"))%string /\
     (neg = "" \/ neg = "-") /\
     int <> "" /\ allDigits int = true /\ isDigit d1 = true /\ isDigit d2 = true) /\
  formatPct 3.456 = "+3.46%" /\ formatPct (-1.2) = "-1.20%".
Proof.
  intros H Hk Hp F.
  split; [exact (buildStockMap_last k earlier later s ∅ stockMap H Hk Hp F)|].
  split; [apply formatPct_plus|].
  split; [apply formatPct_two_decimals|].
  split; vm_compute; reflexivity.
Qed.

Lemma stockMap_entry_format_witness :
  buildStockMap ∅ ([tsmc] ++ smallCo :: [])
    = Normal (<["5678" := "-3.85%"]> (<["2330" := "+1.69%"]> ∅)) /\
  (<["5678" := "-3.85%"]> (<["2330" := "+1.69%"]> ∅) : gmap string string) !! "5678"
    = Some (formatPct (pct smallCo)).
Proof.
  assert (E : buildStockMap ∅ ([tsmc] ++ smallCo :: [])
              = Normal (<["5678" := "-3.85%"]> (<["2330" := "+1.69%"]> ∅)))
    by (vm_compute; reflexivity).
  split; [exact E|].
  refine (proj1 (stockMap_entry_format [tsmc] [] smallCo "5678" _ E eq_refl _ _)).
  - discriminate.
  - constructor.
Defined.

(** C6 as stated fails: with the code 2330 on both exchanges the entry under
    2330 is the percentage of the second record, not that of the first; a
    record whose code is [__proto__] has no entry; and a [pct] that is NaN is
    printed without decimals. *)
Lemma earlier_duplicate_not_in_map :
  processTwseData twseSample = Normal [tsmc] /\
  processTpexData tpexSameCode = Normal [other2330] /\
  buildStockMap ∅ ([tsmc] ++ [other2330]) = Normal (<["2330" := "-3.85%"]> ∅) /\
  toString (code tsmc) = Normal "2330" /\
  formatPct (pct tsmc) = "+1.69%" /\
  (<["2330" := "-3.85%"]> ∅ : gmap string string) !! "2330" <> Some (formatPct (pct tsmc)) /\
  buildStockMap ∅ [ {| code := Str "__proto__"; name := Str "TSMC"; pct := pct tsmc;
                       close := 600; amount := "1000" |} ] = Normal ∅ /\
  formatPct nan = "NaN%".
Proof.
  split; [vm_compute; reflexivity|]. split; [vm_compute; reflexivity|].
  split; [vm_compute; reflexivity|]. split; [reflexivity|].
  assert (E : formatPct (pct tsmc) = "+1.69%") by (vm_compute; reflexivity).
  split; [exact E|].
  split; [|split; vm_compute; reflexivity].
  rewrite E, lookup_insert_eq. discriminate.
Qed.

(** A string code that exchange 2 lets through is shorter than six
    characters; it is not [__proto__]. *)
Lemma tpex_code_not_proto (json : value) (stocks : list Stock) (s : Stock) :
  processTpexData json = Normal stocks -> In s stocks -> code s <> Str "__proto__".
Proof.
  intros H Hs Hc.
  destruct (normalize_row TPEX json stocks s H Hs) as (rows & row & _ & _ & Hrow).
  cbn [normalizeRow] in Hrow. unfold tpexRow in Hrow.
  apply bind_Normal in Hrow as (c & Hc0 & Hrow). apply bind_Normal in Hrow as (n & _ & Hrow).
  apply bind_Normal in Hrow as (len & Hlen & Hrow). apply bind_Normal in Hrow as (long & Hlong & Hrow).
  destruct long.
  - discriminate Hrow.
  - apply bind_Normal in Hrow as (cl & _ & Hrow). apply bind_Normal in Hrow as (ch & _ & Hrow).
    apply bind_Normal in Hrow as (r8 & _ & Hrow). apply bind_Normal in Hrow as (am & _ & Hrow).
    destruct (isNaN cl || isNaN ch || (cl =? 0)); [discriminate Hrow|].
    injection Hrow as <-. cbn [code] in Hc. subst c.
    vm_compute in Hlen. injection Hlen as <-. vm_compute in Hlong. discriminate Hlong.
Qed.

(** C10: in every 200 answer of the endpoint, the map holds under the code
    of an exchange-2 record the percentage of the last exchange-2 record
    with that code, whatever exchange 1 has under it; and a key that no
    exchange-2 record has keeps the entry that the exchange-1 records give
    it.  The code is a string, as the data model has it, or any value that
    does not print as [__proto__]. *)
Theorem later_exchange_wins (twse tpex : fetched) (twseFirst : bool) (now : string)
    (log : list (string * string)) (gainers losers : list Stock)
    (stockMap : gmap string string) (timestamp : string) :
  handler twse tpex twseFirst now
    = (log, {| status := 200; payload := Snapshot gainers losers stockMap timestamp |}) ->
  exists twseJson tpexJson twseStocks tpexStocks,
    twse = Resolved (Normal twseJson) /\ tpex = Resolved (Normal tpexJson) /\
    processTwseData twseJson = Normal twseStocks /\
    processTpexData tpexJson = Normal tpexStocks /\
    (forall earlier s later k,
       tpexStocks = (earlier ++ s :: later)%list -> toString (code s) = Normal k ->
       code s = Str k \/ k <> "__proto__" ->
       Forall (fun s' => toString (code s') <> Normal k) later ->
       stockMap !! k = Some (formatPct (pct s))) /\
    (forall k twseMap,
       Forall (fun s => toString (code s) <> Normal k) tpexStocks ->
       buildStockMap ∅ twseStocks = Normal twseMap ->
       stockMap !! k = twseMap !! k).
Proof.
  intros H.
  destruct (snapshot_of_handler _ _ _ _ _ _ _ _ _ H)
    as (twseJson & tpexJson & twseStocks & tpexStocks & E1 & E2 & P1 & Hn & _ & _ & _ & Hm & _).
  exists twseJson, tpexJson, twseStocks, tpexStocks.
  split; [exact E1|]. split; [exact E2|]. split; [exact P1|]. split; [exact Hn|]. split.
  - intros earlier s later k -> Hk Hc F.
    apply (buildStockMap_last k (twseStocks ++ earlier) later s ∅ stockMap).
    + rewrite <- List.app_assoc. exact Hm.
    + exact Hk.
    + destruct Hc as [Hc|Hc]; [|exact Hc].
      intros ->. apply (tpex_code_not_proto tpexJson _ s Hn); [|exact Hc].
      apply in_or_app. right. left. reflexivity.
    + exact F.
  - intros k twseMap F Ht. rewrite buildStockMap_app, Ht in Hm. cbn [bind] in Hm.
    exact (buildStockMap_other k tpexStocks twseMap stockMap Hm F).
Qed.

Lemma later_exchange_wins_witness :
  handler (Resolved (Normal twseSample)) (Resolved (Normal tpexSameCode)) true "now"
    = ([], {| status := 200;
              payload := Snapshot (gainersOf [tsmc; other2330]) (losersOf [tsmc; other2330])
                           (<["2330" := "-3.85%"]> ∅) "now" |}) /\
  processTwseData twseSample = Normal [tsmc] /\
  processTpexData tpexSameCode = Normal [other2330] /\
  (<["2330" := "-3.85%"]> ∅ : gmap string string) !! "2330" = Some (formatPct (pct other2330)).
Proof.
  assert (Eh : handler (Resolved (Normal twseSample)) (Resolved (Normal tpexSameCode)) true "now"
               = ([], {| status := 200;
                         payload := Snapshot (gainersOf [tsmc; other2330])
                                      (losersOf [tsmc; other2330])
                                      (<["2330" := "-3.85%"]> ∅) "now" |}))
    by (vm_compute; reflexivity).
  assert (Et : processTwseData twseSample = Normal [tsmc]) by (vm_compute; reflexivity).
  assert (En : processTpexData tpexSameCode = Normal [other2330]) by (vm_compute; reflexivity).
  split; [exact Eh|]. split; [exact Et|]. split; [exact En|].
  destruct (later_exchange_wins _ _ _ _ _ _ _ _ _ Eh)
    as (twseJson & tpexJson & twseStocks & tpexStocks & _ & E2 & _ & Hn & Hlast & _).
  injection E2 as <-. rewrite En in Hn. injection Hn as <-.
  refine (Hlast [] other2330 [] "2330" eq_refl eq_refl (or_introl eq_refl) _).
  constructor.
Defined.

End StockMapClaims.

(** * More of the server *)

Import Facts.

Section MoreNumberFacts.
Local Open Scope Z_scope.

Lemma shr_fexp_snd (m e : Z) (l : location) :
  snd (shr_fexp prec emax m e l) = Z.max e (fexp64 (Zdigits2 m + e)).
Proof.
  unfold shr_fexp, shr. rewrite fexp_is_fexp64.
  destruct (fexp64 (Zdigits2 m + e) - e) as [|n|n] eqn:En; cbn [snd]; lia.
Qed.

(** A mantissa at its canonical exponent is left as it is. *)
Lemma shr_fexp_exact (m : positive) (e : Z) :
  fexp64 (Zpos (Pos.size m) + e) = e ->
  shr_fexp prec emax (Zpos m) e loc_Exact
    = ({| shr_m := Zpos m; shr_r := false; shr_s := false |}, e).
Proof.
  intros H. unfold shr_fexp, shr. rewrite fexp_is_fexp64. cbn [Zdigits2].
  rewrite digits2_size, H, Z.sub_diag. reflexivity.
Qed.

Lemma binary_round_aux_exact (s : bool) (m : positive) (e : Z) :
  fexp64 (Zpos (Pos.size m) + e) = e -> e <= 971 ->
  binary_round_aux prec emax s (Zpos m) e loc_Exact = S754_finite s m e.
Proof.
  intros H He. unfold binary_round_aux.
  rewrite (shr_fexp_exact m e H). cbn [shr_m loc_of_shr_record round_nearest_even].
  rewrite (shr_fexp_exact m e H). cbn [shr_m].
  replace (e <=? emax - prec) with true; [reflexivity|].
  symmetry. apply Z.leb_le. unfold emax, prec. lia.
Qed.

(** An integer below [2^53] is a number: rounding leaves its value. *)
Lemma binary_round_small (p : positive) :
  Zpos p < 2 ^ 53 -> SFrank (binary_round prec emax false p 0) = Zpos p * 2 ^ 1074.
Proof.
  intros Hp. pose proof (size_bounds p) as [Hlo Hhi].
  assert (Hd : Zpos (Pos.size p) <= 53).
  { destruct (Z_le_gt_dec (Zpos (Pos.size p)) 53) as [H|H]; [exact H|exfalso].
    assert (2 ^ 53 <= 2 ^ (Zpos (Pos.size p) - 1)) by (apply Z.pow_le_mono_r; lia). lia. }
  unfold binary_round, shl_align. rewrite fexp_is_fexp64, digits2_size.
  assert (Hf : fexp64 (Zpos (Pos.size p) + 0) = Zpos (Pos.size p) - 53)
    by (unfold fexp64; lia).
  rewrite Hf.
  destruct (Zpos (Pos.size p) - 53 - 0) as [|d|d] eqn:Ed; try lia.
  - rewrite binary_round_aux_exact; [|unfold fexp64; lia|lia].
    cbn [SFrank]. reflexivity.
  - rewrite binary_round_aux_exact.
    + cbn [SFrank]. rewrite iter_xO.
      replace 1074 with (Zpos d + (Zpos (Pos.size p) - 53 + 1074)) at 2 by lia.
      rewrite (Z.pow_add_r 2 (Zpos d)) by lia. ring.
    + rewrite size_iter_xO. unfold fexp64. lia.
    + lia.
Qed.

(** A larger integer rounds to a number that is at least [2^53]. *)
Lemma binary_round_large (p : positive) :
  2 ^ 53 <= Zpos p -> 2 ^ 53 * 2 ^ 1074 <= SFrank (binary_round prec emax false p 0).
Proof.
  intros Hp. pose proof (size_bounds p) as [Hlo Hhi].
  assert (Hd : 54 <= Zpos (Pos.size p)).
  { destruct (Z_le_gt_dec 54 (Zpos (Pos.size p))) as [H|H]; [exact H|exfalso].
    assert (2 ^ Zpos (Pos.size p) <= 2 ^ 53) by (apply Z.pow_le_mono_r; lia). lia. }
  pose proof (binary_round_valid false p 0) as V.
  pose proof (binary_round_signed false p 0 ltac:(lia)) as S.
  assert (E : forall m e, binary_round prec emax false p 0 = S754_finite false m e -> 1 <= e).
  { unfold binary_round, shl_align. rewrite fexp_is_fexp64, digits2_size.
    assert (Hf : fexp64 (Zpos (Pos.size p) + 0) = Zpos (Pos.size p) - 53)
      by (unfold fexp64; lia).
    rewrite Hf.
    destruct (Zpos (Pos.size p) - 53 - 0) as [|d|d] eqn:Ed; try lia.
    intros m e. unfold binary_round_aux.
    pose proof (shr_fexp_snd (Zpos p) 0 loc_Exact) as S1.
    destruct (shr_fexp prec emax (Zpos p) 0 loc_Exact) as [mrs' e']. cbn [snd] in S1.
    match goal with |- context [shr_fexp prec emax ?m2 e' loc_Exact] =>
      pose proof (shr_fexp_snd m2 e' loc_Exact) as S2;
      destruct (shr_fexp prec emax m2 e' loc_Exact) as [mrs'' e''] end.
    cbn [snd] in S2.
    assert (1 <= e'').
    { cbn [Zdigits2] in S1. rewrite digits2_size in S1. unfold fexp64 in S1. lia. }
    destruct (shr_m mrs''); try discriminate.
    destruct (e'' <=? emax - prec); [|discriminate].
    intros [= _ <-]. assumption. }
  destruct S as [(m & e & Hr)| Hr]; rewrite Hr in *; cbn [SFrank].
  - specialize (E m e eq_refl). cbn [valid_binary] in V.
    apply bounded_inv in V as (R & U & [L|L]); [lia|].
    apply Z.le_trans with (2 ^ 52 * 2 ^ (e + 1074)).
    + rewrite <- !Z.pow_add_r by lia. apply Z.pow_le_mono_r; lia.
    + apply Z.mul_le_mono_nonneg_r; [apply Z.lt_le_incl, pow2_pos; lia|exact L].
  - rewrite <- Z.pow_add_r by lia. apply Z.pow_le_mono_r; lia.
Qed.

(** The length test of exchange 2 on numbers is the one on naturals. *)
Lemma six_leb_numberOfNat (n : nat) : (6 <=? numberOfNat n)%float = (6 <=? n)%nat.
Proof.
  destruct (Nat.leb_spec 6 n) as [H|H].
  - assert (Hnan : Prim2SF (numberOfNat n) <> S754_nan).
    { rewrite Prim2SF_numberOfNat. destruct (Z.of_nat n) eqn:E; try lia.
      cbn [binary_normalize].
      destruct (binary_round_signed false p 0 ltac:(lia)) as [(m & e & ->)| ->]; discriminate. }
    rewrite FloatAxioms.leb_spec, SFleb_rank;
      [|apply Prim2SF_valid|apply Prim2SF_valid|vm_compute; discriminate|exact Hnan].
    apply Z.leb_le. rewrite Prim2SF_numberOfNat.
    assert (R6 : SFrank (Prim2SF 6) = 6 * 2 ^ 1074) by (vm_compute; reflexivity).
    rewrite R6. destruct (Z.of_nat n) as [|p|p] eqn:E; try lia.
    cbn [binary_normalize].
    pose proof (pow2_pos 1074 ltac:(lia)) as P.
    destruct (Z_lt_le_dec (Zpos p) (2 ^ 53)) as [Hs|Hl].
    + rewrite binary_round_small by exact Hs. nia.
    + pose proof (binary_round_large p Hl).
      assert (6 <= 2 ^ 53) by (vm_compute; discriminate). nia.
  - do 6 (destruct n as [|n]; [vm_compute; reflexivity|]). lia.
Qed.

End MoreNumberFacts.

Section MoreNormalizerFacts.
Local Open Scope float_scope.

Lemma getIndex_after (row : value) (i j : nat) (v : value) :
  getIndex row i = Normal v -> exists w, getIndex row j = Normal w.
Proof. destruct row; cbn [getIndex getField]; try discriminate; eauto. Qed.

(** X1: exchange 2 skips a row whose code is a string of six or more
    characters, without reading its other cells, so no record of its output
    has such a code. *)
Theorem tpex_long_code_skipped (json : value) (stocks : list Stock) :
  processTpexData json = Normal stocks ->
  (forall s c, In s stocks -> code s = Str c -> (String.length c < 6)%nat) /\
  (forall row c,
     getIndex row 0 = Normal (Str c) -> (6 <= String.length c)%nat ->
     tpexRow row = Normal None).
Proof.
  intros H. split.
  - intros s c Hs Hc.
    destruct (normalize_row TPEX json stocks s H Hs) as (rows & row & _ & _ & Hrow).
    cbn [normalizeRow] in Hrow. unfold tpexRow in Hrow.
    apply bind_Normal in Hrow as (c0 & Hc0 & Hrow). apply bind_Normal in Hrow as (n & _ & Hrow).
    apply bind_Normal in Hrow as (len & Hlen & Hrow).
    apply bind_Normal in Hrow as (long & Hlong & Hrow).
    destruct long; [discriminate Hrow|].
    apply bind_Normal in Hrow as (cl & _ & Hrow). apply bind_Normal in Hrow as (ch & _ & Hrow).
    apply bind_Normal in Hrow as (r8 & _ & Hrow). apply bind_Normal in Hrow as (am & _ & Hrow).
    destruct (isNaN cl || isNaN ch || (cl =? 0)); [discriminate Hrow|].
    injection Hrow as <-. cbn [code] in Hc. subst c0.
    cbn [getLength] in Hlen. injection Hlen as <-.
    cbn [greaterEqual toNumber bind] in Hlong. injection Hlong as Hlong.
    rewrite six_leb_numberOfNat in Hlong. apply Nat.leb_gt in Hlong. exact Hlong.
  - intros row c Hrow Hlen.
    destruct (getIndex_after row 0 1 _ Hrow) as [name Hname].
    unfold tpexRow. rewrite Hrow, Hname. cbn [bind getLength greaterEqual toNumber].
    rewrite six_leb_numberOfNat.
    apply Nat.leb_le in Hlen. rewrite Hlen. reflexivity.
Qed.

Lemma tpex_long_code_skipped_witness :
  processTpexData tpexSample = Normal [smallCo] /\
  (forall s c, In s [smallCo] -> code s = Str c -> (String.length c < 6)%nat) /\
  tpexRow (tpexRecord "123456" "Warrant" "50" "-2" "1000") = Normal None.
Proof.
  assert (H : processTpexData tpexSample = Normal [smallCo]) by (vm_compute; reflexivity).
  split; [exact H|]. split.
  - exact (proj1 (tpex_long_code_skipped tpexSample [smallCo] H)).
  - refine (proj2 (tpex_long_code_skipped tpexSample [smallCo] H)
              (tpexRecord "123456" "Warrant" "50" "-2" "1000") "123456" eq_refl _).
    cbn. lia.
Defined.

End MoreNormalizerFacts.

Section TagStripping.

Lemma stripTagsFrom_no_lt (s : string) : forall inTag, occurs "<" (stripTagsFrom inTag s) = false.
Proof.
  induction s as [|c s IH]; intros inTag; cbn [stripTagsFrom]; [reflexivity|].
  destruct inTag; [apply IH|].
  destruct (Ascii.eqb c "<") eqn:E; [apply IH|].
  cbn [occurs]. rewrite E. apply IH.
Qed.

Lemma stripTagsFrom_id (s : string) : occurs "<" s = false -> stripTagsFrom false s = s.
Proof.
  induction s as [|c s IH]; cbn [stripTagsFrom occurs]; [reflexivity|].
  intros H. apply orb_false_elim in H as [E H]. rewrite E, (IH H). reflexivity.
Qed.

(** X3: after [replace(/<[^>]*>?/gm, '')] no ["<"] is left, a text without
    ["<"] is unchanged, and stripping twice is stripping once. *)
Theorem stripTags_leaves_no_tag (s : string) :
  occurs "<" (stripTags s) = false /\
  (occurs "<" s = false -> stripTags s = s) /\
  stripTags (stripTags s) = stripTags s.
Proof.
  unfold stripTags. split; [apply stripTagsFrom_no_lt|]. split.
  - apply stripTagsFrom_id.
  - apply stripTagsFrom_id, stripTagsFrom_no_lt.
Qed.

End TagStripping.

Section PctSign.
Local Open Scope Z_scope.

Lemma shr_fexp_nonneg (m e : Z) (l : location) :
  0 <= m -> 0 <= shr_m (fst (shr_fexp prec emax m e l)).
Proof.
  intros Hm. unfold shr_fexp, shr.
  destruct (fexp prec emax (Zdigits2 m + e) - e) as [|n|n]; cbn [fst];
    rewrite ?shr_record_of_loc_m; try lia.
  rewrite iter_shr_1_m by (rewrite shr_record_of_loc_m; assumption).
  rewrite shr_record_of_loc_m. apply Z.div_pos; [assumption|apply pow2_pos; lia].
Qed.

(** Rounding gives the sign it is asked for. *)
Lemma binary_round_aux_hasSign (s : bool) (m e : Z) (l : location) :
  0 <= m -> hasSign s (binary_round_aux prec emax s m e l).
Proof.
  intros Hm. unfold binary_round_aux.
  pose proof (shr_fexp_nonneg m e l Hm) as H1.
  destruct (shr_fexp prec emax m e l) as [mrs' e']. cbn [fst] in H1.
  pose proof (round_nearest_even_bounds (shr_m mrs') (loc_of_shr_record mrs')) as R.
  match goal with |- context [shr_fexp prec emax ?m2 e' loc_Exact] =>
    pose proof (shr_fexp_nonneg m2 e' loc_Exact ltac:(lia)) as H2;
    destruct (shr_fexp prec emax m2 e' loc_Exact) as [mrs'' e''] end.
  cbn [fst] in H2.
  destruct (shr_m mrs'') as [|p|p]; try lia; cbn [hasSign]; [reflexivity|].
  destruct (e'' <=? emax - prec); reflexivity.
Qed.

Lemma hasSign_negative (s : bool) (x : spec_float) :
  hasSign s x -> SFltb x (S754_zero false) = true -> s = true.
Proof.
  destruct x as [s'|s'| |s' m e]; cbn [hasSign]; [| |intros []|];
    intros <- H; destruct s'; try reflexivity; vm_compute in H; discriminate H.
Qed.

Lemma hasSign_positive (s : bool) (x : spec_float) :
  hasSign s x -> SFltb (S754_zero false) x = true -> s = false.
Proof.
  destruct x as [s'|s'| |s' m e]; cbn [hasSign]; [| |intros []|];
    intros <- H; destruct s'; try reflexivity; vm_compute in H; discriminate H.
Qed.

Lemma SFmul_hasSign (s : bool) (x : spec_float) (mh : positive) (eh : Z) :
  hasSign s x -> hasSign s (SFmul prec emax x (S754_finite false mh eh)).
Proof.
  destruct x as [s'|s'| |s' m e]; cbn [hasSign SFmul]; try easy.
  - intros <-. apply xorb_false_r.
  - intros <-. apply xorb_false_r.
  - intros <-. rewrite xorb_false_r. apply binary_round_aux_hasSign. lia.
Qed.

Lemma SFdiv_finite_hasSign (sx sy : bool) (mx my : positive) (ex ey : Z) :
  hasSign (xorb sx sy)
    (SFdiv prec emax (S754_finite sx mx ex) (S754_finite sy my ey)).
Proof.
  cbn [SFdiv]. unfold SFdiv_core_binary.
  set (m' := match _ with Zpos _ => _ | Z0 => _ | Zneg _ => _ end).
  assert (Hm : 0 <= m').
  { subst m'. match goal with |- context [match ?sh with _ => _ end] => destruct sh end;
      try lia. apply Z.shiftl_nonneg. lia. }
  pose proof (Z_div_mod m' (Zpos my) ltac:(lia)) as D.
  destruct (Z.div_eucl m' (Zpos my)) as [q r].
  apply binary_round_aux_hasSign. destruct D as [D1 D2]. nia.
Qed.

(** The sign of [change / prevClose * 100]. *)
Lemma SF_pct_sign (c p : spec_float) (mh : positive) (eh : Z) :
  SFeqb p (S754_zero false) = false ->
  let pct := SFmul prec emax (SFdiv prec emax c p) (S754_finite false mh eh) in
  (SFltb pct (S754_zero false) = true ->
   SFltb c (S754_zero false) = true /\ SFltb (S754_zero false) p = true \/
   SFltb (S754_zero false) c = true /\ SFltb p (S754_zero false) = true) /\
  (SFltb (S754_zero false) pct = true ->
   SFltb (S754_zero false) c = true /\ SFltb (S754_zero false) p = true \/
   SFltb c (S754_zero false) = true /\ SFltb p (S754_zero false) = true).
Proof.
  intros Hp pct. subst pct.
  destruct c as [sc|sc| |sc mc ec], p as [sp|sp| |sp mp ep];
    try (destruct sp; discriminate Hp);
    try solve [cbn [SFdiv SFmul]; split; intros H; discriminate H];
    try solve [cbn [SFdiv SFmul]; destruct sc, sp; split; intros H;
               try discriminate H; auto].
  pose proof (SFdiv_finite_hasSign sc sp mc mp ec ep) as S.
  pose proof (SFmul_hasSign _ _ mh eh S) as S'.
  split; intros H.
  - apply (hasSign_negative _ _ S') in H. destruct sc, sp; try discriminate H; auto.
  - apply (hasSign_positive _ _ S') in H. destruct sc, sp; try discriminate H; auto.
Qed.

End PctSign.

Section PctSignOfRecords.
Local Open Scope float_scope.

Lemma pct_sign (change prevClose : number) :
  (prevClose =? 0) = false ->
  let pct := change / prevClose * 100 in
  ((pct <? 0) = true ->
   (change <? 0) = true /\ (0 <? prevClose) = true \/
   (0 <? change) = true /\ (prevClose <? 0) = true) /\
  ((0 <? pct) = true ->
   (0 <? change) = true /\ (0 <? prevClose) = true \/
   (change <? 0) = true /\ (prevClose <? 0) = true).
Proof.
  intros Hp. cbv zeta.
  rewrite FloatAxioms.eqb_spec in Hp.
  rewrite !FloatAxioms.ltb_spec, mul_spec, div_spec.
  change (Prim2SF 0) with (S754_zero false) in *.
  change (Prim2SF 100) with (S754_finite false 7036874417766400 (-46)).
  exact (SF_pct_sign _ _ _ _ Hp).
Qed.

(** X4: the sign of a record's percentage: it is negative only when the
    change and the previous close, [close - change], have opposite signs,
    and positive only when they have the same sign. *)
Theorem pct_sign_of_records (x : exchange) (json : value) (stocks : list Stock) (s : Stock) :
  normalize x json = Normal stocks -> In s stocks ->
  exists row change,
    normalizeRow x row = Normal (Some s) /\ parsedChange x row = Normal change /\
    ((pct s <? 0) = true ->
     (change <? 0) = true /\ (0 <? close s - change) = true \/
     (0 <? change) = true /\ (close s - change <? 0) = true) /\
    ((0 <? pct s) = true ->
     (0 <? change) = true /\ (0 <? close s - change) = true \/
     (change <? 0) = true /\ (close s - change <? 0) = true).
Proof.
  intros H Hs.
  destruct (normalize_row x json stocks s H Hs) as (rows & row & _ & _ & Hrow).
  destruct (normalizeRow_record x row s Hrow) as (change & _ & Hchange & _ & _ & _ & Hpct).
  exists row, change. split; [exact Hrow|]. split; [exact Hchange|].
  destruct (close s - change =? 0) eqn:E.
  - rewrite Hpct. split; intros Hc; vm_compute in Hc; discriminate Hc.
  - rewrite Hpct. exact (pct_sign change (close s - change) E).
Qed.

Lemma pct_sign_of_records_witness :
  normalize TPEX tpexSample = Normal [smallCo] /\
  (pct smallCo <? 0) = true /\
  exists row change,
    normalizeRow TPEX row = Normal (Some smallCo) /\ parsedChange TPEX row = Normal change /\
    ((change <? 0) = true /\ (0 <? close smallCo - change) = true \/
     (0 <? change) = true /\ (close smallCo - change <? 0) = true).
Proof.
  assert (H : normalize TPEX tpexSample = Normal [smallCo]) by (vm_compute; reflexivity).
  assert (N : (pct smallCo <? 0) = true) by (vm_compute; reflexivity).
  split; [exact H|]. split; [exact N|].
  destruct (pct_sign_of_records TPEX tpexSample [smallCo] smallCo H (or_introl eq_refl))
    as (row & change & Hrow & Hchange & Hneg & _).
  exists row, change. split; [exact Hrow|]. split; [exact Hchange|]. exact (Hneg N).
Defined.

End PctSignOfRecords.

Section MoreRankingFacts.
Local Open Scope float_scope.

Lemma firstn_skipn_sorted {A : Type} (R : A -> A -> Prop) (n : nat) (l : list A) :
  StronglySorted R l ->
  forall a b, In a (firstn n l) -> In b (skipn n l) -> R a b.
Proof.
  intros S. revert n. induction S as [|x l S IH Hx]; intros n a b Ha Hb.
  - rewrite firstn_nil in Ha. destruct Ha.
  - destruct n as [|n]; [destruct Ha|]. cbn [firstn skipn] in Ha, Hb.
    destruct Ha as [<-|Ha].
    + rewrite List.Forall_forall in Hx. apply Hx.
      rewrite <- (firstn_skipn n l). apply in_or_app. right. exact Hb.
    + exact (IH n a b Ha Hb).
Qed.

(** X5: each ranking takes its entries from the combined list, each record
    as often as it is there at most; with 100 records or fewer both rankings
    hold every record, whatever the sign of its percentage. *)
Theorem rankings_take_from_input (allStocks : list Stock) :
  (exists rest, Permutation (gainersOf allStocks ++ rest) allStocks) /\
  (exists rest, Permutation (losersOf allStocks ++ rest) allStocks) /\
  ((length allStocks <= 100)%nat ->
   Permutation (gainersOf allStocks) allStocks /\
   Permutation (losersOf allStocks) allStocks).
Proof.
  unfold gainersOf, losersOf, slice0. split; [|split].
  - exists (skipn 100 (JS.sort byPctDescending allStocks)).
    rewrite firstn_skipn. apply sort_perm.
  - exists (skipn 100 (JS.sort byPctAscending allStocks)).
    rewrite firstn_skipn. apply sort_perm.
  - intros H. rewrite !firstn_all2 by (rewrite sort_length; exact H).
    split; apply sort_perm.
Qed.

Lemma rankings_take_from_input_witness :
  Permutation (gainersOf [smallCo; tsmc]) [smallCo; tsmc] /\
  Permutation (losersOf [smallCo; tsmc]) [smallCo; tsmc].
Proof.
  apply (rankings_take_from_input [smallCo; tsmc]). cbn [length]. lia.
Defined.

(** X6: when no percentage is NaN, a record that is left out of the gainers
    has a percentage no greater than any gainer's, and one left out of the
    losers has a percentage no less than any loser's. *)
Theorem left_out_never_beats_ranked (allStocks : list Stock) :
  Forall (fun s => isNaN (pct s) = false) allStocks ->
  exists outG outL,
    Permutation (gainersOf allStocks ++ outG) allStocks /\
    (forall g s, In g (gainersOf allStocks) -> In s outG -> (pct s <=? pct g) = true) /\
    Permutation (losersOf allStocks ++ outL) allStocks /\
    (forall l s, In l (losersOf allStocks) -> In s outL -> (pct l <=? pct s) = true).
Proof.
  intros HP.
  assert (HG : Forall (fun s => isNaN (pct s) = false) (JS.sort byPctDescending allStocks))
    by (eapply Permutation_Forall; [symmetry; apply sort_perm|assumption]).
  assert (HL : Forall (fun s => isNaN (pct s) = false) (JS.sort byPctAscending allStocks))
    by (eapply Permutation_Forall; [symmetry; apply sort_perm|assumption]).
  exists (skipn 100 (JS.sort byPctDescending allStocks)),
         (skipn 100 (JS.sort byPctAscending allStocks)).
  unfold gainersOf, losersOf, slice0. rewrite !firstn_skipn.
  split; [apply sort_perm|]. split; [|split; [apply sort_perm|]].
  - intros g s Hg Hs.
    pose proof (sort_sorted byPctDescending (fun s => (- rank (pct s))%Z)
                  (fun s => isNaN (pct s) = false) before_descending allStocks HP) as S.
    pose proof (firstn_skipn_sorted _ 100 _ S g s Hg Hs) as Hk. cbn beta in Hk.
    rewrite List.Forall_forall in HG.
    rewrite leb_rank.
    + apply Z.leb_le. lia.
    + apply HG. rewrite <- (firstn_skipn 100). apply in_or_app. right. exact Hs.
    + apply HG. rewrite <- (firstn_skipn 100). apply in_or_app. left. exact Hg.
  - intros l s Hl Hs.
    pose proof (sort_sorted byPctAscending (fun s => rank (pct s))
                  (fun s => isNaN (pct s) = false) before_ascending allStocks HP) as S.
    pose proof (firstn_skipn_sorted _ 100 _ S l s Hl Hs) as Hk. cbn beta in Hk.
    rewrite List.Forall_forall in HL.
    rewrite leb_rank.
    + apply Z.leb_le. lia.
    + apply HL. rewrite <- (firstn_skipn 100). apply in_or_app. left. exact Hl.
    + apply HL. rewrite <- (firstn_skipn 100). apply in_or_app. right. exact Hs.
Qed.

Lemma left_out_never_beats_ranked_witness :
  Forall (fun s => isNaN (pct s) = false) (repeat smallCo 100 ++ [tsmc]) /\
  exists outG outL,
    Permutation (gainersOf (repeat smallCo 100 ++ [tsmc]) ++ outG) (repeat smallCo 100 ++ [tsmc]) /\
    (forall g s, In g (gainersOf (repeat smallCo 100 ++ [tsmc])) -> In s outG ->
                 (pct s <=? pct g) = true) /\
    Permutation (losersOf (repeat smallCo 100 ++ [tsmc]) ++ outL) (repeat smallCo 100 ++ [tsmc]) /\
    (forall l s, In l (losersOf (repeat smallCo 100 ++ [tsmc])) -> In s outL ->
                 (pct l <=? pct s) = true).
Proof.
  assert (H : Forall (fun s => isNaN (pct s) = false) (repeat smallCo 100 ++ [tsmc])).
  { apply Forall_app. split; [|repeat constructor].
    apply List.Forall_forall. intros s Hs. apply repeat_spec in Hs. subst s. reflexivity. }
  split; [exact H|].
  exact (left_out_never_beats_ranked (repeat smallCo 100 ++ [tsmc]) H).
Defined.

End MoreRankingFacts.

Section MoreEndpointFacts.

(** X7: the endpoint answers in one of three ways and no other: the snapshot
    with status 200 and nothing logged, the no-data answer with status 404
    and nothing logged, or the failure answer with status 500 and one line
    logged, which holds the exception caught. *)
Theorem handler_answers (twse tpex : fetched) (twseFirst : bool) (now : string) :
  let (log, answer) := handler twse tpex twseFirst now in
  (exists gainers losers stockMap,
     answer = {| status := 200; payload := Snapshot gainers losers stockMap now |} /\
     gainers <> [] /\ losers <> [] /\ log = []) \/
  (answer = noData /\ log = []) \/
  (exists e, answer = failure /\ log = [("Error fetching market data:", e)] /\
             marketData twse tpex twseFirst now = Throw e).
Proof.
  unfold handler. destruct (marketData twse tpex twseFirst now) as [r|e] eqn:E.
  2: { right. right. exists e. repeat split. }
  unfold marketData in E.
  apply bind_Normal in E as (responses & _ & E).
  apply bind_Normal in E as (twseData & _ & E).
  apply bind_Normal in E as (tpexData & _ & E).
  apply bind_Normal in E as (twseStocks & _ & E).
  apply bind_Normal in E as (tpexStocks & _ & E).
  cbv zeta in E.
  destruct (Nat.eqb_spec (length (twseStocks ++ tpexStocks)) 0) as [L|L].
  - injection E as <-. right. left. split; reflexivity.
  - apply bind_Normal in E as (stockMap & _ & E). injection E as <-.
    left. exists (gainersOf (twseStocks ++ tpexStocks)),
                 (losersOf (twseStocks ++ tpexStocks)), stockMap.
    split; [reflexivity|].
    repeat split; intros H; apply (f_equal (@length Stock)) in H;
      rewrite ?gainersOf_length, ?losersOf_length in H; cbn [length] in H; lia.
Qed.

End MoreEndpointFacts.

Section MoreStockMapFacts.

Lemma buildStockMap_origin (l : list Stock) : forall (m m' : gmap string string) (k v : string),
  buildStockMap m l = Normal m' -> m' !! k = Some v ->
  m !! k = Some v \/
  exists s, In s l /\ toString (code s) = Normal k /\ v = formatPct (pct s) /\ k <> "__proto__".
Proof.
  induction l as [|s l IH]; intros m m' k v H Hk; cbn [buildStockMap] in H.
  - injection H as <-. left. exact Hk.
  - apply bind_Normal in H as (key & Hkey & H).
    destruct (IH _ _ k v H Hk) as [Hm|(s' & Hs' & R)].
    + unfold setProperty in Hm.
      destruct (String.eqb_spec key "__proto__") as [P|P]; [left; exact Hm|].
      destruct (decide (key = k)) as [->|Ne].
      * rewrite lookup_insert_eq in Hm. injection Hm as <-.
        right. exists s. split; [left; reflexivity|]. repeat split; assumption.
      * rewrite lookup_insert_ne in Hm by exact Ne. left. exact Hm.
    + right. exists s'. split; [right; exact Hs'|exact R].
Qed.

Lemma buildStockMap_keeps (l : list Stock) : forall (m m' : gmap string string) (k : string),
  buildStockMap m l = Normal m' -> is_Some (m !! k) -> is_Some (m' !! k).
Proof.
  induction l as [|s l IH]; intros m m' k H Hk; cbn [buildStockMap] in H.
  - injection H as <-. exact Hk.
  - apply bind_Normal in H as (key & Hkey & H).
    apply (IH _ _ k H). unfold setProperty.
    destruct (String.eqb key "__proto__"); [exact Hk|].
    destruct (decide (key = k)) as [->|Ne].
    + rewrite lookup_insert_eq. eauto.
    + rewrite lookup_insert_ne by exact Ne. exact Hk.
Qed.

Lemma buildStockMap_has (l : list Stock) : forall (m m' : gmap string string) (s : Stock) (k : string),
  buildStockMap m l = Normal m' -> In s l -> toString (code s) = Normal k ->
  k <> "__proto__" -> is_Some (m' !! k).
Proof.
  induction l as [|s' l IH]; intros m m' s k H Hs Hk P; [destruct Hs|].
  cbn [buildStockMap] in H. apply bind_Normal in H as (key & Hkey & H).
  destruct Hs as [->|Hs].
  - apply (buildStockMap_keeps _ _ _ k H). unfold setProperty.
    assert (key = k) as -> by congruence.
    destruct (String.eqb_spec k "__proto__") as [Q|Q]; [contradiction|].
    rewrite lookup_insert_eq. eauto.
  - exact (IH _ _ s k H Hs Hk P).
Qed.

(** X8: the keys of [stockMap] are the codes of the records, read as
    strings, except [__proto__], and no others; the text under a key is the
    formatted percentage of a record with that code. *)
Theorem stockMap_keys_are_codes (allStocks : list Stock) (stockMap : gmap string string) :
  buildStockMap ∅ allStocks = Normal stockMap ->
  (forall k v, stockMap !! k = Some v ->
     exists s, In s allStocks /\ toString (code s) = Normal k /\
               v = formatPct (pct s) /\ k <> "__proto__") /\
  (forall s k, In s allStocks -> toString (code s) = Normal k -> k <> "__proto__" ->
     is_Some (stockMap !! k)).
Proof.
  intros H. split.
  - intros k v Hk.
    destruct (buildStockMap_origin _ _ _ k v H Hk) as [E|R]; [|exact R].
    rewrite lookup_empty in E. discriminate E.
  - intros s k. exact (buildStockMap_has _ _ _ s k H).
Qed.

Lemma stockMap_keys_are_codes_witness :
  buildStockMap ∅ [tsmc; smallCo] = Normal (<["5678" := "-3.85%"]> (<["2330" := "+1.69%"]> ∅)) /\
  exists s, In s [tsmc; smallCo] /\ toString (code s) = Normal "5678" /\
            "-3.85%" = formatPct (pct s) /\ "5678" <> "__proto__".
Proof.
  assert (H : buildStockMap ∅ [tsmc; smallCo]
              = Normal (<["5678" := "-3.85%"]> (<["2330" := "+1.69%"]> ∅)))
    by (vm_compute; reflexivity).
  split; [exact H|].
  apply (proj1 (stockMap_keys_are_codes _ _ H) "5678" "-3.85%").
  apply lookup_insert_eq.
Defined.

End MoreStockMapFacts.

Section Amounts.

Lemma removeCommas_no_comma (s : string) : occurs "," (removeCommas s) = false.
Proof.
  induction s as [|c s IH]; cbn [removeCommas]; [reflexivity|].
  destruct (Ascii.eqb c ",") eqn:E; [exact IH|].
  cbn [occurs]. rewrite E. exact IH.
Qed.

Lemma normalizeRow_amount (x : exchange) (row : value) (s : Stock) :
  normalizeRow x row = Normal (Some s) -> exists t, amount s = removeCommas t.
Proof.
  intros H. destruct x; cbn [normalizeRow] in H.
  - unfold twseRow in H.
    apply bind_Normal in H as (code & _ & H). apply bind_Normal in H as (name & _ & H).
    apply bind_Normal in H as (r3 & _ & H). apply bind_Normal in H as (s3 & _ & H).
    apply bind_Normal in H as (close & _ & H). apply bind_Normal in H as (change & _ & H).
    destruct (_ || _ || _); [discriminate|]. injection H as <-. eauto.
  - unfold tpexRow in H.
    apply bind_Normal in H as (code & _ & H). apply bind_Normal in H as (name & _ & H).
    apply bind_Normal in H as (len & _ & H). apply bind_Normal in H as (long & _ & H).
    destruct long; [discriminate|].
    apply bind_Normal in H as (close & _ & H). apply bind_Normal in H as (change & _ & H).
    apply bind_Normal in H as (r8 & _ & H). apply bind_Normal in H as (amountStr & Ha & H).
    destruct (_ || _ || _); [discriminate|]. injection H as <-.
    unfold tpexCell in Ha. apply bind_Normal in Ha as (t & _ & Ha). injection Ha as <-.
    cbn [amount]. eauto.
Qed.

(** X9: the traded value of a record holds no comma, whichever exchange
    the row is from. *)
Theorem amount_has_no_comma (x : exchange) (json : value) (stocks : list Stock) (s : Stock) :
  normalize x json = Normal stocks -> In s stocks -> occurs "," (amount s) = false.
Proof.
  intros H Hs.
  destruct (normalize_row x json stocks s H Hs) as (rows & row & _ & _ & Hrow).
  destruct (normalizeRow_amount x row s Hrow) as [t ->].
  apply removeCommas_no_comma.
Qed.

Lemma amount_has_no_comma_witness :
  exists s, normalize TWSE twseSample = Normal [s] /\ occurs "," (amount s) = false.
Proof.
  eexists. assert (H : normalize TWSE twseSample = Normal [_]) by (vm_compute; reflexivity).
  split; [exact H|].
  exact (amount_has_no_comma TWSE twseSample _ _ H (or_introl eq_refl)).
Defined.

End Amounts.

Section PctIsNumber.
Local Open Scope Z_scope.

Lemma hasSign_not_nan (s : bool) (x : spec_float) : hasSign s x -> x <> S754_nan.
Proof. intros H ->. exact H. Qed.

Lemma binary_round_not_nan (s : bool) (m : positive) (e : Z) :
  binary_round prec emax s m e <> S754_nan.
Proof.
  unfold binary_round. destruct (shl_align _ _ _) as [mz ez] eqn:E.
  apply (hasSign_not_nan s), binary_round_aux_hasSign.
  unfold shl_align in E. destruct (_ - e) as [|d|d]; injection E as <- <-; lia.
Qed.

Lemma binary_normalize_not_nan (m e : Z) (szero : bool) :
  binary_normalize prec emax m e szero <> S754_nan.
Proof.
  destruct m; cbn [binary_normalize]; [discriminate|apply binary_round_not_nan..].
Qed.

(** With a finite change and a close that is a number, the percentage
    [change / (close - change) * 100] is a number. *)
Lemma SF_pct_not_nan (close change : spec_float) (mh : positive) (eh : Z) :
  close <> S754_nan -> finiteSF change = true ->
  SFeqb (SFsub prec emax close change) (S754_zero false) = false ->
  SFmul prec emax (SFdiv prec emax change (SFsub prec emax close change))
    (S754_finite false mh eh) <> S754_nan.
Proof.
  intros Hc Hf.
  assert (Hp : SFsub prec emax close change <> S754_nan).
  { destruct close as [sc|sc| |sc mc ec], change as [sd|sd| |sd md ed];
      try discriminate Hf; try contradiction; cbn [SFsub]; try discriminate.
    - destruct sc, sd; discriminate.
    - apply binary_normalize_not_nan. }
  destruct (SFsub prec emax close change) as [sp|sp| |sp mp ep]; [| |contradiction|];
    destruct change as [sd|sd| |sd md ed]; try discriminate Hf; intros Hz;
    try (destruct sp; discriminate Hz); cbn [SFdiv SFmul]; try discriminate.
  pose proof (SFdiv_finite_hasSign sd sp md mp ed ep) as S.
  exact (hasSign_not_nan _ _ (SFmul_hasSign _ _ mh eh S)).
Qed.

End PctIsNumber.

Section PctIsNumberOfRecords.
Local Open Scope float_scope.

Lemma Prim2SF_finite (x : number) : is_finite x = true -> finiteSF (Prim2SF x) = true.
Proof.
  unfold is_finite, Prim2SF. intros H. apply negb_true_iff, orb_false_elim in H as [N I].
  rewrite N, I. destruct (is_zero x); [reflexivity|].
  destruct (Z.frexp x) as [r ex]. destruct (shr_fexp prec emax _ _ _) as [mrs e'].
  destruct (shr_m mrs) as [|p|p]; reflexivity.
Qed.

Lemma isNaN_Prim2SF (x : number) : Prim2SF x <> S754_nan -> isNaN x = false.
Proof.
  intros H. unfold isNaN. destruct (is_nan x) eqn:N; [|reflexivity].
  apply Prim2SF_nan in N. contradiction.
Qed.

(** X10: a record whose change is finite has a percentage that is a number;
    NaN can only come from a change column that reads as an infinity. *)
Theorem finite_change_gives_number (x : exchange) (json : value)
    (stocks : list Stock) (s : Stock) :
  normalize x json = Normal stocks -> In s stocks ->
  exists row change,
    normalizeRow x row = Normal (Some s) /\ parsedChange x row = Normal change /\
    (is_finite change = true -> isNaN (pct s) = false).
Proof.
  intros H Hs.
  destruct (normalize_row x json stocks s H Hs) as (rows & row & _ & _ & Hrow).
  destruct (normalizeRow_record x row s Hrow) as (change & _ & Hchange & Nc & _ & _ & Hpct).
  exists row, change. split; [exact Hrow|]. split; [exact Hchange|].
  intros F. rewrite Hpct.
  destruct (close s - change =? 0) eqn:E; [reflexivity|].
  apply isNaN_Prim2SF.
  rewrite FloatAxioms.eqb_spec, sub_spec in E.
  rewrite mul_spec, div_spec, sub_spec.
  change (Prim2SF 0) with (S754_zero false) in E.
  change (Prim2SF 100) with (S754_finite false 7036874417766400 (-46)).
  apply SF_pct_not_nan; [apply Prim2SF_not_nan; exact Nc|apply Prim2SF_finite; exact F|exact E].
Qed.

Lemma finite_change_gives_number_witness :
  exists s, normalize TWSE twseCents = Normal [s] /\
  exists row change,
    normalizeRow TWSE row = Normal (Some s) /\ parsedChange TWSE row = Normal change /\
    (is_finite change = true -> isNaN (pct s) = false).
Proof.
  eexists. assert (H : normalize TWSE twseCents = Normal [_]) by (vm_compute; reflexivity).
  split; [exact H|].
  exact (finite_change_gives_number TWSE twseCents _ _ H (or_introl eq_refl)).
Defined.

End PctIsNumberOfRecords.

(** * The client: prompt texts, the analysis run and the category lists *)

Import AiPrompt App.

Section MorePrinting.

Lemma occurs_app (c : ascii) (a b : string) : occurs c (a ++ b) = occurs c a || occurs c b.
Proof.
  induction a as [|d a IH]; [reflexivity|].
  change (String d a ++ b) with (String d (a ++ b)). cbn [occurs].
  rewrite IH. apply orb_assoc.
Qed.

Lemma allDigits_occurs (c : ascii) (s : string) :
  isDigit c = false -> allDigits s = true -> occurs c s = false.
Proof.
  intros Hc. induction s as [|d s IH]; cbn [allDigits occurs]; [reflexivity|].
  intros H. apply andb_prop in H as [Hd Hs]. rewrite (IH Hs), orb_false_r.
  destruct (Ascii.eqb_spec d c) as [->|]; [congruence|reflexivity].
Qed.

(** Cutting a string at a position. *)
Lemma split_at (n : nat) : forall s : string,
  (n <= String.length s)%nat ->
  exists a b,
    s = a ++ b /\ substring 0 n s = a /\ substring n (String.length s - n) s = b /\
    String.length a = n.
Proof.
  induction n as [|n IH]; intros s H.
  - exists "", s. rewrite Nat.sub_0_r. repeat split.
    + destruct s; reflexivity.
    + clear H. induction s as [|c s IHs]; [reflexivity|].
      cbn [substring String.length]. rewrite IHs. reflexivity.
  - destruct s as [|c s]; cbn [String.length] in H; [lia|].
    destruct (IH s ltac:(lia)) as (a & b & Es & Ea & Eb & La).
    exists (String c a), b. cbn [substring String.length Nat.sub]. rewrite Ea, Eb, La.
    repeat split. change (String c a ++ b) with (String c (a ++ b)). rewrite <- Es. reflexivity.
Qed.

Lemma fixedDigits_point (f : nat) (n : Z) :
  (1 <= f)%nat ->
  exists int frac,
    fixedDigits f n = int ++ "." ++ frac /\
    int <> "" /\ allDigits int = true /\ allDigits frac = true /\ String.length frac = f.
Proof.
  intros Hf. unfold fixedDigits.
  destruct (digitsOf_digits n) as [D L].
  set (m := if (String.length (digitsOf n) <=? f)%nat
            then zeros (f + 1 - String.length (digitsOf n)) ++ digitsOf n else digitsOf n).
  assert (Dm : allDigits m = true /\ (f + 1 <= String.length m)%nat).
  { subst m. destruct (Nat.leb_spec (String.length (digitsOf n)) f) as [H|H].
    - destruct (zeros_digits (f + 1 - String.length (digitsOf n))) as [Z1 Z2].
      rewrite allDigits_app, length_app, Z1, Z2, D. split; [reflexivity|lia].
    - split; [assumption|lia]. }
  destruct Dm as [Dm Lm].
  destruct (split_at (String.length m - f) m ltac:(lia)) as (a & b & Em & Ea & Eb & La).
  replace (String.length m - (String.length m - f))%nat with f in Eb by lia.
  destruct f as [|f']; [lia|]. rewrite Ea, Eb.
  exists a, b. rewrite Em, allDigits_app in Dm. apply andb_prop in Dm as [Da Db].
  repeat split; try assumption.
  - intros ->. cbn [String.length] in La. lia.
  - apply (f_equal String.length) in Em. rewrite length_app in Em. lia.
Qed.

(** [x.toFixed(f)] below [10^21]: a minus sign when [x] is negative, the
    integer part, a point and [f] decimals. *)
Lemma toFixed_shape (f : nat) (x : number) :
  (1 <= f)%nat -> (abs x <? 1e21)%float = true ->
  exists int frac,
    toFixed f x = (if (x <? 0)%float then "-" else "") ++ int ++ "." ++ frac /\
    int <> "" /\ allDigits int = true /\ allDigits frac = true /\ String.length frac = f.
Proof.
  intros Hf H. rewrite FloatAxioms.ltb_spec, abs_spec in H.
  rewrite FloatAxioms.ltb_spec. change (Prim2SF 0) with (S754_zero false).
  pose proof (Prim2SF_valid x) as V.
  unfold toFixed.
  destruct (Prim2SF x) as [s|s| |s m e] eqn:E; try discriminate H.
  - destruct (fixedDigits_point f 0 Hf) as (int & frac & F & R).
    exists int, frac. rewrite F. split; [destruct s; reflexivity|exact R].
  - cbn [SFabs valid_binary] in H, V.
    pose proof (below_1e21 m e V H) as Hb.
    destruct (exactFraction m e) as [p q]. rewrite Hb.
    destruct (fixedDigits_point f ((2 * p * 10 ^ Z.of_nat f + q) / (2 * q)) Hf)
      as (int & frac & F & R).
    exists int, frac. rewrite F. split; [destruct s; reflexivity|exact R].
Qed.

(** The sign characters of a formatted percentage are those of the number. *)
Lemma formatPct_signs (x : number) :
  (abs x <? 1e21)%float = true ->
  occurs "+" (formatPct x) = (0 <? x)%float /\
  occurs "-" (formatPct x) = (x <? 0)%float.
Proof.
  intros H. unfold formatPct.
  destruct (toFixed_shape 2 x ltac:(lia) H) as (int & frac & -> & _ & Di & Df & _).
  rewrite !occurs_app.
  rewrite !(allDigits_occurs _ int), !(allDigits_occurs _ frac) by (assumption || reflexivity).
  assert (O : (0 <? x)%float = true -> (x <? 0)%float = false).
  { rewrite !FloatAxioms.ltb_spec. change (Prim2SF 0) with (S754_zero false).
    destruct (Prim2SF x) as [s|s| |s m e]; try discriminate; destruct s; try discriminate;
      reflexivity. }
  destruct (0 <? x)%float eqn:P; [rewrite (O eq_refl)|]; destruct (x <? 0)%float;
    split; reflexivity.
Qed.

End MorePrinting.

Section Parentheses.

Lemma isLineTerminator_occurs (c : ascii) (s : string) :
  occurs "010" (String c s) = false -> occurs "013" (String c s) = false ->
  isLineTerminator c = false.
Proof.
  cbn [occurs]. intros H1 H2.
  apply orb_false_elim in H1 as [H1 _]. apply orb_false_elim in H2 as [H2 _].
  unfold isLineTerminator.
  destruct (N.eqb_spec (N_of_ascii c) 10) as [E|E].
  - apply (f_equal ascii_of_N) in E. rewrite ascii_N_embedding in E. subst c. discriminate H1.
  - destruct (N.eqb_spec (N_of_ascii c) 13) as [E'|E']; [|reflexivity].
    apply (f_equal ascii_of_N) in E'. rewrite ascii_N_embedding in E'. subst c. discriminate H2.
Qed.

Lemma occurs_isLineTerminator (c : ascii) :
  isLineTerminator c = false -> Ascii.eqb c "010" = false /\ Ascii.eqb c "013" = false.
Proof.
  unfold isLineTerminator. intros H. apply orb_false_elim in H as [H1 H2].
  split; apply Ascii.eqb_neq; intros ->; discriminate.
Qed.

Lemma lazyGroup_sound (s : string) : forall g rest,
  lazyGroup s = Some (g, rest) ->
  s = g ++ ")" ++ rest /\
  occurs ")" g = false /\ occurs "010" g = false /\ occurs "013" g = false.
Proof.
  induction s as [|c s IH]; intros g rest H; cbn [lazyGroup] in H; [discriminate|].
  destruct (Ascii.eqb_spec c ")") as [->|Hc].
  - injection H as <- <-. repeat split.
  - destruct (isLineTerminator c) eqn:L; [discriminate|].
    destruct (lazyGroup s) as [[g' rest']|] eqn:E; [|discriminate].
    injection H as <- <-.
    destruct (IH g' rest' eq_refl) as (-> & H1 & H2 & H3).
    destruct (occurs_isLineTerminator c L) as [L1 L2].
    cbn [occurs]. rewrite H1, H2, H3, L1, L2.
    apply Ascii.eqb_neq in Hc. rewrite Hc. repeat split.
Qed.

Lemma lazyGroup_complete (g rest : string) :
  occurs ")" g = false -> occurs "010" g = false -> occurs "013" g = false ->
  lazyGroup (g ++ ")" ++ rest) = Some (g, rest).
Proof.
  induction g as [|c g IH]; intros H1 H2 H3.
  - reflexivity.
  - change (String c g ++ ")" ++ rest) with (String c (g ++ ")" ++ rest)).
    cbn [lazyGroup]. rewrite (isLineTerminator_occurs c g H2 H3).
    cbn [occurs] in H1, H2, H3.
    apply orb_false_elim in H1 as [E1 H1]. apply orb_false_elim in H2 as [_ H2].
    apply orb_false_elim in H3 as [_ H3].
    rewrite E1, (IH H1 H2 H3). reflexivity.
Qed.

Lemma matchParen_sound (s : string) : forall before g rest,
  matchParen s = Some (before, g, rest) ->
  s = before ++ "(" ++ g ++ ")" ++ rest /\
  occurs ")" g = false /\ occurs "010" g = false /\ occurs "013" g = false.
Proof.
  induction s as [|c s IH]; intros before g rest H; cbn [matchParen] in H; [discriminate|].
  destruct (if Ascii.eqb c "(" then lazyGroup s else None) as [[g' rest']|] eqn:E.
  - injection H as <- <- <-.
    destruct (Ascii.eqb_spec c "(") as [->|]; [|discriminate].
    destruct (lazyGroup_sound s g' rest' E) as (-> & R). split; [reflexivity|exact R].
  - destruct (matchParen s) as [[[b' g'] rest']|] eqn:M; [|discriminate].
    injection H as <- <- <-.
    destruct (IH b' g' rest' eq_refl) as (-> & R). split; [reflexivity|exact R].
Qed.

Lemma matchParen_complete (before g rest : string) :
  occurs "(" before = false ->
  occurs ")" g = false -> occurs "010" g = false -> occurs "013" g = false ->
  matchParen (before ++ "(" ++ g ++ ")" ++ rest) = Some (before, g, rest).
Proof.
  intros Hb H1 H2 H3. induction before as [|c b IH].
  - change ("" ++ "(" ++ g ++ ")" ++ rest) with (String "(" (g ++ ")" ++ rest)).
    cbn [matchParen]. rewrite Ascii.eqb_refl, (lazyGroup_complete g rest H1 H2 H3). reflexivity.
  - change (String c b ++ "(" ++ g ++ ")" ++ rest)
      with (String c (b ++ "(" ++ g ++ ")" ++ rest)).
    cbn [occurs] in Hb. apply orb_false_elim in Hb as [Ec Hb].
    cbn [matchParen]. rewrite Ec, (IH Hb). reflexivity.
Qed.

(** X11: what the pattern [/\((.*?)\)/] finds: the text is the part before
    the match, the group in parentheses and the part after it; the group
    holds no [")"] and no line break; the label shown is the text without
    the match. *)
Theorem match_splits_text (stockStr before code rest : string) :
  matchParen stockStr = Some (before, code, rest) ->
  stockStr = before ++ "(" ++ code ++ ")" ++ rest /\
  occurs ")" code = false /\ occurs "010" code = false /\ occurs "013" code = false /\
  withoutParen stockStr = before ++ rest.
Proof.
  intros H. destruct (matchParen_sound _ _ _ _ H) as (E & H1 & H2 & H3).
  repeat split; try assumption. unfold withoutParen. rewrite H. reflexivity.
Qed.

Lemma match_splits_text_witness :
  "TSMC (2330) x(y)" = "TSMC " ++ "(" ++ "2330" ++ ")" ++ " x(y)" /\
  withoutParen "TSMC (2330) x(y)" = "TSMC " ++ " x(y)".
Proof.
  destruct (match_splits_text "TSMC (2330) x(y)" "TSMC " "2330" " x(y)" eq_refl)
    as (E & _ & _ & _ & W).
  split; [exact E|exact W].
Defined.

(** X12: the pattern reads back what [buildStockString] wrote: for a record
    whose name holds no ["("] and whose code holds no [")"] and no line
    break, the group is the code and the text before it the name. *)
Theorem match_inverts_buildStockString (s : value) (text name code : string) :
  buildStockString s = Normal text ->
  getField s "name" = Normal (Str name) -> getField s "code" = Normal (Str code) ->
  occurs "(" name = false ->
  occurs ")" code = false -> occurs "010" code = false -> occurs "013" code = false ->
  exists money,
    matchParen text = Some (name, code, "[成交" ++ money ++ "]") /\
    withoutParen text = name ++ "[成交" ++ money ++ "]".
Proof.
  intros H Hn Hc Pn P1 P2 P3. unfold buildStockString in H.
  apply bind_Normal in H as (amount & _ & H). apply bind_Normal in H as (money & _ & H).
  rewrite Hn in H. cbn [bind toString] in H. rewrite Hc in H. cbn [bind toString] in H.
  injection H as <-. exists money.
  assert (M : matchParen (name ++ "(" ++ code ++ ")[成交" ++ money ++ "]")
              = Some (name, code, "[成交" ++ money ++ "]"))
    by exact (matchParen_complete name code _ Pn P1 P2 P3).
  split; [exact M|]. unfold withoutParen. rewrite M. reflexivity.
Qed.

Lemma match_inverts_buildStockString_witness :
  exists money,
    matchParen "TSMC(2330)[成交12.3億]" = Some ("TSMC", "2330", "[成交" ++ money ++ "]") /\
    withoutParen "TSMC(2330)[成交12.3億]" = "TSMC" ++ "[成交" ++ money ++ "]".
Proof.
  apply (match_inverts_buildStockString
           (Obj [("code", Str "2330"); ("name", Str "TSMC"); ("amount", Str "1234567890")])
           "TSMC(2330)[成交12.3億]" "TSMC" "2330"); reflexivity.
Defined.

End Parentheses.

Section Chips.
Local Open Scope float_scope.

(** X13: from the server to the chip: the stock that is last in the combined
    list with its code is shown with its own formatted percentage, in red
    when the percentage is positive, in green when it is negative and in
    gray when it is zero, for a percentage below [10^21] in size. *)
Theorem chip_colour_is_sign (earlier later : list Stock) (s : Stock)
    (stockMap : gmap string string) (k stockStr before rest : string) :
  buildStockMap ∅ (earlier ++ s :: later)%list = Normal stockMap ->
  toString (Server.code s) = Normal k -> k <> "__proto__" ->
  Forall (fun s' => toString (Server.code s') <> Normal k) later ->
  (abs (Server.pct s) <? 1e21) = true ->
  matchParen stockStr = Some (before, k, rest) ->
  renderStock stockMap stockStr =
    Normal {| label := (before ++ rest)%string; code := k; pct := formatPct (Server.pct s);
              pctColor := if 0 <? Server.pct s then Red
                          else if Server.pct s <? 0 then Green else Gray |}.
Proof.
  intros H Hk Hp F B M.
  pose proof (buildStockMap_last k earlier later s ∅ stockMap H Hk Hp F) as L.
  unfold renderStock, withoutParen, pctOf, colourOf. rewrite M, L. cbn [bind fst snd].
  destruct (formatPct_signs (Server.pct s) B) as [-> ->]. reflexivity.
Qed.

Lemma chip_colour_is_sign_witness :
  renderStock (<["5678" := "-3.85%"]> (<["2330" := "+1.69%"]> ∅)) "SmallCo(5678)" =
    Normal {| label := "SmallCo"; code := "5678"; pct := "-3.85%"; pctColor := Green |}.
Proof.
  assert (H : buildStockMap ∅ ([tsmc] ++ smallCo :: [])%list
              = Normal (<["5678" := "-3.85%"]> (<["2330" := "+1.69%"]> ∅)))
    by (vm_compute; reflexivity).
  assert (E : formatPct (Server.pct smallCo) = "-3.85%") by (vm_compute; reflexivity).
  rewrite <- E at 2.
  apply (chip_colour_is_sign [tsmc] [] smallCo _ "5678" "SmallCo(5678)" "SmallCo" "" H).
  - reflexivity.
  - discriminate.
  - constructor.
  - vm_compute. reflexivity.
  - reflexivity.
Defined.

Lemma mapM_Throw {A B : Type} (f : A -> completion B) (l : list A) (x : A) (e : string) :
  In x l -> f x = Throw e -> exists e', mapM f l = Throw e'.
Proof.
  intros Hx Hf. induction l as [|y l IH]; [destruct Hx|]. cbn [mapM].
  destruct (f y) as [b|e'] eqn:Ey; cbn [bind]; [|eauto].
  destruct Hx as [->|Hx]; [congruence|].
  destruct (IH Hx) as [e' ->]. cbn [bind]. eauto.
Qed.

Lemma mapM_total {A B : Type} (f : A -> completion B) (l : list A) :
  (forall x, In x l -> exists y, f x = Normal y) ->
  exists ys, mapM f l = Normal ys /\ Forall2 (fun x y => f x = Normal y) l ys.
Proof.
  induction l as [|x l IH]; intros H; cbn [mapM].
  - exists []. split; [reflexivity|constructor].
  - destruct (H x (or_introl eq_refl)) as [y Hy].
    destruct (IH (fun z Hz => H z (or_intror Hz))) as (ys & -> & F).
    rewrite Hy. cbn [bind]. exists (y :: ys). split; [reflexivity|].
    constructor; assumption.
Qed.

(** X14: a stock text whose code in parentheses is the name of a property
    that every object inherits, and is no key of [stockMap], makes the
    rendering of the whole list throw. *)
Theorem inherited_name_breaks_list (groups : list CategoryGroup) (group : CategoryGroup)
    (stockMap : gmap string string) (stockStr before code rest : string) :
  In group groups -> In stockStr (stocks group) ->
  matchParen stockStr = Some (before, code, rest) ->
  inherited code = true -> stockMap !! code = None ->
  exists e, renderCategoryList (Some groups) stockMap = Throw e.
Proof.
  intros Hg Hs M I L.
  assert (R : renderStock stockMap stockStr = Throw (typeError "pct.includes is not a function")).
  { unfold renderStock, pctOf. rewrite M, L, I. reflexivity. }
  assert (G : exists e, renderGroup stockMap group = Throw e).
  { unfold renderGroup. destruct (mapM_Throw _ _ _ _ Hs R) as [e ->]. cbn [bind]. eauto. }
  destruct G as [e G]. unfold renderCategoryList.
  destruct groups as [|g gs]; [destruct Hg|].
  destruct (mapM_Throw _ _ _ _ Hg G) as [e' ->]. cbn [bind]. eauto.
Qed.

Lemma inherited_name_breaks_list_witness :
  exists e,
    renderCategoryList
      (Some [{| category := "Builders"; stocks := ["TSMC(2330)"; "Acme(constructor)"] |}])
      (<["2330" := "+1.69%"]> ∅) = Throw e.
Proof.
  apply (inherited_name_breaks_list _
           {| category := "Builders"; stocks := ["TSMC(2330)"; "Acme(constructor)"] |}
           _ "Acme(constructor)" "Acme" "constructor" "").
  - left. reflexivity.
  - right. left. reflexivity.
  - reflexivity.
  - reflexivity.
  - reflexivity.
Defined.

Lemma renderStock_total (stockMap : gmap string string) (stockStr : string) :
  (forall before code rest, matchParen stockStr = Some (before, code, rest) ->
     inherited code = true -> is_Some (stockMap !! code)) ->
  exists c, renderStock stockMap stockStr = Normal c.
Proof.
  intros H. unfold renderStock, pctOf.
  destruct (matchParen stockStr) as [[[b c] r]|] eqn:M; cbn [bind]; [|eauto].
  destruct (stockMap !! c) as [t|] eqn:L; cbn [bind]; [eauto|].
  destruct (inherited c) eqn:I; cbn [bind]; [|eauto].
  destruct (H b c r eq_refl I) as [t Ht]. rewrite Ht in L. discriminate L.
Qed.

(** X15: when no code in parentheses is an inherited name missing from
    [stockMap], the list renders: as the no-data notice exactly when there
    are no groups, and otherwise as one card for each group, in order, with
    one chip for each of its stocks and their number in the badge. *)
Theorem list_renders_group_by_group (groups : list CategoryGroup)
    (stockMap : gmap string string) :
  (forall group stockStr before code rest,
     In group groups -> In stockStr (stocks group) ->
     matchParen stockStr = Some (before, code, rest) ->
     inherited code = true -> is_Some (stockMap !! code)) ->
  exists v, renderCategoryList (Some groups) stockMap = Normal v /\
    (v = NoData <-> groups = []) /\
    (forall cards, v = Cards cards ->
       Forall2 (fun group c =>
                  title c = category group /\ count c = length (stocks group) /\
                  length (chips c) = length (stocks group)) groups cards).
Proof.
  intros H.
  assert (G : forall group, In group groups ->
                exists c, renderGroup stockMap group = Normal c).
  { intros group Hg. unfold renderGroup.
    destruct (mapM_total (renderStock stockMap) (stocks group)) as (cs & -> & _).
    - intros s Hs. apply renderStock_total. intros b c r. exact (H group s b c r Hg Hs).
    - cbn [bind]. eauto. }
  destruct (mapM_total _ _ G) as (cards & E & F).
  unfold renderCategoryList. destruct groups as [|g gs].
  - exists NoData. split; [reflexivity|]. split; [tauto|]. intros cs Hcs. discriminate Hcs.
  - rewrite E. cbn [bind]. exists (Cards cards). split; [reflexivity|].
    split; [split; discriminate|].
    intros cs Hcs. injection Hcs as <-.
    eapply Forall2_impl; [exact F|]. cbn beta. intros group c Hc.
    unfold renderGroup in Hc. apply bind_Normal in Hc as (cs & Hcs & Hc). injection Hc as <-.
    cbn [title count chips]. repeat split.
    clear - Hcs. revert cs Hcs. induction (stocks group) as [|s l IH]; intros cs Hcs.
    + injection Hcs as <-. reflexivity.
    + cbn [mapM] in Hcs. apply bind_Normal in Hcs as (y & _ & Hcs).
      apply bind_Normal in Hcs as (ys & Hys & Hcs). injection Hcs as <-.
      cbn [length]. f_equal. exact (IH ys Hys).
Qed.

Lemma list_renders_group_by_group_witness :
  exists v,
    renderCategoryList (Some [{| category := "Foundry"; stocks := ["TSMC(2330)"] |}])
      (<["2330" := "+1.69%"]> ∅) = Normal v /\
    (v = NoData <-> [{| category := "Foundry"; stocks := ["TSMC(2330)"] |}] = []) /\
    (forall cards, v = Cards cards ->
       Forall2 (fun group c =>
                  title c = category group /\ count c = length (stocks group) /\
                  length (chips c) = length (stocks group))
         [{| category := "Foundry"; stocks := ["TSMC(2330)"] |}] cards).
Proof.
  apply list_renders_group_by_group.
  intros group stockStr before code rest [<-|[]] [<-|[]] M I.
  vm_compute in M. injection M as <- <- <-. discriminate I.
Defined.

End Chips.

Section PromptTexts.
Local Open Scope float_scope.

Lemma nan_not_below (x : number) : is_nan x = true -> (abs x <? 1e21) = false.
Proof.
  intros N. rewrite FloatAxioms.ltb_spec, abs_spec, (Prim2SF_nan x N). reflexivity.
Qed.

Lemma div_nan (x y : number) : is_nan x = true -> is_nan (x / y) = true.
Proof.
  intros N. destruct (is_nan (x / y)) eqn:E; [reflexivity|exfalso].
  apply Prim2SF_not_nan in E. apply E. rewrite div_spec, (Prim2SF_nan x N). reflexivity.
Qed.

(** Reading back the digits that were printed. *)
Lemma digitsValue_acc (d : Decimal.uint) : forall acc : positive,
  digitsValue (Zpos acc) (NilEmpty.string_of_uint d) = Zpos (Pos.of_uint_acc d acc).
Proof.
  induction d as [|d IH|d IH|d IH|d IH|d IH|d IH|d IH|d IH|d IH|d IH]; intros acc;
    cbn [NilEmpty.string_of_uint digitsValue Pos.of_uint_acc]; [reflexivity|..];
    rewrite <- IH; f_equal; vm_compute digitVal; lia.
Qed.

Lemma digitsValue_uint (d : Decimal.uint) :
  digitsValue 0 (NilEmpty.string_of_uint d) = Z.of_N (Pos.of_uint d).
Proof.
  induction d as [|d IH|d IH|d IH|d IH|d IH|d IH|d IH|d IH|d IH|d IH];
    cbn [NilEmpty.string_of_uint digitsValue Pos.of_uint]; [reflexivity|exact IH|..];
    change (10 * 0 + digitVal _)%Z with (Zpos 1) || change (10 * 0 + digitVal _)%Z with (Zpos 2)
    || change (10 * 0 + digitVal _)%Z with (Zpos 3) || change (10 * 0 + digitVal _)%Z with (Zpos 4)
    || change (10 * 0 + digitVal _)%Z with (Zpos 5) || change (10 * 0 + digitVal _)%Z with (Zpos 6)
    || change (10 * 0 + digitVal _)%Z with (Zpos 7) || change (10 * 0 + digitVal _)%Z with (Zpos 8)
    || change (10 * 0 + digitVal _)%Z with (Zpos 9);
    rewrite digitsValue_acc; reflexivity.
Qed.

Lemma digitsValue_digitsOf (n : Z) : (0 <= n)%Z -> digitsValue 0 (digitsOf n) = n.
Proof.
  intros H. unfold digitsOf, NilZero.string_of_uint.
  assert (E : digitsValue 0 (NilEmpty.string_of_uint (N.to_uint (Z.to_N n))) = n).
  { rewrite digitsValue_uint. change (Pos.of_uint ?d) with (N.of_uint d).
    rewrite DecimalN.Unsigned.of_to. lia. }
  destruct (N.to_uint (Z.to_N n)); exact E.
Qed.

Lemma digitsValue_app (a b : string) : forall acc,
  digitsValue acc (a ++ b) = digitsValue (digitsValue acc a) b.
Proof.
  induction a as [|c a IH]; intros acc; [reflexivity|].
  change (String c a ++ b) with (String c (a ++ b)). cbn [digitsValue]. apply IH.
Qed.

Lemma digitsValue_zeros (k : nat) : digitsValue 0 (zeros k) = 0%Z.
Proof. induction k as [|k IH]; [reflexivity|exact IH]. Qed.

(** The digits of [fixedDigits] read as the number that was printed. *)
Lemma fixedDigits_value (f : nat) (n : Z) :
  (1 <= f)%nat -> (0 <= n)%Z ->
  exists int frac,
    fixedDigits f n = int ++ "." ++ frac /\
    int <> "" /\ allDigits int = true /\ allDigits frac = true /\ String.length frac = f /\
    digitsValue 0 (int ++ frac) = n.
Proof.
  intros Hf Hn. unfold fixedDigits.
  destruct (digitsOf_digits n) as [D L].
  set (m := if (String.length (digitsOf n) <=? f)%nat
            then zeros (f + 1 - String.length (digitsOf n)) ++ digitsOf n else digitsOf n).
  assert (Dm : allDigits m = true /\ (f + 1 <= String.length m)%nat /\ digitsValue 0 m = n).
  { subst m. destruct (Nat.leb_spec (String.length (digitsOf n)) f) as [H|H].
    - destruct (zeros_digits (f + 1 - String.length (digitsOf n))) as [Z1 Z2].
      rewrite allDigits_app, length_app, Z1, Z2, D, digitsValue_app, digitsValue_zeros.
      split; [reflexivity|]. split; [lia|apply digitsValue_digitsOf; exact Hn].
    - split; [assumption|]. split; [lia|apply digitsValue_digitsOf; exact Hn]. }
  destruct Dm as (Dm & Lm & Vm).
  destruct (split_at (String.length m - f) m ltac:(lia)) as (a & b & Em & Ea & Eb & La).
  replace (String.length m - (String.length m - f))%nat with f in Eb by lia.
  destruct f as [|f']; [lia|]. rewrite Ea, Eb.
  exists a, b. rewrite <- Em, Vm. rewrite Em, allDigits_app in Dm.
  apply andb_prop in Dm as [Da Db].
  repeat split; try assumption.
  - intros ->. cbn [String.length] in La. lia.
  - apply (f_equal String.length) in Em. rewrite length_app in Em. lia.
Qed.

(** X16: the traded value in the prompt: for a text that reads as a number
    whose hundred-millionth part [x] is below [10^21] in size,
    [formatBillions] gives a minus sign when [x] is negative, then the
    digits of an integer [n] with a point before the last one, then the
    unit, where [n / 10] is the decimal with one place nearest to the size
    of [x]. *)
Theorem formatBillions_one_decimal (rawAmount : string) :
  (abs (parseFloat rawAmount / 100000000) <? 1e21) = true ->
  exists int d n,
    formatBillions (Str rawAmount) =
      Normal ((if (parseFloat rawAmount / 100000000 <? 0)%float then "-" else "")
              ++ int ++ "." ++ String d "億")%string /\
    int <> "" /\ allDigits int = true /\ isDigit d = true /\
    digitsValue 0 (int ++ String d "") = n /\
    nearestTenths (Prim2SF (parseFloat rawAmount / 100000000)) n.
Proof.
  intros H.
  assert (N : isNaN (parseFloat rawAmount) = false).
  { unfold isNaN. destruct (is_nan (parseFloat rawAmount)) eqn:N; [|reflexivity].
    rewrite (nan_not_below _ (div_nan _ 100000000 N)) in H. discriminate H. }
  assert (T : truthy (Str rawAmount) = true).
  { cbn [truthy]. destruct (String.eqb_spec rawAmount "") as [->|]; [|reflexivity].
    vm_compute in N. discriminate N. }
  unfold formatBillions. rewrite T. cbn [negb toString bind]. rewrite N.
  set (x := parseFloat rawAmount / 100000000) in *.
  assert (V : exists int frac n,
             toFixed 1 x
               = ((if (x <? 0)%float then "-" else "") ++ int ++ "." ++ frac)%string /\
             int <> "" /\ allDigits int = true /\ allDigits frac = true /\
             String.length frac = 1%nat /\
             digitsValue 0 (int ++ frac) = n /\ nearestTenths (Prim2SF x) n).
  { rewrite FloatAxioms.ltb_spec, abs_spec in H.
    rewrite FloatAxioms.ltb_spec. change (Prim2SF 0) with (S754_zero false).
    pose proof (Prim2SF_valid x) as B. unfold toFixed.
    destruct (Prim2SF x) as [s|s| |s m e]; try discriminate H.
    - destruct (fixedDigits_value 1 0 ltac:(lia) ltac:(lia)) as (int & frac & F & R).
      exists int, frac, 0%Z. rewrite F.
      split; [destruct s; reflexivity|]. destruct R as (R1 & R2 & R3 & R4 & R5).
      repeat split; assumption.
    - cbn [SFabs valid_binary] in H, B.
      pose proof (below_1e21 m e B H) as Hb.
      unfold nearestTenths. unfold exactFraction in *.
      change (10 ^ Z.of_nat 1)%Z with 10%Z.
      destruct (Z.leb_spec 0 e) as [He|He].
      + rewrite Hb.
        assert (En : ((2 * (Zpos m * 2 ^ e) * 10 + 1) / (2 * 1) = 10 * Zpos m * 2 ^ e)%Z).
        { symmetry. apply (Z.div_unique _ _ _ 1); lia. }
        rewrite En.
        assert (P : (0 <= 10 * Zpos m * 2 ^ e)%Z)
          by (pose proof (pow2_pos e He); nia).
        destruct (fixedDigits_value 1 _ ltac:(lia) P) as (int & frac & F & R).
        exists int, frac, (10 * Zpos m * 2 ^ e)%Z. rewrite F.
        split; [destruct s; reflexivity|]. destruct R as (R1 & R2 & R3 & R4 & R5).
        repeat split; assumption.
      + rewrite Hb.
        pose proof (pow2_pos (- e) ltac:(lia)) as Q.
        set (q := (2 ^ (- e))%Z) in *.
        pose proof (Z_div_mod (2 * Zpos m * 10 + q) (2 * q) ltac:(lia)) as D.
        unfold Z.div. destruct (Z.div_eucl (2 * Zpos m * 10 + q) (2 * q)) as [n r].
        destruct D as [D1 D2].
        assert (P : (0 <= n)%Z) by nia.
        destruct (fixedDigits_value 1 n ltac:(lia) P) as (int & frac & F & R).
        exists int, frac, n. rewrite F.
        split; [destruct s; reflexivity|]. destruct R as (R1 & R2 & R3 & R4 & R5).
        repeat split; try assumption; lia. }
  destruct V as (int & frac & n & -> & Hi & Di & Df & Lf & Vn & Hn).
  destruct frac as [|d [|d' frac]]; cbn [String.length] in Lf; try lia.
  exists int, d, n. cbn [allDigits] in Df. apply andb_prop in Df as [Dd _].
  split; [|auto 10]. f_equal. rewrite !app_assoc. reflexivity.
Qed.

Lemma formatBillions_one_decimal_witness :
  exists int d n,
    formatBillions (Str "1234567890") = Normal ("" ++ int ++ "." ++ String d "億")%string /\
    int <> "" /\ allDigits int = true /\ isDigit d = true /\
    digitsValue 0 (int ++ String d "") = n /\
    nearestTenths (Prim2SF (parseFloat "1234567890" / 100000000)) n.
Proof.
  apply (formatBillions_one_decimal "1234567890"). vm_compute. reflexivity.
Defined.

End PromptTexts.

Section Summary.

Variable JSON_parse : string -> completion value.
Variable classifyModel : kind -> string -> completion (option string).
Variable summaryModel : string -> string -> completion (option string).

Lemma asMappable_Normal (v : value) (elems : list value) :
  asMappable v = Normal elems -> v = Arr elems.
Proof. destruct v; cbn [asMappable]; intros H; try discriminate H. injection H as <-. reflexivity. Qed.

Lemma textOr_not_empty (text : option string) (fallback : string) :
  fallback <> "" -> textOr text fallback <> "".
Proof.
  intros F. unfold textOr. destruct text as [t|]; [|exact F].
  cbn [truthy]. destruct (String.eqb_spec t ""); [exact F|assumption].
Qed.

Lemma generateSummary_Normal (gainers losers : value) (text : string) :
  generateSummary summaryModel gainers losers = Normal text ->
  text <> "" /\
  exists gs ls a b,
    gainers = Arr gs /\ losers = Arr ls /\
    mapM summarizeGroup gs = Normal a /\ mapM summarizeGroup ls = Normal b.
Proof.
  intros H. unfold generateSummary, summarizeGroups in H.
  apply bind_Normal in H as (gainerSummary & Hg & H).
  apply bind_Normal in H as (loserSummary & Hl & H).
  apply bind_Normal in H as (answer & _ & H). injection H as <-.
  apply bind_Normal in Hg as (gs & Eg & Hg). apply bind_Normal in Hg as (a & Ha & _).
  apply bind_Normal in Hl as (ls & El & Hl). apply bind_Normal in Hl as (b & Hb & _).
  split; [apply textOr_not_empty; discriminate|].
  exists gs, ls, a, b. auto using asMappable_Normal.
Qed.


End Summary.


Section Runs.

Variable JSON_parse : string -> completion value.
Variable classifyModel : kind -> string -> completion (option string).
Variable summaryModel : string -> string -> completion (option string).

Local Abbreviation analysis := (App.analysis JSON_parse classifyModel summaryModel).
Local Abbreviation runAnalysis := (App.runAnalysis JSON_parse classifyModel summaryModel).

(** What the [catch] block does: it sets a text that is not empty, or it
    throws, on [null] and [undefined], and sets nothing. *)
Lemma reportError_cases (err : string) :
  (exists text, reportError err = ([SetError (Str text)], Normal tt) /\ text <> "") \/
  (exists e, reportError err = ([], Throw e) /\ (err = "null" \/ err = "undefined")).
Proof.
  unfold reportError, message.
  destruct (String.eqb_spec err "null") as [->|N1]; [right; eexists; split; [reflexivity|auto]|].
  destruct (String.eqb_spec err "undefined") as [->|N2];
    [right; eexists; split; [reflexivity|auto]|].
  left. cbn [call andThen put app]. unfold or.
  destruct (afterColon err) as [m|]; cbn [truthy].
  - destruct (String.eqb_spec m "") as [->|N]; cbn [negb];
      eexists; (split; [reflexivity|]); (discriminate || assumption).
  - eexists. split; [reflexivity|discriminate].
Qed.

Lemma classifyStocksAsync_Normal (stocks : value) (type : kind) (groups : value) :
  classifyStocksAsync JSON_parse classifyModel stocks type = Normal groups ->
  exists elems, stocks = Arr elems.
Proof.
  intros H. unfold classifyStocksAsync, stocksStr in H.
  apply bind_Normal in H as (list & H & _).
  apply bind_Normal in H as (elems & H & _).
  exists elems. exact (asMappable_Normal _ _ H).
Qed.

Lemma promiseAll_Normal {A B : Type} (a : completion A) (b : completion B) (aFirst : bool)
    (r : A * B) :
  promiseAll a b aFirst = Normal r -> a = Normal (fst r) /\ b = Normal (snd r).
Proof.
  destruct a, b; cbn [promiseAll]; intros H; try discriminate H.
  injection H as <-. split; reflexivity.
Qed.

Lemma getField_Arr (v : value) (name : string) (elems : list value) :
  getField v name = Normal (Arr elems) -> exists fields, v = Obj fields.
Proof. destruct v; cbn [getField]; intros H; try discriminate H. eauto. Qed.

(** The [try] block ends normally after the eight setter calls of a complete
    analysis, or it throws after calls that set neither the summary nor the
    error; it never calls [setLoading]. *)
Lemma analysis_cases (response : fetched) (gainersFirst : bool) :
  (exists fields gainers losers text,
     response = Resolved true (Normal (Obj fields)) /\
     classifyStocksAsync JSON_parse classifyModel
       (default Undefined (lookupField "gainers" fields)) Strong = Normal gainers /\
     classifyStocksAsync JSON_parse classifyModel
       (default Undefined (lookupField "losers" fields)) Weak = Normal losers /\
     generateSummary summaryModel gainers losers = Normal text /\
     analysis response gainersFirst =
       ([SetPhase "Fetching Market Data..."; SetMarketData (Obj fields);
         SetPhase "AI Classifying Gainers & Losers..."; SetGainersStructure gainers;
         SetLosersStructure losers; SetPhase "AI Generating Market Summary...";
         SetSummary (Str text); SetPhase ""], Normal tt)) \/
  (exists us e,
     analysis response gainersFirst = (us, Throw e) /\
     Forall (fun u => isSetLoading u = false) us /\
     forall st, error (setAll st us) = error st /\ summary (setAll st us) = summary st).
Proof.
  unfold App.analysis.
  destruct response as [reason|[|] [data|e]]; cbn [negb andThen put call app];
    try (right; do 2 eexists; split; [reflexivity|];
         split; [repeat constructor|intros st; split; reflexivity]).
  destruct (getField data "gainers") as [g|e] eqn:Eg; cbn [bind];
    [|right; do 2 eexists; split; [reflexivity|];
      split; [repeat constructor|intros st; split; reflexivity]].
  destruct (getField data "losers") as [l|e] eqn:El; cbn [bind];
    [|right; do 2 eexists; split; [reflexivity|];
      split; [repeat constructor|intros st; split; reflexivity]].
  destruct (promiseAll _ _ gainersFirst) as [[gainers losers]|e] eqn:P; cbn [fst snd app];
    [|right; do 2 eexists; split; [reflexivity|];
      split; [repeat constructor|intros st; split; reflexivity]].
  destruct (generateSummary summaryModel gainers losers) as [text|e] eqn:S; cbn [app];
    [|right; do 2 eexists; split; [reflexivity|];
      split; [repeat constructor|intros st; split; reflexivity]].
  left. apply promiseAll_Normal in P as [Pg Pl]. cbn [fst snd] in Pg, Pl.
  destruct (classifyStocksAsync_Normal _ _ _ Pg) as [elems ->].
  destruct (getField_Arr _ _ _ Eg) as [fields ->].
  cbn [getField] in Eg, El. injection Eg as Eg. injection El as El.
  exists fields, gainers, losers, text. rewrite Eg, El. repeat split; assumption.
Qed.

Lemma runAnalysis_calls (response : fetched) (gainersFirst : bool) :
  runAnalysis response gainersFirst =
    ([SetLoading true; SetError Null; SetMarketData Null; SetGainersStructure Null;
      SetLosersStructure Null; SetSummary Null]
     ++ fst (analysis response gainersFirst)
     ++ match snd (analysis response gainersFirst) with
        | Normal _ => []
        | Throw err => fst (reportError err)
        end
     ++ [SetLoading false])%list.
Proof.
  unfold App.runAnalysis, tryCatchFinally.
  destruct (analysis response gainersFirst) as [us [[]|e]];
    cbn [andThen put fst snd app]; rewrite ?app_nil_r; try reflexivity.
  destruct (reportError e) as [hs r]. cbn [fst snd app].
  rewrite <- List.app_assoc. reflexivity.
Qed.

Lemma setAll_app (st : State) (us vs : list update) :
  setAll st (us ++ vs) = setAll (setAll st us) vs.
Proof. apply fold_left_app. Qed.

Lemma setAll_loading (us : list update) : forall st,
  Forall (fun u => isSetLoading u = false) us -> loading (setAll st us) = loading st.
Proof.
  induction us as [|u us IH]; intros st F; [reflexivity|].
  apply Forall_cons_iff in F as [Hu F]. cbn [setAll fold_left].
  change (loading (setAll (set st u) us) = loading st). rewrite (IH _ F).
  destruct u; try discriminate Hu; reflexivity.
Qed.

(** X18: how a run ends, from any prior state.  When the analysis
    completes, the state holds the body, the two classifications and a
    summary that is not empty, and no error: the results panel is due, alone,
    and with the state read as the declared types it is rendered exactly
    when both category lists render.  When the analysis throws an error, the
    error box is shown, alone, with a text that is not empty.  When it throws
    [null] or [undefined], reading the message throws in turn, no error is
    set and the ready panel is shown, alone. *)
Theorem run_ends_in_one_screen (response : fetched) (gainersFirst : bool) (st : State) :
  let st' := setAll st (runAnalysis response gainersFirst) in
  match snd (analysis response gainersFirst) with
  | Normal _ =>
    exists fields text,
      marketData st' = Obj fields /\ summary st' = Str text /\ text <> "" /\
      error st' = Null /\ showsResults st' = true /\
      forall gainers losers entries,
        asGroups (gainersStructure st') = Some gainers ->
        asGroups (losersStructure st') = Some losers ->
        asStockMap (default Undefined (lookupField "stockMap" fields)) = Some entries ->
        render st' =
          Some (do gainerList <- renderCategoryList gainers entries;
                do loserList <- renderCategoryList losers entries;
                Normal [Results (Str text) gainerList loserList])
  | Throw err =>
    match message err with
    | Normal _ => exists text, text <> "" /\ render st' = Some (Normal [ErrorBox (Str text)])
    | Throw _ => render st' = Some (Normal [Ready])
    end
  end.
Proof.
  cbv zeta. rewrite runAnalysis_calls.
  destruct (analysis_cases response gainersFirst)
    as [(fields & gainers & losers & text & _ & _ & _ & S & ->)|(us & e & -> & _ & U)];
    cbn [fst snd].
  - destruct (generateSummary_Normal _ _ _ _ S) as [T _].
    exists fields, text. pose proof T as T'. apply String.eqb_neq in T'.
    cbv [app setAll fold_left set render showsProgress showsError showsReady showsResults
         loading summary error marketData phase gainersStructure losersStructure].
    cbn [truthy getField]. rewrite T'. cbn [negb andb app].
    repeat (split; [first [reflexivity|exact T]|]).
    intros gs ls entries -> -> ->. reflexivity.
  - rewrite !setAll_app.
    remember (setAll st [SetLoading true; SetError Null; SetMarketData Null;
                         SetGainersStructure Null; SetLosersStructure Null;
                         SetSummary Null]) as s0 eqn:E0.
    assert (S0 : summary s0 = Null /\ error s0 = Null) by (subst s0; split; reflexivity).
    destruct (U s0) as [Ee Es]. destruct S0 as [S0 S1]. rewrite S0 in Es. rewrite S1 in Ee.
    clear E0 S0 S1 U.
    destruct (setAll s0 us) as [l p er m g lo su]. cbn [summary error] in Es, Ee. subst su er.
    destruct (reportError_cases e) as [(text & R & T)|(e' & R & _)]; rewrite R;
      unfold reportError in R; destruct (message e) as [v|e'']; try discriminate R.
    + exists text. split; [exact T|]. apply String.eqb_neq in T.
      cbv [fst app setAll fold_left set render showsProgress showsError showsReady showsResults
           loading summary error marketData phase gainersStructure losersStructure].
      cbn [truthy]. rewrite T. reflexivity.
    + cbv [fst app setAll fold_left set render showsProgress showsError showsReady showsResults
           loading summary error marketData phase gainersStructure losersStructure].
      reflexivity.
Qed.

(** X19: from its first setter call until its last the run keeps [loading]
    set: the progress panel is shown and neither the results nor the ready
    panel is. *)
Theorem loading_lasts_for_the_run (response : fetched) (gainersFirst : bool)
    (st : State) (n : nat) :
  (0 < n)%nat -> (n < length (runAnalysis response gainersFirst))%nat ->
  let st' := setAll st (firstn n (runAnalysis response gainersFirst)) in
  showsProgress st' = true /\ showsResults st' = false /\ showsReady st' = false.
Proof.
  intros H0 Hn. cbv zeta.
  assert (L : loading (setAll st (firstn n (runAnalysis response gainersFirst))) = true).
  { rewrite runAnalysis_calls in Hn |- *.
    set (middle := (fst (analysis response gainersFirst)
                    ++ match snd (analysis response gainersFirst) with
                       | Normal _ => []
                       | Throw err => fst (reportError err)
                       end)%list).
    assert (F : Forall (fun u => isSetLoading u = false) middle).
    { subst middle. apply Forall_app. split.
      - destruct (analysis_cases response gainersFirst)
          as [(fields & gainers & losers & text & _ & _ & _ & _ & ->)|(us & e & -> & F & _)];
          [repeat constructor|exact F].
      - destruct (snd (analysis response gainersFirst)) as [[]|err]; [constructor|].
        destruct (reportError_cases err) as [(text & -> & _)|(e & -> & _)];
          repeat constructor. }
    replace (_ ++ _ ++ _ ++ [SetLoading false])%list
      with ((SetLoading true
             :: [SetError Null; SetMarketData Null; SetGainersStructure Null;
                 SetLosersStructure Null; SetSummary Null] ++ middle) ++ [SetLoading false])%list
      in Hn |- *
      by (subst middle; cbn [app]; rewrite <- !List.app_assoc; reflexivity).
    rewrite List.length_app in Hn. cbn [length] in Hn.
    rewrite firstn_app.
    replace (n - _)%nat with 0%nat by (cbn [length]; lia).
    cbn [firstn]. rewrite app_nil_r.
    destruct n as [|n]; [lia|]. cbn [firstn setAll fold_left].
    change (fold_left set ?l ?s) with (setAll s l).
    rewrite setAll_loading; [reflexivity|].
    apply Forall_take. apply Forall_app. split; [repeat constructor|exact F]. }
  unfold showsProgress, showsResults, showsReady. rewrite L. repeat split.
Qed.

(** X20: an answer of the endpoint with a status outside 200..299, such as
    its no-data and its failure answer, ends the run with the error text
    [Failed to fetch market data], whatever the body says, and with no market
    data, no classification and no summary. *)
Theorem other_status_shows_fetch_failure (answer : Server.response) (body : completion value)
    (gainersFirst : bool) (st : State) :
  okOf (status answer) = false ->
  let st' := setAll st (runAnalysis (Resolved (okOf (status answer)) body) gainersFirst) in
  error st' = Str "Failed to fetch market data" /\
  marketData st' = Null /\ gainersStructure st' = Null /\ losersStructure st' = Null /\
  summary st' = Null /\ offersDownload st' = false.
Proof.
  intros H. rewrite H. cbv zeta. rewrite runAnalysis_calls.
  assert (M : reportError "Error: Failed to fetch market data"
              = ([SetError (Str "Failed to fetch market data")], Normal tt)) by reflexivity.
  cbv [App.analysis andThen put call negb app fst snd]. rewrite M.
  cbv [app fst snd setAll fold_left set offersDownload
       error marketData gainersStructure losersStructure summary].
  cbn [truthy]. repeat split.
Qed.

End Runs.

Lemma run_ends_in_one_screen_witness :
  render (setAll initial
            (App.runAnalysis (fun _ => Throw "SyntaxError: no JSON")
               (fun _ _ => Normal None) (fun _ _ => Normal None) (Rejected "null") true))
    = Some (Normal [Ready]) /\
  exists e,
    render (setAll initial
              (App.runAnalysis
                 (fun _ => Normal (Arr [Obj [("category", Str "Builders");
                                             ("stocks", Arr [Str "Acme(constructor)"])]]))
                 (fun _ _ => Normal (Some "[...]")) (fun _ _ => Normal (Some "Quiet day."))
                 (Resolved true
                    (Normal (Obj [("gainers", Arr []); ("losers", Arr []);
                                  ("stockMap", Obj [("2330", Str "+1.69%")])])))
                 true))
      = Some (Throw e).
Proof.
  split.
  - exact (run_ends_in_one_screen (fun _ => Throw "SyntaxError: no JSON")
             (fun _ _ => Normal None) (fun _ _ => Normal None) (Rejected "null") true initial).
  - pose proof (run_ends_in_one_screen
                  (fun _ => Normal (Arr [Obj [("category", Str "Builders");
                                              ("stocks", Arr [Str "Acme(constructor)"])]]))
                  (fun _ _ => Normal (Some "[...]")) (fun _ _ => Normal (Some "Quiet day."))
                  (Resolved true
                     (Normal (Obj [("gainers", Arr []); ("losers", Arr []);
                                   ("stockMap", Obj [("2330", Str "+1.69%")])])))
                  true initial) as H.
    cbv zeta in H. cbn [snd] in H.
    destruct H as (fields & text & Hm & _ & _ & _ & _ & R).
    injection Hm as <-.
    rewrite (R _ _ _ eq_refl eq_refl eq_refl). eexists. reflexivity.
Defined.

Lemma loading_lasts_for_the_run_witness :
  let st' := setAll initial
               (firstn 3 (App.runAnalysis (fun _ => Throw "SyntaxError: no JSON")
                            (fun _ _ => Normal None) (fun _ _ => Normal None)
                            (Rejected "TypeError: Failed to fetch") true)) in
  showsProgress st' = true /\ showsResults st' = false /\ showsReady st' = false.
Proof.
  apply (loading_lasts_for_the_run (fun _ => Throw "SyntaxError: no JSON")
           (fun _ _ => Normal None) (fun _ _ => Normal None)
           (Rejected "TypeError: Failed to fetch") true initial 3); cbn; lia.
Defined.

Lemma other_status_shows_fetch_failure_witness :
  (let st' := setAll initial
                (App.runAnalysis (fun _ => Throw "SyntaxError: no JSON")
                   (fun _ _ => Normal None) (fun _ _ => Normal None)
                   (Resolved (okOf (status noData))
                      (Normal (Obj [("error", Str "No market data available today.")]))) true) in
   error st' = Str "Failed to fetch market data" /\
   marketData st' = Null /\ gainersStructure st' = Null /\ losersStructure st' = Null /\
   summary st' = Null /\ offersDownload st' = false) /\
  (let st' := setAll initial
                (App.runAnalysis (fun _ => Throw "SyntaxError: no JSON")
                   (fun _ _ => Normal None) (fun _ _ => Normal None)
                   (Resolved (okOf (status failure))
                      (Normal (Obj [("error", Str "Failed to fetch market data")]))) true) in
   error st' = Str "Failed to fetch market data" /\
   marketData st' = Null /\ gainersStructure st' = Null /\ losersStructure st' = Null /\
   summary st' = Null /\ offersDownload st' = false).
Proof.
  split.
  - apply (other_status_shows_fetch_failure (fun _ => Throw "SyntaxError: no JSON")
             (fun _ _ => Normal None) (fun _ _ => Normal None) noData). reflexivity.
  - apply (other_status_shows_fetch_failure (fun _ => Throw "SyntaxError: no JSON")
             (fun _ _ => Normal None) (fun _ _ => Normal None) failure). reflexivity.
Defined.

Section MoreRuns.

Variable JSON_parse : string -> completion value.
Variable classifyModel : kind -> string -> completion (option string).
Variable summaryModel : string -> string -> completion (option string).

Local Abbreviation analysis := (App.analysis JSON_parse classifyModel summaryModel).
Local Abbreviation runAnalysis := (App.runAnalysis JSON_parse classifyModel summaryModel).



End MoreRuns.

